(** * AxiomMind: the agent control plane, embedded and verified

  A shallow embedding of the TypeScript sources of the AxiomMind bot:
  the state machine of the execution layer, the memory manager and the
  task decomposer of the tactical layer, the persistence port, the world
  observer and the inventory tracker of the perception layer, and the
  streaming bridge to the language model.

  Part I holds the definitions, one module per source class, each
  function named as in the source.  Part II holds the properties. *)

From Stdlib Require Import String.
From Stdlib Require Import List ZArith Lia Bool.
From Stdlib Require Import QArith.
From Stdlib Require DecimalString.
From Stdlib Require Import PrimFloat FloatOps SpecFloat Uint63.
Import ListNotations.

#[local] Open Scope Z_scope.
#[local] Open Scope list_scope.

(* ================================================================== *)
(** * Part I. Definitions *)
(* ================================================================== *)

(** ** JavaScript values shared by the classes *)

Module JS.

(** [Date]: milliseconds since the epoch. *)
Definition Date := Z.

(** [Array.prototype.slice(start)] with a single argument: a negative
    [start] counts from the end, and the index is clamped to the array. *)
Definition slice {A : Type} (l : list A) (start : Z) : list A :=
  let len := Z.of_nat (length l) in
  let k := if start <? 0 then Z.max (len + start) 0 else Z.min start len in
  skipn (Z.to_nat k) l.

(** Truthiness of a string: the empty string is falsy. *)
Definition truthy (s : string) : bool :=
  match s with
  | EmptyString => false
  | String _ _ => true
  end.

(** Truthiness of an optional string ([undefined] is falsy). *)
Definition truthy_opt (s : option string) : bool :=
  match s with
  | None => false
  | Some s => truthy s
  end.

(** [a || b] on optional strings. *)
Definition or_else (a : option string) (b : string) : string :=
  match a with
  | Some s => if truthy s then s else b
  | None => b
  end.

(** [Array.prototype.join('')]. *)
Definition join (parts : list string) : string :=
  fold_right String.append EmptyString parts.

(** [String.prototype.startsWith]. *)
Definition startsWith (s p : string) : bool := String.prefix p s.

(** The last [j] elements of a list, in the order of the list. *)
Definition lastn {A : Type} (j : nat) (l : list A) : list A :=
  skipn (length l - j) l.

(** [String.prototype.slice(n)] for [0 <= n]. *)
Definition str_slice (s : string) (n : nat) : string :=
  String.substring n (String.length s - n) s.

End JS.

(** ** The message type of [types/index.ts] *)

Inductive Role := system | user | assistant.

Record Message := mkMessage { role : Role; content : string }.

(** ** [StateMachine] (execution layer) *)

Module StateMachine.
Import JS.

Inductive BotState :=
| IDLE | PLANNING | MINING | CRAFTING | NAVIGATING
| COMBAT | EATING | GATHERING | BUILDING | ERROR.

Definition BotState_eqb (a b : BotState) : bool :=
  match a, b with
  | IDLE, IDLE | PLANNING, PLANNING | MINING, MINING
  | CRAFTING, CRAFTING | NAVIGATING, NAVIGATING | COMBAT, COMBAT
  | EATING, EATING | GATHERING, GATHERING | BUILDING, BUILDING
  | ERROR, ERROR => true
  | _, _ => false
  end.

Record StateTransition := mkTransition {
  from : BotState;
  to : BotState;
  timestamp : Date;
  reason : option string
}.

(** What an awaited callback does: it returns, or it throws (rejects). *)
Inductive CallbackResult := Returned | Threw.

(** A callback sees the state it is called with; its outcome may also
    depend on when it runs. *)
Definition Callback := Date -> BotState -> CallbackResult.

Record StateConfig := mkConfig {
  allowedTransitions : BotState -> option (list BotState);  (* Map.get *)
  onEnter : option Callback;
  onExit : option Callback
}.

(** [new Map(entries).get]: a later entry for a key replaces an earlier one. *)
Definition Map_of (entries : list (BotState * list BotState))
  : BotState -> option (list BotState) :=
  fun k =>
    option_map snd (find (fun e => BotState_eqb (fst e) k) (rev entries)).

Definition DEFAULT_TRANSITIONS : BotState -> option (list BotState) :=
  Map_of
    [ (IDLE, [PLANNING; EATING; ERROR]);
      (PLANNING, [MINING; CRAFTING; NAVIGATING; GATHERING; COMBAT; IDLE; ERROR]);
      (MINING, [IDLE; NAVIGATING; EATING; COMBAT; ERROR]);
      (CRAFTING, [IDLE; NAVIGATING; ERROR]);
      (NAVIGATING, [IDLE; MINING; CRAFTING; GATHERING; BUILDING; COMBAT; ERROR]);
      (COMBAT, [IDLE; NAVIGATING; EATING; ERROR]);
      (EATING, [IDLE; MINING; NAVIGATING; COMBAT; ERROR]);
      (GATHERING, [IDLE; NAVIGATING; MINING; ERROR]);
      (BUILDING, [IDLE; NAVIGATING; ERROR]);
      (ERROR, [IDLE; PLANNING]) ].

(** The fields of the class that the methods read and write. *)
Record t := mkSM {
  currentState : BotState;
  previousState : option BotState;
  history : list StateTransition
}.

Definition maxHistorySize : Z := 100.

(** The configuration the constructor installs from a partial one. *)
Definition config_of (allowed : option (BotState -> option (list BotState)))
    (enter exit : option Callback) : StateConfig :=
  {| allowedTransitions :=
       match allowed with Some m => m | None => DEFAULT_TRANSITIONS end;
     onEnter := enter;
     onExit := exit |}.

Definition constructor : t :=
  {| currentState := IDLE; previousState := None; history := [] |}.

Definition getCurrentState (sm : t) : BotState := currentState sm.

(** [getHistory(limit?)]: the last [limit] records when a limit is given
    (and is not 0), a copy of the whole history otherwise. *)
Definition getHistory (limit : option Z) (sm : t) : list StateTransition :=
  match limit with
  | Some n => if n =? 0 then history sm else slice (history sm) (- n)
  | None => history sm
  end.

Definition canTransition (cfg : StateConfig) (sm : t) (dest : BotState) : bool :=
  match allowedTransitions cfg (currentState sm) with
  | None => false
  | Some allowedStates => existsb (BotState_eqb dest) allowedStates
  end.

(** [if (cb) await cb(state)]. *)
Definition call (cb : option Callback) (now : Date) (s : BotState)
  : CallbackResult :=
  match cb with
  | None => Returned
  | Some f => f now s
  end.

(** [transition(to, reason)] at time [now]: the returned boolean and the
    fields afterwards.  The [try] block runs [onExit], writes the state,
    pushes the record, trims the history and runs [onEnter]; the [catch]
    block writes [currentState] back and nothing else. *)
Definition transition (cfg : StateConfig) (now : Date)
    (dest : BotState) (why : option string) (sm : t) : bool * t :=
  if BotState_eqb (currentState sm) dest then (true, sm)
  else if negb (canTransition cfg sm dest) then (false, sm)
  else
    let from_ := currentState sm in
    match call (onExit cfg) now from_ with
    | Threw =>
        (false, {| currentState := from_;
                   previousState := previousState sm;
                   history := history sm |})
    | Returned =>
        let pushed :=
          history sm ++
            [ {| from := from_; to := dest; timestamp := now; reason := why |} ] in
        let trimmed :=
          if Z.of_nat (length pushed) >? maxHistorySize
          then slice pushed (- maxHistorySize)
          else pushed in
        match call (onEnter cfg) now dest with
        | Threw =>
            (false, {| currentState := from_;
                       previousState := Some from_;
                       history := trimmed |})
        | Returned =>
            (true, {| currentState := dest;
                      previousState := Some from_;
                      history := trimmed |})
        end
    end.

Definition transitionToError (cfg : StateConfig) (now : Date)
    (why : string) (sm : t) : t :=
  snd (transition cfg now ERROR (Some why) sm).

Definition returnToIdle (cfg : StateConfig) (now : Date)
    (why : option string) (sm : t) : bool * t :=
  transition cfg now IDLE (Some (or_else why "Returning to idle")) sm.

Definition clearHistory (sm : t) : t :=
  {| currentState := currentState sm;
     previousState := previousState sm;
     history := [] |}.

Definition reset (sm : t) : t :=
  {| currentState := IDLE;
     previousState := Some (currentState sm);
     history := [] |}.

(** The calls a client can make, and a run of them from a given machine. *)
Inductive Call :=
| CallTransition (dest : BotState) (why : option string)
| CallTransitionToError (why : string)
| CallReturnToIdle (why : option string)
| CallReset
| CallClearHistory.

Definition step (cfg : StateConfig) (sm : t) (c : Date * Call) : t :=
  match c with
  | (now, CallTransition dest why) => snd (transition cfg now dest why sm)
  | (now, CallTransitionToError why) => transitionToError cfg now why sm
  | (now, CallReturnToIdle why) => snd (returnToIdle cfg now why sm)
  | (_, CallReset) => reset sm
  | (_, CallClearHistory) => clearHistory sm
  end.

Definition run (cfg : StateConfig) (calls : list (Date * Call)) : t :=
  fold_left (step cfg) calls constructor.

(** The invariant I2 of the specification, as a boolean. *)
Definition last_to_is_current (sm : t) : bool :=
  match last (map Some (history sm)) None with
  | None => true
  | Some tr => BotState_eqb (to tr) (currentState sm)
  end.

(** The chain of the specification's first scenario, run on the code:
    the four results and the machines after each call. *)
Definition chain (t1 t2 t3 t4 : Date) :=
  let cfg := config_of None None None in
  let r1 := transition cfg t1 PLANNING (Some "plan"%string) constructor in
  let r2 := transition cfg t2 MINING None (snd r1) in
  let r3 := transition cfg t3 EATING None (snd r2) in
  let r4 := returnToIdle cfg t4 None (snd r3) in
  (r1, r2, r3, r4).

End StateMachine.

(** ** [DatabaseManager] (persistence port): the messages table *)

Module DatabaseManager.

(** A row of [messages]: [id INTEGER PRIMARY KEY AUTOINCREMENT], [role],
    [content]. *)
Record MessageRow := mkRow {
  id : Z;
  row_role : Role;
  row_content : string
}.

(** The table in insertion order, and the largest id handed out so far
    (what AUTOINCREMENT keeps in [sqlite_sequence]). *)
Record t := mkDb {
  messages : list MessageRow;
  last_id : Z
}.

Definition empty : t := {| messages := []; last_id := 0 |}.

(** [INSERT INTO messages (role, content)] and [last_insert_rowid()]. *)
Definition insertMessage (m : Message) (db : t) : Z * t :=
  let new_id := last_id db + 1 in
  (new_id,
   {| messages := messages db ++
        [ {| id := new_id; row_role := role m; row_content := content m |} ];
      last_id := new_id |}).

(** [ORDER BY id DESC]. *)
Fixpoint insert_desc (r : MessageRow) (rows : list MessageRow) : list MessageRow :=
  match rows with
  | [] => [r]
  | r' :: rest =>
      if id r' <? id r then r :: r' :: rest else r' :: insert_desc r rest
  end.

Definition order_by_id_desc (rows : list MessageRow) : list MessageRow :=
  fold_right insert_desc [] rows.

(** [LIMIT n]: a negative limit is no limit. *)
Definition LIMIT {A : Type} (n : Z) (rows : list A) : list A :=
  if n <? 0 then rows else firstn (Z.to_nat n) rows.

Definition message_of_row (r : MessageRow) : Message :=
  {| role := row_role r; content := row_content r |}.

(** [SELECT role, content FROM messages ORDER BY id DESC LIMIT $limit]. *)
Definition getRecentMessages (limit : Z) (db : t) : list Message :=
  map message_of_row (LIMIT limit (order_by_id_desc (messages db))).

(** The stored messages in insertion (chronological) order. *)
Definition stored (db : t) : list Message := map message_of_row (messages db).

(** [DELETE FROM messages WHERE id NOT IN (the keepLast largest ids)]. *)
Definition clearOldMessages (keepLast : Z) (db : t) : t :=
  let kept := map id (LIMIT keepLast (order_by_id_desc (messages db))) in
  {| messages := filter (fun r => existsb (Z.eqb (id r)) kept) (messages db);
     last_id := last_id db |}.

(** What the schema guarantees of a table: ids grow with insertion and
    none exceeds the recorded sequence value. *)
Fixpoint ids_increase (lo : Z) (rows : list MessageRow) : Prop :=
  match rows with
  | [] => True
  | r :: rest => lo < id r /\ ids_increase (id r) rest
  end.

Definition well_formed (db : t) : Prop :=
  0 <= last_id db /\
  ids_increase 0 (messages db) /\
  Forall (fun r => id r <= last_id db) (messages db).

End DatabaseManager.

(** ** [MemoryManager] (tactical layer) *)

Module MemoryManager.
Import JS.

Record MemoryConfig := mkMemoryConfig {
  maxTokens : Z;
  keepMessages : Z
}.

Record TokenUsage := mkUsage {
  prompt_tokens : Z;
  completion_tokens : Z;
  total_tokens : Z
}.

Definition zero_usage : TokenUsage :=
  {| prompt_tokens := 0; completion_tokens := 0; total_tokens := 0 |}.

(** The fields the message, token and persistence methods read and
    write; the database is a shared handle and is passed alongside. *)
Record t := mkMemory {
  config : MemoryConfig;
  messages : list Message;
  systemMessage : option Message;
  tokenUsage : TokenUsage
}.

Definition constructor (cfg : MemoryConfig) : t :=
  {| config := cfg; messages := []; systemMessage := None;
     tokenUsage := zero_usage |}.

Definition with_messages (ms : list Message) (mm : t) : t :=
  {| config := config mm; messages := ms;
     systemMessage := systemMessage mm; tokenUsage := tokenUsage mm |}.

Definition getMessages (mm : t) : list Message := messages mm.

Definition setSystemMessage (c : string) (mm : t) : t :=
  {| config := config mm; messages := messages mm;
     systemMessage := Some {| role := system; content := c |};
     tokenUsage := tokenUsage mm |}.

Definition getTotalTokens (mm : t) : Z := prompt_tokens (tokenUsage mm).

Definition updateTokenUsage (usage : TokenUsage) (mm : t) : t :=
  {| config := config mm; messages := messages mm;
     systemMessage := systemMessage mm; tokenUsage := usage |}.

Definition trimToCount (count : Z) (mm : t) : t :=
  if Z.of_nat (length (messages mm)) >? count
  then with_messages (slice (messages mm) (- count)) mm
  else mm.

(** The test of [autoTrim]. *)
Definition overBudget (mm : t) : bool :=
  getTotalTokens mm >? maxTokens (config mm).

Definition autoTrim (mm : t) : t :=
  if overBudget mm then trimToCount (keepMessages (config mm)) mm else mm.

Definition addMessage (m : Message) (mm : t) : t :=
  autoTrim (with_messages (messages mm ++ [m]) mm).

Definition clear (mm : t) : t :=
  {| config := config mm; messages := [];
     systemMessage := systemMessage mm; tokenUsage := zero_usage |}.

(** [for (const message of this.messages) this.db.insertMessage(message)]. *)
Definition saveToDatabase (mm : t) (db : DatabaseManager.t) : DatabaseManager.t :=
  fold_left (fun d m => snd (DatabaseManager.insertMessage m d)) (messages mm) db.

(** [this.messages = this.db.getRecentMessages(limit)]: the rows are
    stored as the port returns them. *)
Definition loadFromDatabase (limit : Z) (db : DatabaseManager.t) (mm : t) : t :=
  with_messages (DatabaseManager.getRecentMessages limit db) mm.

(** The round trip of the specification: save, clear, load. *)
Definition save_clear_load (limit : Z) (mm : t) (db : DatabaseManager.t)
  : t * DatabaseManager.t :=
  let db' := saveToDatabase mm db in
  (loadFromDatabase limit db' (clear mm), db').

(** The third scenario of the specification: the usage is updated, then
    the contents [m 1 .. m n] are appended as user messages. *)
Definition append_users (m : nat -> string) (n : nat) (mm : t) : t :=
  fold_left (fun acc i => addMessage {| role := user; content := m i |} acc)
            (seq 1 n) mm.

(** A memory holding "first" then "second", saved to an empty table. *)
Definition two_messages : t :=
  with_messages
    [ {| role := user; content := "first"%string |};
      {| role := assistant; content := "second"%string |} ]
    (constructor
       {| maxTokens := 200000; keepMessages := 50 |}).

End MemoryManager.

(** ** [TaskDecomposer] (tactical layer) *)

Module TaskDecomposer.
Import JS.

Inductive Status := pending | in_progress | completed | failed | blocked.

Definition Status_eqb (a b : Status) : bool :=
  match a, b with
  | pending, pending | in_progress, in_progress | completed, completed
  | failed, failed | blocked, blocked => true
  | _, _ => false
  end.

Record Task := mkTask {
  id : string;
  goalId : string;
  description : string;
  action : string;
  parameters : list (string * string);   (* Record<string, any> *)
  priority : Z;
  status : Status;
  dependencies : list string;
  estimatedDuration : option Z;
  createdAt : Date;
  completedAt : option Date;
  error : option string
}.

Definition set_status (st : Status) (err : option string)
    (done : option Date) (t : Task) : Task :=
  {| id := id t; goalId := goalId t; description := description t;
     action := action t; parameters := parameters t; priority := priority t;
     status := st; dependencies := dependencies t;
     estimatedDuration := estimatedDuration t; createdAt := createdAt t;
     completedAt := done; error := err |}.

(** [Map<string, Task>]: the entries in insertion order. *)
Definition TaskMap := list (string * Task).

Fixpoint Map_get (m : TaskMap) (k : string) : option Task :=
  match m with
  | [] => None
  | (k', v) :: rest => if String.eqb k' k then Some v else Map_get rest k
  end.

(** [Map.set]: an existing key keeps its place, a new key goes last. *)
Fixpoint Map_set (m : TaskMap) (k : string) (v : Task) : TaskMap :=
  match m with
  | [] => [(k, v)]
  | (k', v') :: rest =>
      if String.eqb k' k then (k, v) :: rest else (k', v') :: Map_set rest k v
  end.

Definition Map_values (m : TaskMap) : list Task := map snd m.

(** The class holds the task map (logger, database and AI client are
    not written by the methods below). *)
Record t := mkDecomposer { tasks : TaskMap }.

Definition constructor : t := {| tasks := [] |}.

(** The part of a goal that [decomposeGoal] reads. *)
Record Goal := mkGoal {
  goal_id : string;
  goal_description : string;
  goal_priority : Z
}.

(** One element of [parsed.tasks] in the model's JSON answer. *)
Record TaskData := mkTaskData {
  td_id : Z;
  td_description : string;
  td_action : string;
  td_parameters : list (string * string);
  td_priority : Z;
  td_dependencies : list Z;
  td_estimatedDuration : option Z
}.

(** [`${n}`] for an integer. *)
Definition string_of_number (n : Z) : string :=
  DecimalString.NilZero.string_of_int (Z.to_int n).

(** [`${goal.id}_task_${n}`]. *)
Definition task_id (g : Goal) (n : Z) : string :=
  (goal_id g ++ "_task_" ++ string_of_number n)%string.

Definition task_of (g : Goal) (now : Date) (d : TaskData) : Task :=
  {| id := task_id g (td_id d);
     goalId := goal_id g;
     description := td_description d;
     action := td_action d;
     parameters := td_parameters d;
     priority := td_priority d;
     status := pending;
     dependencies := map (task_id g) (td_dependencies d);
     estimatedDuration := td_estimatedDuration d;
     createdAt := now;
     completedAt := None;
     error := None |}.

(** [decomposeGoal(goal)], given what the AI client answered: [None]
    when the request or [JSON.parse] threw (the [catch] branch stores
    nothing), otherwise [parsed.tasks || []].  Returns the new tasks and
    the decomposer. *)
Definition decomposeGoal (g : Goal) (answer : option (list TaskData))
    (now : Date) (td : t) : list Task * t :=
  match answer with
  | None => ([], td)
  | Some taskData =>
      let new_tasks := map (task_of g now) taskData in
      (new_tasks,
       {| tasks := fold_left (fun m task => Map_set m (id task) task)
                             new_tasks (tasks td) |})
  end.

Definition getTask (taskId : string) (td : t) : option Task :=
  Map_get (tasks td) taskId.

(** [Array.prototype.sort((a, b) => a.priority - b.priority)]: stable,
    ascending. *)
Fixpoint insert_by_priority (x : Task) (l : list Task) : list Task :=
  match l with
  | [] => [x]
  | y :: rest =>
      if priority x <=? priority y then x :: y :: rest
      else y :: insert_by_priority x rest
  end.

Definition sort_by_priority (l : list Task) : list Task :=
  fold_right insert_by_priority [] l.

Definition getPendingTasks (td : t) : list Task :=
  sort_by_priority
    (filter (fun task => Status_eqb (status task) pending) (Map_values (tasks td))).

Definition canExecuteTask (td : t) (task : Task) : bool :=
  if negb (Status_eqb (status task) pending) then false
  else
    forallb
      (fun depId =>
         match Map_get (tasks td) depId with
         | None => false
         | Some depTask => Status_eqb (status depTask) completed
         end)
      (dependencies task).

Definition getNextExecutableTask (td : t) : option Task :=
  find (canExecuteTask td) (getPendingTasks td).

Definition updateTaskStatus (now : Date) (taskId : string) (st : Status)
    (err : option string) (td : t) : t :=
  match Map_get (tasks td) taskId with
  | None => td
  | Some task =>
      let err' := if truthy_opt err then err else error task in
      let done := if Status_eqb st completed then Some now else completedAt task in
      {| tasks := Map_set (tasks td) taskId (set_status st err' done task) |}
  end.

Definition startTask (taskId : string) (td : t) : bool * t :=
  match Map_get (tasks td) taskId with
  | None => (false, td)
  | Some task =>
      if negb (canExecuteTask td task) then (false, td)
      else
        (true,
         {| tasks := Map_set (tasks td) taskId
                       (set_status in_progress (error task) (completedAt task) task) |})
  end.

Definition completeTask (now : Date) (taskId : string) (td : t) : t :=
  updateTaskStatus now taskId completed None td.

Definition failTask (now : Date) (taskId : string) (err : string) (td : t) : t :=
  updateTaskStatus now taskId failed (Some err) td.

Record Statistics := mkStats {
  total : nat;
  n_pending : nat;
  n_inProgress : nat;
  n_completed : nat;
  n_failed : nat;
  n_blocked : nat
}.

Definition getTaskStatistics (goal : option string) (td : t) : Statistics :=
  let all := Map_values (tasks td) in
  let ts :=
    if truthy_opt goal
    then filter (fun task => match goal with
                             | Some g => String.eqb (goalId task) g
                             | None => false
                             end) all
    else all in
  let count st := length (filter (fun task => Status_eqb (status task) st) ts) in
  {| total := length ts;
     n_pending := count pending;
     n_inProgress := count in_progress;
     n_completed := count completed;
     n_failed := count failed;
     n_blocked := count blocked |}.

(** A count as a JavaScript number (a double). *)
Definition number_of_nat (n : nat) : float :=
  PrimFloat.of_uint63 (Uint63.of_Z (Z.of_nat n)).

(** [Math.round]: the nearest integer, a tie going up; [None] stands for
    NaN and the infinities, which [Math.round] returns unchanged. *)
Definition Math_round (x : float) : option Z :=
  match Prim2SF x with
  | S754_zero _ => Some 0
  | S754_finite s m e =>
      let n := if s then Z.neg m else Z.pos m in
      if 0 <=? e then Some (n * 2 ^ e)
      else Some ((2 * n + 2 ^ (- e)) / 2 ^ (1 - e))
  | S754_infinity _ | S754_nan => None
  end.

(** [Math.round((stats.completed / stats.total) * 100)]. *)
Definition getProgress (goal : option string) (td : t) : option Z :=
  let stats := getTaskStatistics goal td in
  if Nat.eqb (total stats) 0 then Some 0
  else
    Math_round
      (PrimFloat.mul
         (PrimFloat.div (number_of_nat (n_completed stats))
                        (number_of_nat (total stats)))
         (number_of_nat 100)).

(** The calls that change a task's status, and a run of them. *)
Inductive Call :=
| CallUpdateTaskStatus (taskId : string) (st : Status) (err : option string)
| CallStartTask (taskId : string)
| CallCompleteTask (taskId : string)
| CallFailTask (taskId : string) (err : string).

Definition step (td : t) (c : Date * Call) : t :=
  match c with
  | (now, CallUpdateTaskStatus k st err) => updateTaskStatus now k st err td
  | (_, CallStartTask k) => snd (startTask k td)
  | (now, CallCompleteTask k) => completeTask now k td
  | (now, CallFailTask k err) => failTask now k err td
  end.

Definition run (calls : list (Date * Call)) (td : t) : t :=
  fold_left step calls td.

(** Invariant I6 of the specification for one task, as a boolean:
    [completedAt] is set exactly when the status is completed. *)
Definition completedAt_iff_completed (task : Task) : bool :=
  Bool.eqb (match completedAt task with Some _ => true | None => false end)
           (Status_eqb (status task) completed).

(** The fifth scenario: a goal decomposed into a chain of three tasks
    numbered [i1], [i2], [i3], each depending on the one before; the
    other fields of the three answers are free. *)
Definition numbered (n : Z) (deps : list Z) (d : TaskData) : TaskData :=
  {| td_id := n; td_description := td_description d;
     td_action := td_action d; td_parameters := td_parameters d;
     td_priority := td_priority d; td_dependencies := deps;
     td_estimatedDuration := td_estimatedDuration d |}.

Definition chain_data (i1 i2 i3 : Z) (d1 d2 d3 : TaskData) : list TaskData :=
  [ numbered i1 [] d1; numbered i2 [i1] d2; numbered i3 [i2] d3 ].

(** The decomposer after each step of the scenario: decomposed, then
    the three tasks completed in turn at times [n1], [n2], [n3]. *)
Definition chain_states (g : Goal) (i1 i2 i3 : Z) (d1 d2 d3 : TaskData)
    (now n1 n2 n3 : Date) : t * t * t * t :=
  let s0 := snd (decomposeGoal g (Some (chain_data i1 i2 i3 d1 d2 d3)) now
                               constructor) in
  let s1 := completeTask n1 (task_id g i1) s0 in
  let s2 := completeTask n2 (task_id g i2) s1 in
  let s3 := completeTask n3 (task_id g i3) s2 in
  (s0, s1, s2, s3).

(** A concrete instance: goal "goal_1" and tasks 1, 2, 3. *)
Definition sample_goal : Goal :=
  {| goal_id := "goal_1"; goal_description := "Get wood"; goal_priority := 1 |}.

Definition sample_data : TaskData :=
  {| td_id := 0; td_description := "step"; td_action := "mine_block";
     td_parameters := []; td_priority := 1; td_dependencies := [];
     td_estimatedDuration := Some 30 |}.

Definition sample_states : t * t * t * t :=
  chain_states sample_goal 1 2 3 sample_data sample_data sample_data 0 10 20 30.

(** Every stored task that is completed has its [completedAt]. *)
Definition completed_are_stamped (td : t) : Prop :=
  forall k task, In (k, task) (tasks td) ->
                 status task = completed -> completedAt task <> None.

End TaskDecomposer.

(** ** [WorldObserver] (perception layer): danger detection *)

Module WorldObserver.
Import JS.

(** [Vec3]: coordinates are numbers; [offset] adds to each. *)
Record Vec3 := mkVec3 { vx : Q; vy : Q; vz : Q }.

Definition offset (p : Vec3) (dx dy dz : Z) : Vec3 :=
  {| vx := (vx p + inject_Z dx)%Q;
     vy := (vy p + inject_Z dy)%Q;
     vz := (vz p + inject_Z dz)%Q |}.

Record Block := mkBlock { block_name : string; boundingBox : string }.

Inductive BlockCategory := ore | wood | stone | dirt | other.

Record BlockObservation := mkBlockObservation {
  bo_name : string;
  bo_position : Vec3;
  bo_distance : Q;
  bo_type : BlockCategory
}.

Record EntityObservation := mkEntityObservation {
  eo_type : string;
  eo_name : string;
  eo_position : Vec3;
  eo_distance : Q;
  isHostile : bool;
  eo_health : option Q
}.

Inductive DangerType := lava | cliff | hostile_mob | low_health | low_food.

Inductive Severity := low | medium | high | critical.

(** The description is a template string; the model keeps the template
    and the values it interpolates. *)
Inductive Description :=
| CriticalHealth (health : Q)          (* `Critical health: ${health}/20` *)
| LowHealth (health : Q)               (* `Low health: ${health}/20` *)
| CriticalFood (food : Q)              (* `Critical food: ${food}/20` *)
| LowFood (food : Q)                   (* `Low food: ${food}/20` *)
| LavaAway (distance : Q)              (* `Lava ${distance}m away` *)
| MobAway (name : string) (distance : Q)   (* `${name} ${distance}m away` *)
| DangerousDrop (dropDistance : Z).    (* `Dangerous drop ${n} blocks nearby` *)

Record DangerObservation := mkDanger {
  danger_type : DangerType;
  severity : Severity;
  description : Description;
  danger_position : option Vec3
}.

Record WorldSnapshot := mkSnapshot {
  timestamp : Date;
  position : Vec3;
  dimension : string;
  health : Q;
  food : Q;
  nearbyBlocks : list BlockObservation;
  nearbyEntities : list EntityObservation;
  dangers : list DangerObservation;
  timeOfDay : Z;
  weather : string
}.

(** What the observer reads from the game client during one
    observation.  [entity] is the bot's position when it has spawned;
    [bot_health] and [bot_food] may be undefined; [lavaWithin8] is what
    [findNearbyBlockType('lava', 8)] returns, [scannedBlocks] and
    [scannedEntities] what [observeBlocks()] and [observeEntities()]
    return. *)
Record Bot := mkBot {
  entity : option Vec3;
  bot_health : option Q;
  bot_food : option Q;
  blockAt : Vec3 -> option Block;
  lavaWithin8 : list BlockObservation;
  scannedBlocks : list BlockObservation;
  scannedEntities : list EntityObservation;
  bot_dimension : string;
  bot_timeOfDay : Z;
  bot_weather : string
}.

(** [x ?? 20]. *)
Definition or_20 (x : option Q) : Q :=
  match x with Some v => v | None => 20%Q end.

Definition Qleb (a b : Q) : bool := Qle_bool a b.
Definition Qltb (a b : Q) : bool := negb (Qle_bool b a).

Definition checkRadius : Z := 3.

(** The values of [for (let i = -checkRadius; i <= checkRadius; i++)]. *)
Definition ring : list Z :=
  map (fun k => Z.of_nat k - checkRadius) (seq 0 (Z.to_nat (2 * checkRadius + 1))).

(** The values of [for (let y = 0; y > -10; y--)]. *)
Definition depths : list Z := map (fun k => - Z.of_nat k) (seq 0 10).

Definition isSolid (b : option Block) : bool :=
  match b with
  | Some blk => String.eqb (boundingBox blk) "block"
  | None => false
  end.

(** The inner loop: [dropDistance] stays 0 unless a solid block is met,
    and the loop stops at the first one. *)
Fixpoint scanDown (bot : Bot) (checkPos : Vec3) (ys : list Z) : Z :=
  match ys with
  | [] => 0
  | y :: rest =>
      if isSolid (blockAt bot (offset checkPos 0 y 0)) then Z.abs y
      else scanDown bot checkPos rest
  end.

Definition dropDistance (bot : Bot) (checkPos : Vec3) : Z :=
  scanDown bot checkPos depths.

(** The danger one column yields, if any. *)
Definition cliffAt (bot : Bot) (checkPos : Vec3) : option DangerObservation :=
  let drop := dropDistance bot checkPos in
  if drop >? 4 then
    Some {| danger_type := cliff;
            severity := if drop >? 10 then high else medium;
            description := DangerousDrop drop;
            danger_position := Some checkPos |}
  else None.

(** The two outer loops, [x] outermost, returning at the first cliff. *)
Fixpoint scanColumns (bot : Bot) (botPos : Vec3) (cols : list (Z * Z))
  : option DangerObservation :=
  match cols with
  | [] => None
  | (x, z) :: rest =>
      if (x =? 0) && (z =? 0) then scanColumns bot botPos rest
      else
        match cliffAt bot (offset botPos x 0 z) with
        | Some d => Some d
        | None => scanColumns bot botPos rest
        end
  end.

Definition columns : list (Z * Z) :=
  flat_map (fun x => map (fun z => (x, z)) ring) ring.

Definition detectCliff (bot : Bot) : option DangerObservation :=
  match entity bot with
  | None => None
  | Some botPos => scanColumns bot botPos columns
  end.

Definition healthDanger (h : Q) : list DangerObservation :=
  if Qleb h 5 then
    [ {| danger_type := low_health; severity := critical;
         description := CriticalHealth h; danger_position := None |} ]
  else if Qleb h 10 then
    [ {| danger_type := low_health; severity := high;
         description := LowHealth h; danger_position := None |} ]
  else [].

Definition foodDanger (f : Q) : list DangerObservation :=
  if Qleb f 5 then
    [ {| danger_type := low_food; severity := high;
         description := CriticalFood f; danger_position := None |} ]
  else if Qleb f 10 then
    [ {| danger_type := low_food; severity := medium;
         description := LowFood f; danger_position := None |} ]
  else [].

Definition lavaDanger (bot : Bot) : list DangerObservation :=
  match lavaWithin8 bot with
  | [] => []
  | nearest :: _ =>
      [ {| danger_type := lava;
           severity := if Qltb (bo_distance nearest) 3 then critical else medium;
           description := LavaAway (bo_distance nearest);
           danger_position := Some (bo_position nearest) |} ]
  end.

Definition mobDanger (lastSnapshot : option WorldSnapshot) : list DangerObservation :=
  let hostileMobs :=
    match lastSnapshot with
    | Some snap => filter isHostile (nearbyEntities snap)
    | None => []
    end in
  match hostileMobs with
  | [] => []
  | nearest :: _ =>
      [ {| danger_type := hostile_mob;
           severity := if Qltb (eo_distance nearest) 5 then critical
                       else if Qltb (eo_distance nearest) 10 then high
                       else medium;
           description := MobAway (eo_name nearest) (eo_distance nearest);
           danger_position := Some (eo_position nearest) |} ]
  end.

Definition detectDangers (bot : Bot) (lastSnapshot : option WorldSnapshot)
  : list DangerObservation :=
  let vitals := healthDanger (or_20 (bot_health bot)) ++
                foodDanger (or_20 (bot_food bot)) in
  match entity bot with
  | None => vitals
  | Some _ =>
      vitals ++ lavaDanger bot ++ mobDanger lastSnapshot ++
      match detectCliff bot with
      | Some d => [d]
      | None => []
      end
  end.

(** [observe()]: [None] when it throws 'Bot not spawned'; otherwise the
    snapshot, which also becomes [lastSnapshot]. *)
Definition observe (now : Date) (bot : Bot) (lastSnapshot : option WorldSnapshot)
  : option WorldSnapshot :=
  match entity bot with
  | None => None
  | Some pos =>
      Some {| timestamp := now;
              position := pos;
              dimension := bot_dimension bot;
              health := or_20 (bot_health bot);
              food := or_20 (bot_food bot);
              nearbyBlocks := scannedBlocks bot;
              nearbyEntities := scannedEntities bot;
              dangers := detectDangers bot lastSnapshot;
              timeOfDay := bot_timeOfDay bot;
              weather := bot_weather bot |}
  end.

(** A bot with health 4 and food 8, standing on a ledge: every cell is
    air down to the floor five below its feet. *)
Definition sample_bot : Bot :=
  {| entity := Some {| vx := 0; vy := 64; vz := 0 |};
     bot_health := Some 4%Q;
     bot_food := Some 8%Q;
     blockAt := fun p =>
       if Qle_bool (vy p) 59
       then Some {| block_name := "stone"; boundingBox := "block" |}
       else Some {| block_name := "air"; boundingBox := "empty" |};
     lavaWithin8 := [];
     scannedBlocks := [];
     scannedEntities := [];
     bot_dimension := "overworld";
     bot_timeOfDay := 1000;
     bot_weather := "clear" |}.

(** What the claims say of one danger. *)
Definition is_medium_cliff (d : DangerObservation) : Prop :=
  danger_type d = cliff /\ severity d = medium /\
  exists drop, description d = DangerousDrop drop /\ 5 <= drop <= 9.

End WorldObserver.

(** ** [InventoryTracker] (perception layer): the change feed *)

Module InventoryTracker.
Import JS.

(** A stack in [bot.inventory.items()]. *)
Record Item := mkItem {
  item_name : string;
  item_count : Z;
  item_slot : Z
}.

(** [bot.inventory]: undefined before the inventory is loaded. *)
Definition Inventory := option (list Item).

(** [Map<string, number>]: the entries in insertion order. *)
Definition CountMap := list (string * Z).

Fixpoint Map_get (m : CountMap) (k : string) : option Z :=
  match m with
  | [] => None
  | (k', v) :: rest => if String.eqb k' k then Some v else Map_get rest k
  end.

Definition Map_has (m : CountMap) (k : string) : bool :=
  match Map_get m k with Some _ => true | None => false end.

Fixpoint Map_set (m : CountMap) (k : string) (v : Z) : CountMap :=
  match m with
  | [] => [(k, v)]
  | (k', v') :: rest =>
      if String.eqb k' k then (k, v) :: rest else (k', v') :: Map_set rest k v
  end.

(** [x || 0] on the result of [Map.get]. *)
Definition or_0 (x : option Z) : Z :=
  match x with Some v => v | None => 0 end.

Inductive ChangeType := added | removed | changed.

Record InventoryChange := mkChange {
  timestamp : Date;
  change_type : ChangeType;
  item : string;
  countBefore : Z;
  countAfter : Z;
  delta : Z
}.

Record t := mkTracker {
  previousInventory : CountMap;
  changeHistory : list InventoryChange
}.

Definition maxHistorySize : Z := 100.

Definition getInventoryMap (inv : Inventory) : CountMap :=
  match inv with
  | None => []
  | Some items =>
      fold_left
        (fun m it =>
           let current := or_0 (Map_get m (item_name it)) in
           Map_set m (item_name it) (current + item_count it))
        items []
  end.

Definition updateInventorySnapshot (inv : Inventory) (tr : t) : t :=
  {| previousInventory := getInventoryMap inv;
     changeHistory := changeHistory tr |}.

(** The constructor ends with [updateInventorySnapshot()]. *)
Definition constructor (inv : Inventory) : t :=
  updateInventorySnapshot inv {| previousInventory := []; changeHistory := [] |}.

(** The first loop of [onInventoryChange]: entries of the current map
    whose count differs from the previous one. *)
Definition detectChanges (now : Date) (previous current : CountMap)
  : list InventoryChange :=
  flat_map
    (fun entry =>
       let '(itemName, currentCount) := entry in
       let previousCount := or_0 (Map_get previous itemName) in
       if negb (currentCount =? previousCount) then
         let d := currentCount - previousCount in
         [ {| timestamp := now;
              change_type := if d >? 0 then added
                             else if d <? 0 then removed else changed;
              item := itemName;
              countBefore := previousCount;
              countAfter := currentCount;
              delta := d |} ]
       else [])
    current.

(** The second loop: entries of the previous map that are gone. *)
Definition detectRemoved (now : Date) (previous current : CountMap)
  : list InventoryChange :=
  flat_map
    (fun entry =>
       let '(itemName, previousCount) := entry in
       if negb (Map_has current itemName) then
         [ {| timestamp := now;
              change_type := removed;
              item := itemName;
              countBefore := previousCount;
              countAfter := 0;
              delta := - previousCount |} ]
       else [])
    previous.

Definition onInventoryChange (now : Date) (inv : Inventory) (tr : t) : t :=
  let currentInventory := getInventoryMap inv in
  let changes :=
    detectChanges now (previousInventory tr) currentInventory ++
    detectRemoved now (previousInventory tr) currentInventory in
  let history :=
    if (0 <? Z.of_nat (length changes)) then
      let pushed := changeHistory tr ++ changes in
      if Z.of_nat (length pushed) >? maxHistorySize
      then slice pushed (- maxHistorySize)
      else pushed
    else changeHistory tr in
  {| previousInventory := currentInventory; changeHistory := history |}.

(** What the tracker goes through after construction. *)
Inductive Event :=
| InventoryChanged (now : Date) (inv : Inventory)   (* playerCollect, itemDrop *)
| SnapshotUpdated (inv : Inventory).                 (* updateInventorySnapshot() *)

Definition inventory_of (e : Event) : Inventory :=
  match e with
  | InventoryChanged _ inv => inv
  | SnapshotUpdated inv => inv
  end.

Definition step (tr : t) (e : Event) : t :=
  match e with
  | InventoryChanged now inv => onInventoryChange now inv tr
  | SnapshotUpdated inv => updateInventorySnapshot inv tr
  end.

Definition run (inv0 : Inventory) (events : list Event) : t :=
  fold_left step events (constructor inv0).

(** Every stack of the game client holds at least one item. *)
Definition positive_stacks (inv : Inventory) : Prop :=
  match inv with
  | None => True
  | Some items => Forall (fun it => 0 < item_count it) items
  end.

(** What is claimed of a recorded change. *)
Definition never_changed (c : InventoryChange) : Prop :=
  change_type c <> changed /\ countAfter c = countBefore c + delta c.

Definition signed (c : InventoryChange) : Prop :=
  delta c <> 0 /\
  (change_type c = added <-> delta c > 0) /\
  (change_type c = removed <-> delta c < 0).

(** An inventory and the events of a small session: eight dirt picked
    up next to three logs, then the dirt dropped. *)
Definition sample_inventory : Inventory :=
  Some [ {| item_name := "oak_log"; item_count := 3; item_slot := 36 |} ].

Definition sample_events : list Event :=
  [ InventoryChanged 10
      (Some [ {| item_name := "oak_log"; item_count := 3; item_slot := 36 |};
              {| item_name := "dirt"; item_count := 8; item_slot := 37 |} ]);
    InventoryChanged 20
      (Some [ {| item_name := "oak_log"; item_count := 2; item_slot := 36 |} ]) ].

Definition all_positive (m : CountMap) : Prop :=
  Forall (fun entry => 0 < snd entry) m.

(** An inventory whose only stack holds nothing, and the event that
    finds the stack gone. *)
Definition empty_stack_inventory : Inventory :=
  Some [ {| item_name := "dirt"; item_count := 0; item_slot := 36 |} ].

Definition empty_stack_events : list Event :=
  [ InventoryChanged 10 (Some []) ].

End InventoryTracker.

(** ** [AIClient.chatWithTools] (strategic layer) and the decision cycle *)

Module AIClient.
Import JS.

(** [Record<string, any>]. *)
Definition Args := list (string * string).

Record ToolDefinition := mkTool { tool_name : string; tool_description : string }.

Record ToolCall := mkToolCall {
  call_id : string;
  call_name : string;
  arguments : Args
}.

(** What the streaming library passes to [onToolCall]. *)
Record RawCall := mkRawCall {
  raw_id : option string;
  raw_name : string;
  raw_params : Args
}.

Record ChatResponse := mkResponse {
  response_content : string;
  toolCalls : option (list ToolCall);
  usage : option MemoryManager.TokenUsage
}.

(** What happens while the stream is open: a ['data'] chunk arrives, or
    the library invokes [onToolCall] (at time [now]). *)
Inductive StreamEvent :=
| Data (chunk : string)
| ToolCallDetected (now : Date) (call : RawCall).

(** How the exchange goes: [chatCompletionStream] rejects, or a stream
    opens, delivers its events, and ends with ['end'] or ['error']. *)
Inductive Exchange :=
| Rejected (err : string)
| Ended (events : list StreamEvent)
| Failed (events : list StreamEvent) (err : string).

Inductive Outcome (A : Type) :=
| Returns (a : A)
| Throws (err : string).
Arguments Returns {A} a.
Arguments Throws {A} err.

(** [JSON.parse(s).choices?.[0]?.delta?.content] is taken as a function
    of the text: [None] when the parse throws or the path is undefined. *)
Definition DeltaReader := string -> option string.

Definition formatMessages (messages : list Message) : list Message :=
  map (fun msg => {| role := role msg; content := content msg |}) messages.

Definition formatTools (tools : list ToolDefinition) : list ToolDefinition := tools.

(** The ['data'] handler: what it pushes on [contentParts]. *)
Definition onData (deltaContent : DeltaReader) (chunk : string) : list string :=
  if negb (startsWith chunk "data: ") then []
  else
    match deltaContent (str_slice chunk 6) with
    | Some text => if truthy text then [text] else []
    | None => []
    end.

(** [`call_${Date.now()}`]. *)
Definition fresh_id (now : Date) : string :=
  ("call_" ++ DecimalString.NilZero.string_of_int (Z.to_int now))%string.

(** [onToolCall]: what it pushes on [toolCalls] (its reply goes back to
    the library and is not part of the response). *)
Definition onToolCall (now : Date) (call : RawCall) : ToolCall :=
  {| call_id := match raw_id call with
                | Some i => if truthy i then i else fresh_id now
                | None => fresh_id now
                end;
     call_name := raw_name call;
     arguments := raw_params call |}.

Definition contentParts (deltaContent : DeltaReader) (events : list StreamEvent)
  : list string :=
  flat_map (fun e => match e with
                     | Data chunk => onData deltaContent chunk
                     | ToolCallDetected _ _ => []
                     end) events.

Definition collectedCalls (events : list StreamEvent) : list ToolCall :=
  flat_map (fun e => match e with
                     | Data _ => []
                     | ToolCallDetected now call => [onToolCall now call]
                     end) events.

Definition chatWithTools (deltaContent : DeltaReader)
    (messages : list Message) (tools : list ToolDefinition) (ex : Exchange)
  : Outcome ChatResponse :=
  let formattedMessages := formatMessages messages in
  let formattedTools := formatTools tools in
  match ex with
  | Rejected err => Throws err
  | Failed _ err => Throws err
  | Ended events =>
      let calls := collectedCalls events in
      Returns
        {| response_content := join (contentParts deltaContent events);
           toolCalls := if (0 <? Z.of_nat (length calls)) then Some calls else None;
           usage := Some {| MemoryManager.prompt_tokens := 0;
                            MemoryManager.completion_tokens := 0;
                            MemoryManager.total_tokens := 0 |} |}
  end.

End AIClient.

(** ** The decision cycle of [AxiomMind], as far as it touches the memory *)

Module AxiomMind.
Import JS.

(** What one cycle meets: [observe()] or the strategy throws before the
    memory is touched, or the cycle reaches the exchange with a
    situation prompt, the tool list and what the model streams. *)
Inductive Cycle :=
| FailsEarly
| Reaches (situationPrompt : string) (tools : list AIClient.ToolDefinition)
          (ex : AIClient.Exchange).

(** The memory after [decisionCycle()]: the prompt is appended, the
    usage is updated from the response when it carries one, and the
    content is appended when it is not empty; when [chatWithTools]
    throws, the [catch] block leaves the memory as it is. *)
Definition decisionCycle (deltaContent : AIClient.DeltaReader) (c : Cycle)
    (mm : MemoryManager.t) : MemoryManager.t :=
  match c with
  | FailsEarly => mm
  | Reaches situationPrompt tools ex =>
      let mm1 :=
        MemoryManager.addMessage {| role := user; content := situationPrompt |} mm in
      match AIClient.chatWithTools deltaContent
              (MemoryManager.getMessages mm1) tools ex with
      | AIClient.Throws _ => mm1
      | AIClient.Returns response =>
          let mm2 :=
            match AIClient.usage response with
            | Some u => MemoryManager.updateTokenUsage u mm1
            | None => mm1
            end in
          if truthy (AIClient.response_content response)
          then MemoryManager.addMessage
                 {| role := assistant;
                    content := AIClient.response_content response |} mm2
          else mm2
      end
  end.

(** A bot whose memory usage is only ever updated by its cycles. *)
Definition run (deltaContent : AIClient.DeltaReader)
    (cfg : MemoryManager.MemoryConfig) (cycles : list Cycle) : MemoryManager.t :=
  fold_left (fun mm c => decisionCycle deltaContent c mm) cycles
            (MemoryManager.constructor cfg).

(** The messages a cycle appends. *)
Definition appended (deltaContent : AIClient.DeltaReader)
    (before : list Message) (c : Cycle) : list Message :=
  match c with
  | FailsEarly => []
  | Reaches situationPrompt tools ex =>
      let prompt := {| role := user; content := situationPrompt |} in
      match AIClient.chatWithTools deltaContent (before ++ [prompt]) tools ex with
      | AIClient.Throws _ => [prompt]
      | AIClient.Returns response =>
          if truthy (AIClient.response_content response)
          then [ prompt;
                 {| role := assistant;
                    content := AIClient.response_content response |} ]
          else [prompt]
      end
  end.

(** A reader for the examples: the text after the prefix is the delta. *)
Definition sample_reader : AIClient.DeltaReader := fun text => Some text.

Definition sample_cycles : list Cycle :=
  [ Reaches "Current Situation: early_game" []
      (AIClient.Ended
         [ AIClient.Data "data: Thinking";
           AIClient.ToolCallDetected 1700
             {| AIClient.raw_id := None; AIClient.raw_name := "mine_block";
                AIClient.raw_params :=
                  [("blockType", "stone"); ("count", "2")]%string |};
           AIClient.Data "data:  done" ]) ].

End AxiomMind.

(** ** [StateMachine]: the observers *)

Module StateMachineQueries.
Import JS StateMachine.

Definition isInState (s : BotState) (sm : t) : bool :=
  BotState_eqb (currentState sm) s.

Definition isIdle (sm : t) : bool := BotState_eqb (currentState sm) IDLE.

Definition isBusy (sm : t) : bool :=
  negb (BotState_eqb (currentState sm) IDLE) &&
  negb (BotState_eqb (currentState sm) PLANNING).

Definition isError (sm : t) : bool := BotState_eqb (currentState sm) ERROR.

(** [Date.now() - lastTransition.timestamp.getTime()], 0 with no record. *)
Definition getTimeInCurrentState (now : Date) (sm : t) : Z :=
  match last (map Some (history sm)) None with
  | None => 0
  | Some lastTransition => now - timestamp lastTransition
  end.

(** [Map<BotState, number>]: the entries in insertion order. *)
Definition FrequencyMap := list (BotState * Z).

Fixpoint Map_get (m : FrequencyMap) (k : BotState) : option Z :=
  match m with
  | [] => None
  | (k', v) :: rest => if BotState_eqb k' k then Some v else Map_get rest k
  end.

Fixpoint Map_set (m : FrequencyMap) (k : BotState) (v : Z) : FrequencyMap :=
  match m with
  | [] => [(k, v)]
  | (k', v') :: rest =>
      if BotState_eqb k' k then (k, v) :: rest else (k', v') :: Map_set rest k v
  end.

(** [stateFrequency.get(s) || 0]. *)
Definition or_0 (x : option Z) : Z :=
  match x with Some v => v | None => 0 end.

Record Statistics := mkStatistics {
  stat_currentState : BotState;
  stat_previousState : option BotState;
  timeInCurrentState : Z;
  totalTransitions : Z;
  stateFrequency : FrequencyMap
}.

Definition getStatistics (now : Date) (sm : t) : Statistics :=
  let freq :=
    fold_left
      (fun m tr => Map_set m (to tr) (or_0 (Map_get m (to tr)) + 1))
      (history sm) [] in
  {| stat_currentState := currentState sm;
     stat_previousState := previousState sm;
     timeInCurrentState := getTimeInCurrentState now sm;
     totalTransitions := Z.of_nat (length (history sm));
     stateFrequency := freq |}.

(** The number of records of a history that lead to [s]. *)
Definition arrivals (s : BotState) (h : list StateTransition) : Z :=
  Z.of_nat (length (filter (fun tr => BotState_eqb (to tr) s) h)).

(** A machine that has been through a few states, and callbacks that
    only log. *)
Definition sample_callbacks : StateConfig :=
  config_of None (Some (fun _ _ => Returned)) (Some (fun _ _ => Returned)).

Definition sample_calls : list (Date * Call) :=
  [ (1, CallTransition PLANNING (Some "plan"%string));
    (2, CallTransition MINING None);
    (3, CallTransitionToError "pickaxe broke"%string) ].

End StateMachineQueries.

(** ** [StateMachine]: callbacks that hold the machine *)

Module StateMachineCallbacks.
Import JS StateMachine.

(** [onEnter] and [onExit] are functions of the client that
    [transition] awaits.  Such a function can hold the machine and call
    [reset()], [transition()] and the like on it before it returns or
    throws: it is a function of the machine it finds, giving its outcome
    and the machine it leaves. *)
Definition Callback := Date -> BotState -> t -> CallbackResult * t.

Record StateConfig := mkConfig {
  allowedTransitions : BotState -> option (list BotState);
  onEnter : option Callback;
  onExit : option Callback
}.

Definition config_of (allowed : option (BotState -> option (list BotState)))
    (enter exit : option Callback) : StateConfig :=
  {| allowedTransitions :=
       match allowed with Some m => m | None => DEFAULT_TRANSITIONS end;
     onEnter := enter;
     onExit := exit |}.

Definition canTransition (cfg : StateConfig) (sm : t) (dest : BotState) : bool :=
  match allowedTransitions cfg (currentState sm) with
  | None => false
  | Some allowedStates => existsb (BotState_eqb dest) allowedStates
  end.

(** [if (cb) await cb(state)]. *)
Definition call (cb : option Callback) (now : Date) (s : BotState) (sm : t)
  : CallbackResult * t :=
  match cb with
  | None => (Returned, sm)
  | Some f => f now s sm
  end.

(** [this.currentState = from] in the [catch] block. *)
Definition revert (from_ : BotState) (sm : t) : t :=
  {| currentState := from_;
     previousState := previousState sm;
     history := history sm |}.

(** [transition(to, reason)]: [from] is read before [onExit] is
    awaited; the state is written and the record pushed on the machine
    as [onExit] left it; what [onEnter] leaves is what the call leaves,
    but for the [catch] block, which writes [currentState] back. *)
Definition transition (cfg : StateConfig) (now : Date)
    (dest : BotState) (why : option string) (sm : t) : bool * t :=
  if BotState_eqb (currentState sm) dest then (true, sm)
  else if negb (canTransition cfg sm dest) then (false, sm)
  else
    let from_ := currentState sm in
    match call (onExit cfg) now from_ sm with
    | (Threw, sm1) => (false, revert from_ sm1)
    | (Returned, sm1) =>
        let pushed :=
          history sm1 ++
            [ {| from := from_; to := dest; timestamp := now; reason := why |} ] in
        let trimmed :=
          if Z.of_nat (length pushed) >? maxHistorySize
          then slice pushed (- maxHistorySize)
          else pushed in
        let sm2 := {| currentState := dest;
                      previousState := Some from_;
                      history := trimmed |} in
        match call (onEnter cfg) now dest sm2 with
        | (Threw, sm3) => (false, revert from_ sm3)
        | (Returned, sm3) => (true, sm3)
        end
    end.

Definition transitionToError (cfg : StateConfig) (now : Date)
    (why : string) (sm : t) : t :=
  snd (transition cfg now ERROR (Some why) sm).

Definition returnToIdle (cfg : StateConfig) (now : Date)
    (why : option string) (sm : t) : bool * t :=
  transition cfg now IDLE (Some (or_else why "Returning to idle")) sm.

Definition step (cfg : StateConfig) (sm : t) (c : Date * Call) : t :=
  match c with
  | (now, CallTransition dest why) => snd (transition cfg now dest why sm)
  | (now, CallTransitionToError why) => transitionToError cfg now why sm
  | (now, CallReturnToIdle why) => snd (returnToIdle cfg now why sm)
  | (_, CallReset) => reset sm
  | (_, CallClearHistory) => clearHistory sm
  end.

Definition run (cfg : StateConfig) (calls : list (Date * Call)) : t :=
  fold_left (step cfg) calls constructor.

(** A callback that does not call back into the machine: it leaves the
    fields as it found them. *)
Definition leaves_machine (cb : option Callback) : Prop :=
  forall now s sm, snd (call cb now s sm) = sm.

(** A callback that returns whenever it is called. *)
Definition never_throws (cb : option Callback) : Prop :=
  forall now s sm, fst (call cb now s sm) = Returned.

(** A callback of [StateMachine], which cannot touch the machine, as a
    callback here. *)
Definition detached (cb : StateMachine.Callback) : Callback :=
  fun now s sm => (cb now s, sm).

Definition detached_config (cfg : StateMachine.StateConfig) : StateConfig :=
  {| allowedTransitions := StateMachine.allowedTransitions cfg;
     onEnter := option_map detached (StateMachine.onEnter cfg);
     onExit := option_map detached (StateMachine.onExit cfg) |}.

(** Callbacks that hold the machine.  [resets] is [() => sm.reset()]. *)
Definition resets : Callback := fun _ _ sm => (Returned, reset sm).

(** An [onExit] that, the first time it runs, awaits
    [sm.transitionToError('boom')] and then throws; in the call nested
    in that transition it returns at once, so the nested transition
    goes as on a machine without callbacks. *)
Definition fails_after_error : Callback :=
  fun now _ sm =>
    (Threw, transitionToError (config_of None None None) now "boom" sm).

(** An [onEnter] that goes on to PLANNING when it enters IDLE and
    returns at once for every other state, the nested call included. *)
Definition plans_when_idle : Callback :=
  fun now s sm =>
    match s with
    | IDLE => (Returned,
               snd (transition (config_of None None None) now PLANNING None sm))
    | _ => (Returned, sm)
    end.

(** Callbacks that only log, whatever they find. *)
Definition logs : Callback := fun _ _ sm => (Returned, sm).

Definition logging : StateConfig := config_of None (Some logs) (Some logs).

End StateMachineCallbacks.

(** ** [DatabaseManager]: the goals table *)

Module GoalsTable.
Import JS.

Inductive GoalType := main | sub | task.

Inductive GoalStatus := pending | in_progress | completed | failed.

Definition GoalStatus_eqb (a b : GoalStatus) : bool :=
  match a, b with
  | pending, pending | in_progress, in_progress
  | completed, completed | failed, failed => true
  | _, _ => false
  end.

(** [Goal] of [types/index.ts]. *)
Record Goal := mkGoal {
  id : string;
  type : GoalType;
  description : string;
  priority : Z;
  status : GoalStatus;
  parentId : option string;
  createdAt : Date;
  completedAt : option Date
}.

(** [Omit<Goal, 'createdAt' | 'completedAt'>]. *)
Record NewGoal := mkNewGoal {
  new_id : string;
  new_type : GoalType;
  new_description : string;
  new_priority : Z;
  new_status : GoalStatus;
  new_parentId : option string
}.

(** The table [goals], [id TEXT PRIMARY KEY], in insertion order. *)
Definition t := list Goal.

Inductive Outcome (A : Type) :=
| Returns (a : A)
| Throws (err : string).
Arguments Returns {A} a.
Arguments Throws {A} err.

Definition has_id (k : string) (g : Goal) : bool := String.eqb (id g) k.

(** [new Date(text)]: what the runtime reads from a date text. *)
Definition DateReader := string -> Date.

(** [INSERT INTO goals ...]: the statement binds no time.  The column
    [created_at] takes its default, CURRENT_TIMESTAMP: the text
    [created_at] that SQLite writes from its own clock, in whole
    seconds.  The table is kept as [getGoal] reads its rows back, so
    [createdAt] is [new Date(row.created_at)]; [completed_at] is NULL
    and [parentId || null] is stored.  A second row with the same
    primary key is refused. *)
Definition insertGoal (new_Date : DateReader) (created_at : string)
    (g : NewGoal) (table : t) : Outcome t :=
  if existsb (has_id (new_id g)) table
  then Throws "UNIQUE constraint failed: goals.id"
  else
    Returns
      (table ++
       [ {| id := new_id g; type := new_type g; description := new_description g;
            priority := new_priority g; status := new_status g;
            parentId := if truthy_opt (new_parentId g) then new_parentId g else None;
            createdAt := new_Date created_at; completedAt := None |} ]).

(** [SELECT * FROM goals WHERE id = $id]. *)
Definition getGoal (k : string) (table : t) : option Goal :=
  find (has_id k) table.

(** [UPDATE goals SET status = $status, completed_at = $completedAt
    WHERE id = $id], with [completedAt] the current time for 'completed'
    and NULL otherwise. *)
Definition updateGoalStatus (now : Date) (k : string) (st : GoalStatus)
    (table : t) : t :=
  let done := if GoalStatus_eqb st completed then Some now else None in
  map (fun g =>
         if has_id k g
         then {| id := id g; type := type g; description := description g;
                 priority := priority g; status := st; parentId := parentId g;
                 createdAt := createdAt g; completedAt := done |}
         else g)
      table.

(** [ORDER BY priority ASC]; rows of equal priority are left in
    insertion order. *)
Fixpoint insert_by_priority (g : Goal) (l : list Goal) : list Goal :=
  match l with
  | [] => [g]
  | g' :: rest =>
      if priority g <=? priority g' then g :: g' :: rest
      else g' :: insert_by_priority g rest
  end.

Definition order_by_priority (l : list Goal) : list Goal :=
  fold_right insert_by_priority [] l.

(** [SELECT * FROM goals WHERE status = 'pending' ORDER BY priority ASC]. *)
Definition getPendingGoals (table : t) : list Goal :=
  order_by_priority (filter (fun g => GoalStatus_eqb (status g) pending) table).

(** Ascending priorities. *)
Fixpoint ascending (l : list Goal) : Prop :=
  match l with
  | [] => True
  | g :: rest => Forall (fun g' => priority g <= priority g') rest /\ ascending rest
  end.

(** What [getGoal] returns for a goal just inserted, [created] being
    what [new Date] reads from the row's [created_at]. *)
Definition stored_goal (created : Date) (g : NewGoal) : Goal :=
  {| id := new_id g; type := new_type g; description := new_description g;
     priority := new_priority g; status := new_status g;
     parentId := if truthy_opt (new_parentId g) then new_parentId g else None;
     createdAt := created; completedAt := None |}.

(** A reader for the examples: every text reads as the time 5. *)
Definition reads_5 : DateReader := fun _ => 5.

Definition sample_goal : NewGoal :=
  {| new_id := "main"; new_type := main; new_description := "Beat the dragon";
     new_priority := 1; new_status := pending; new_parentId := None |}.

End GoalsTable.

(** ** [DatabaseManager]: the world_states table *)

Module WorldStatesTable.
Import JS.

(** [WorldStateRecord]; [timestamp] is a text. *)
Record WorldStateRecord := mkWorldState {
  position : Q * Q * Q;
  health : Q;
  food : Q;
  dimension : string;
  timestamp : option string
}.

(** A row: [id INTEGER PRIMARY KEY AUTOINCREMENT], the columns, and
    [created_at TEXT NOT NULL DEFAULT CURRENT_TIMESTAMP]. *)
Record Row := mkRow {
  id : Z;
  position_x : Q;
  position_y : Q;
  position_z : Q;
  row_health : Q;
  row_food : Q;
  row_dimension : string;
  created_at : string
}.

Record t := mkTable { rows : list Row; last_id : Z }.

Definition empty : t := {| rows := []; last_id := 0 |}.

(** What the database does with the INSERT, which binds no time: it
    stores the row and stamps [created_at] with its CURRENT_TIMESTAMP,
    the text of its own clock in whole seconds; or it refuses the
    statement (a closed or locked database, a full disk) and
    [query.run] throws. *)
Inductive Write :=
| Stamped (created_at : string)
| Refused (err : string).

Inductive Outcome (A : Type) :=
| Returns (a : A)
| Throws (err : string).
Arguments Returns {A} a.
Arguments Throws {A} err.

Definition insertWorldState (w : Write) (state : WorldStateRecord) (table : t)
  : Outcome (Z * t) :=
  match w with
  | Refused err => Throws err
  | Stamped stamp =>
      let new_id := last_id table + 1 in
      let '(x, y, z) := position state in
      Returns
        (new_id,
         {| rows := rows table ++
              [ {| id := new_id; position_x := x; position_y := y; position_z := z;
                   row_health := health state; row_food := food state;
                   row_dimension := dimension state; created_at := stamp |} ];
            last_id := new_id |})
  end.

(** The row of largest id, the first such in insertion order. *)
Fixpoint max_row (best : Row) (l : list Row) : Row :=
  match l with
  | [] => best
  | r :: rest => max_row (if id best <? id r then r else best) rest
  end.

(** [SELECT * FROM world_states ORDER BY id DESC LIMIT 1];
    [timestamp: row.created_at], the text as stored. *)
Definition getLatestWorldState (table : t) : option WorldStateRecord :=
  match rows table with
  | [] => None
  | r :: rest =>
      let row := max_row r rest in
      Some {| position := (position_x row, position_y row, position_z row);
              health := row_health row;
              food := row_food row;
              dimension := row_dimension row;
              timestamp := Some (created_at row) |}
  end.

(** No row has an id above the recorded sequence value. *)
Definition well_formed (table : t) : Prop :=
  Forall (fun r => id r <= last_id table) (rows table).

(** What [saveWorldState] passes to [insertWorldState]. *)
Definition record_of (snapshot : WorldObserver.WorldSnapshot) : WorldStateRecord :=
  let p := WorldObserver.position snapshot in
  {| position := (WorldObserver.vx p, WorldObserver.vy p, WorldObserver.vz p);
     health := WorldObserver.health snapshot;
     food := WorldObserver.food snapshot;
     dimension := WorldObserver.dimension snapshot;
     timestamp := None |}.

(** [WorldObserver.saveWorldState]: the insert runs inside [try]; when
    it throws, the [catch] block logs the error and nothing is stored. *)
Definition saveWorldState (w : Write) (snapshot : WorldObserver.WorldSnapshot)
    (table : t) : t :=
  match insertWorldState w (record_of snapshot) table with
  | Returns (_, table') => table'
  | Throws _ => table
  end.

(** [WorldObserver.observe()] with its [saveWorldState]: the snapshot,
    when the bot has spawned, and the table afterwards. *)
Definition observe_and_save (now : Date) (w : Write) (bot : WorldObserver.Bot)
    (lastSnapshot : option WorldObserver.WorldSnapshot) (table : t)
  : option WorldObserver.WorldSnapshot * t :=
  match WorldObserver.observe now bot lastSnapshot with
  | None => (None, table)
  | Some snapshot => (Some snapshot, saveWorldState w snapshot table)
  end.

End WorldStatesTable.

(** ** [MemoryManager]: sequences of calls *)

Module MemorySessions.
Import JS MemoryManager.

(** The calls that touch the message list, the usage or the system
    message; the database is threaded along. *)
Inductive Call :=
| CallAddMessage (m : Message)
| CallSetSystemMessage (c : string)
| CallUpdateTokenUsage (usage : TokenUsage)
| CallTrimToCount (count : Z)
| CallSaveToDatabase
| CallLoadFromDatabase (limit : Z)
| CallClear.

Definition step (st : t * DatabaseManager.t) (c : Call) : t * DatabaseManager.t :=
  let '(mm, db) := st in
  match c with
  | CallAddMessage m => (addMessage m mm, db)
  | CallSetSystemMessage s => (setSystemMessage s mm, db)
  | CallUpdateTokenUsage u => (updateTokenUsage u mm, db)
  | CallTrimToCount n => (trimToCount n mm, db)
  | CallSaveToDatabase => (mm, saveToDatabase mm db)
  | CallLoadFromDatabase n => (loadFromDatabase n db mm, db)
  | CallClear => (clear mm, db)
  end.

Definition run (calls : list Call) (st : t * DatabaseManager.t) : t * DatabaseManager.t :=
  fold_left step calls st.

Definition sets_system_message (c : Call) : bool :=
  match c with CallSetSystemMessage _ => true | _ => false end.

End MemorySessions.

(** ** [TaskDecomposer]: sessions, lookups by goal and planning *)

Module TaskPlanning.
Import JS TaskDecomposer.

(** What happens to a decomposer: a goal is decomposed, or one of the
    status calls is made. *)
Inductive Event :=
| Decomposed (g : Goal) (answer : option (list TaskData)) (now : Date)
| Called (now : Date) (c : Call).

Definition apply_event (td : t) (e : Event) : t :=
  match e with
  | Decomposed g answer now => snd (decomposeGoal g answer now td)
  | Called now c => step td (now, c)
  end.

Definition session (events : list Event) : t :=
  fold_left apply_event events constructor.

(** Ascending priorities. *)
Fixpoint ascending (l : list Task) : Prop :=
  match l with
  | [] => True
  | x :: rest => Forall (fun y => priority x <= priority y) rest /\ ascending rest
  end.

(** A task that can run, as the comments have it: it is pending, and
    each id among its dependencies names a stored task that is
    completed. *)
Definition ready (td : t) (task : Task) : Prop :=
  status task = pending /\
  forall depId, In depId (dependencies task) ->
    exists depTask, getTask depId td = Some depTask /\ status depTask = completed.

Definition getTasksForGoal (goal : string) (td : t) : list Task :=
  filter (fun task => String.eqb (goalId task) goal) (Map_values (tasks td)).

(** [Map.delete]. *)
Fixpoint Map_delete (m : TaskMap) (k : string) : TaskMap :=
  match m with
  | [] => []
  | (k', v) :: rest =>
      if String.eqb k' k then rest else (k', v) :: Map_delete rest k
  end.

Definition clearTasks (td : t) : t := {| tasks := [] |}.

Definition clearTasksForGoal (goal : string) (td : t) : t :=
  let tasksToRemove :=
    filter (fun taskId =>
              match Map_get (tasks td) taskId with
              | Some task => String.eqb (goalId task) goal
              | None => false
              end)
           (map fst (tasks td)) in
  {| tasks := fold_left Map_delete tasksToRemove (tasks td) |}.

(** A [Map] holds each key once. *)
Definition valid_map (m : TaskMap) : Prop := NoDup (map fst m).

(** [Set<string>]: the elements in insertion order, each once. *)
Definition StringSet := list string.

Definition Set_has (s : StringSet) (k : string) : bool :=
  existsb (String.eqb k) s.

Definition Set_add (s : StringSet) (k : string) : StringSet :=
  if Set_has s k then s else s ++ [k].

(** [new Set(array)]. *)
Definition Set_of (l : list string) : StringSet := fold_left Set_add l [].

(** [Map<string, Set<string>>]. *)
Definition DependencyMap := list (string * StringSet).

Fixpoint Deps_get (m : DependencyMap) (k : string) : option StringSet :=
  match m with
  | [] => None
  | (k', v) :: rest => if String.eqb k' k then Some v else Deps_get rest k
  end.

Fixpoint Deps_set (m : DependencyMap) (k : string) (v : StringSet) : DependencyMap :=
  match m with
  | [] => [(k, v)]
  | (k', v') :: rest =>
      if String.eqb k' k then (k, v) :: rest else (k', v') :: Deps_set rest k v
  end.

Definition dependencyMap_of (ts : list Task) : DependencyMap :=
  fold_left (fun m task => Deps_set m (id task) (Set_of (dependencies task))) ts [].

(** [dependencyMap.get(task.id) || new Set()]. *)
Definition deps_of (m : DependencyMap) (k : string) : StringSet :=
  match Deps_get m k with Some d => d | None => [] end.

(** The inner [for] loop: the tasks that can execute now. *)
Definition currentGroup_of (ts : list Task) (m : DependencyMap)
    (completed : StringSet) : list string :=
  flat_map
    (fun task =>
       if Set_has completed (id task) then []
       else if forallb (Set_has completed) (deps_of m (id task)) then [id task]
       else [])
    ts.

(** The [while (completed.size < tasks.length)] loop, run for at most
    [fuel] iterations: it stops when every task is placed, or ([break])
    when no further task can be. *)
Fixpoint plan_loop (fuel : nat) (ts : list Task) (m : DependencyMap)
    (completed : StringSet) (order : list string) (groups : list (list string))
  : list string * list (list string) :=
  match fuel with
  | O => (order, groups)
  | S fuel' =>
      if (length completed <? length ts)%nat then
        match currentGroup_of ts m completed with
        | [] => (order, groups)
        | k :: ks =>
            plan_loop fuel' ts m (fold_left Set_add (k :: ks) completed)
                      (order ++ k :: ks) (groups ++ [k :: ks])
        end
      else (order, groups)
  end.

Record TaskExecutionPlan := mkPlan {
  plan_tasks : list Task;
  executionOrder : list string;
  parallelGroups : list (list string)
}.

(** [createExecutionPlan(goalId)]; each iteration of the loop places at
    least one task, so as many iterations as there are tasks suffice. *)
Definition createExecutionPlan (goal : string) (td : t) : TaskExecutionPlan :=
  let ts := getTasksForGoal goal td in
  let '(order, groups) := plan_loop (length ts) ts (dependencyMap_of ts) [] [] [] in
  {| plan_tasks := ts; executionOrder := order; parallelGroups := groups |}.

(** In a decomposer each task is stored under its own id. *)
Definition keyed (td : t) : Prop :=
  valid_map (tasks td) /\
  forall k task, In (k, task) (tasks td) -> id task = k.

(** What the loop keeps true of its variables. *)
Definition plan_invariant (ts : list Task) (m : DependencyMap)
    (completed : StringSet) (order : list string) (groups : list (list string))
  : Prop :=
  (forall x, In x completed <-> In x order) /\
  NoDup order /\
  concat groups = order /\
  Forall (fun g => g <> []) groups /\
  (forall k, In k order -> exists task, In task ts /\ id task = k) /\
  (forall a k b, order = a ++ k :: b ->
                 forall d, In d (deps_of m k) -> In d a).

(** A diamond: B and C depend on A, D on both; and E waits for a task
    that does not exist. *)
Definition diamond_data : list TaskData :=
  [ numbered 4 [2; 3] sample_data; numbered 2 [1] sample_data;
    numbered 3 [1] sample_data; numbered 1 [] sample_data;
    numbered 5 [9] sample_data ].

Definition diamond : t :=
  snd (decomposeGoal sample_goal (Some diamond_data) 0 constructor).

End TaskPlanning.

(** ** [InventoryTracker]: the queries *)

Module InventoryQueries.
Import JS InventoryTracker.

(** [String.prototype.includes]. *)
Fixpoint includes (s sub : string) : bool :=
  match s with
  | EmptyString => String.prefix sub EmptyString
  | String _ rest => String.prefix sub s || includes rest sub
  end.

Definition TOOLS : list string := ["pickaxe"; "axe"; "shovel"; "hoe"]%string.
Definition WEAPONS : list string := ["sword"; "bow"; "crossbow"; "trident"]%string.
Definition ARMOR : list string :=
  ["helmet"; "chestplate"; "leggings"; "boots"; "shield"]%string.
Definition FOOD_ITEMS : list string :=
  [ "bread"; "apple"; "carrot"; "potato"; "beef"; "porkchop";
    "chicken"; "mutton"; "fish"; "salmon"; "cod"; "steak";
    "cooked_beef"; "cooked_porkchop"; "cooked_chicken"; "cooked_mutton";
    "golden_apple"; "melon"; "cookie"; "cake" ]%string.
Definition ORES : list string :=
  [ "coal"; "iron_ingot"; "gold_ingot"; "diamond"; "emerald";
    "lapis_lazuli"; "redstone"; "copper_ingot"; "netherite_ingot" ]%string.

Definition isTool (itemName : string) : bool := existsb (includes itemName) TOOLS.
Definition isWeapon (itemName : string) : bool := existsb (includes itemName) WEAPONS.
Definition isArmor (itemName : string) : bool := existsb (includes itemName) ARMOR.
Definition isFood (itemName : string) : bool := existsb (includes itemName) FOOD_ITEMS.
Definition isBlock (itemName : string) : bool :=
  includes itemName "_block" || includes itemName "stone" ||
  includes itemName "dirt" || includes itemName "planks" ||
  includes itemName "log".
Definition isOre (itemName : string) : bool := existsb (includes itemName) ORES.

Record Categories := mkCategories {
  tools : list Item;
  weapons : list Item;
  armor : list Item;
  food : list Item;
  blocks : list Item;
  ores : list Item;
  other : list Item
}.

Record InventorySummary := mkSummary {
  totalItems : Z;
  totalSlots : Z;
  usedSlots : Z;
  freeSlots : Z;
  items : list Item;
  categories : Categories
}.

Definition getEmptySummary : InventorySummary :=
  {| totalItems := 0; totalSlots := 36; usedSlots := 0; freeSlots := 36;
     items := [];
     categories := {| tools := []; weapons := []; armor := []; food := [];
                      blocks := []; ores := []; other := [] |} |}.

Definition getInventorySummary (inv : Inventory) : InventorySummary :=
  match inv with
  | None => getEmptySummary
  | Some inventoryItems =>
      let pick p := filter (fun i => p (item_name i)) inventoryItems in
      {| totalItems := fold_left (fun sum it => sum + item_count it) inventoryItems 0;
         totalSlots := 36;
         usedSlots := Z.of_nat (length inventoryItems);
         freeSlots := 36 - Z.of_nat (length inventoryItems);
         items := inventoryItems;
         categories :=
           {| tools := pick isTool; weapons := pick isWeapon; armor := pick isArmor;
              food := pick isFood; blocks := pick isBlock; ores := pick isOre;
              other := pick (fun n => negb (isTool n) && negb (isWeapon n) &&
                                    negb (isArmor n) && negb (isFood n) &&
                                    negb (isBlock n) && negb (isOre n)) |} |}
  end.

(** [slice(-limit)] of the change history, [limit] defaulting to 10. *)
Definition getRecentChanges (limit : option Z) (tr : t) : list InventoryChange :=
  slice (changeHistory tr) (- match limit with Some n => n | None => 10 end).

Definition getItemHistory (itemName : string) (tr : t) : list InventoryChange :=
  filter (fun change => String.eqb (item change) itemName) (changeHistory tr).

Definition getItemCount (itemName : string) (inv : Inventory) : Z :=
  match inv with
  | None => 0
  | Some stacks =>
      fold_left (fun sum it => sum + item_count it)
                (filter (fun it => String.eqb (item_name it) itemName) stacks) 0
  end.

(** [hasItem(itemName, minCount = 1)]. *)
Definition hasItem (itemName : string) (minCount : option Z) (inv : Inventory) : bool :=
  getItemCount itemName inv >=? match minCount with Some n => n | None => 1 end.

Definition findItem (itemName : string) (inv : Inventory) : option Item :=
  match inv with
  | None => None
  | Some stacks => find (fun it => String.eqb (item_name it) itemName) stacks
  end.

Record SpaceInfo := mkSpace {
  used : Z;
  free : Z;
  percentage : option Z
}.

(** [percentage: Math.round((usedSlots / totalSlots) * 100)]. *)
Definition getSpaceInfo (inv : Inventory) : SpaceInfo :=
  let summary := getInventorySummary inv in
  {| used := usedSlots summary;
     free := freeSlots summary;
     percentage :=
       TaskDecomposer.Math_round
         (PrimFloat.mul
            (PrimFloat.div
               (PrimFloat.of_uint63 (Uint63.of_Z (usedSlots summary)))
               (PrimFloat.of_uint63 (Uint63.of_Z (totalSlots summary))))
            (PrimFloat.of_uint63 (Uint63.of_Z 100))) |}.

Definition isFull (inv : Inventory) : bool := free (getSpaceInfo inv) =? 0.

(** [space.percentage >= threshold * 100], on doubles; the threshold
    defaults to 0.8. *)
Definition isNearlyFull (threshold : option float) (inv : Inventory) : bool :=
  let th := match threshold with
            | Some x => x
            | None => 0x1.999999999999ap-1%float   (* the double 0.8 *)
            end in
  match percentage (getSpaceInfo inv) with
  | Some p =>
      PrimFloat.leb (PrimFloat.mul th (PrimFloat.of_uint63 (Uint63.of_Z 100)))
                    (PrimFloat.of_uint63 (Uint63.of_Z p))
  | None => false
  end.

Definition clearHistory (tr : t) : t :=
  {| previousInventory := previousInventory tr; changeHistory := [] |}.

(** The sum of the counts of the stacks of one item. *)
Fixpoint stacked (itemName : string) (stacks : list Item) : Z :=
  match stacks with
  | [] => 0
  | it :: rest =>
      (if String.eqb (item_name it) itemName then item_count it else 0) +
      stacked itemName rest
  end.

(** A [Map] holds each key once. *)
Definition valid_map (m : CountMap) : Prop := NoDup (map fst m).

(** An inventory of [n] stacks of one cobblestone. *)
Definition stacks_of (n : nat) : Inventory :=
  Some (map (fun k => {| item_name := "cobblestone"; item_count := 1;
                         item_slot := Z.of_nat k |}) (seq 0 n)).

End InventoryQueries.

(** ** [WorldObserver]: the kinds of danger *)

Module WorldObserverDangers.
Import JS WorldObserver.

Definition DangerType_eqb (a b : DangerType) : bool :=
  match a, b with
  | lava, lava | cliff, cliff | hostile_mob, hostile_mob
  | low_health, low_health | low_food, low_food => true
  | _, _ => false
  end.

(** The order in which [detectDangers] runs its checks. *)
Definition CHECKS : list DangerType :=
  [low_health; low_food; lava; hostile_mob; cliff].

Definition reported (kind : DangerType) (ds : list DangerObservation) : bool :=
  existsb (fun d => DangerType_eqb (danger_type d) kind) ds.

(** A zombie two blocks away, as [observeEntities()] reports it. *)
Definition zombie : EntityObservation :=
  {| eo_type := "mob"; eo_name := "zombie";
     eo_position := {| vx := 2; vy := 64; vz := 0 |};
     eo_distance := 2; isHostile := true; eo_health := None |}.

(** The ledge of [sample_bot] with the zombie in sight. *)
Definition bot_with_zombie : Bot :=
  {| entity := entity sample_bot;
     bot_health := bot_health sample_bot;
     bot_food := bot_food sample_bot;
     blockAt := blockAt sample_bot;
     lavaWithin8 := [];
     scannedBlocks := [];
     scannedEntities := [zombie];
     bot_dimension := "overworld";
     bot_timeOfDay := 1000;
     bot_weather := "clear" |}.

End WorldObserverDangers.

(** ** The decision cycle of [AxiomMind], as far as it touches the state
    machine *)

Module AxiomMindStates.
Import JS StateMachine.

(** [new StateMachine(bot, logger)]: no partial configuration. *)
Definition cfg : StateConfig := config_of None None None.

(** The [if / else if] chain on [lastTool.name]. *)
Definition toolTransition (name : string) : list Call :=
  if InventoryQueries.includes name "mine"
  then [CallTransition MINING (Some "Mining blocks"%string)]
  else if InventoryQueries.includes name "craft"
  then [CallTransition CRAFTING (Some "Crafting items"%string)]
  else if InventoryQueries.includes name "goto"
  then [CallTransition NAVIGATING (Some "Navigating"%string)]
  else if InventoryQueries.includes name "eat"
  then [CallTransition EATING (Some "Eating food"%string)]
  else [].

(** The state-machine calls of the [try] block, in order; [lastTool] is
    the name of the last tool call when the response has any. *)
Definition tryCalls (lastTool : option string) : list Call :=
  CallTransition PLANNING (Some "Planning next action"%string) ::
  match lastTool with
  | Some name =>
      toolTransition name ++ [CallReturnToIdle (Some "Actions completed"%string)]
  | None => [CallReturnToIdle (Some "No actions needed"%string)]
  end.

(** One cycle: [thrownAfter = Some k] when something in the [try] block
    throws after [k] of its state-machine calls, [None] when the block
    completes; [clock k] is the time of the cycle's [k]-th call. *)
Record Cycle := mkCycle {
  lastTool : option string;
  thrownAfter : option nat;
  clock : nat -> Date
}.

Definition callsOf (c : Cycle) : list Call :=
  match thrownAfter c with
  | None => tryCalls (lastTool c)
  | Some k =>
      firstn k (tryCalls (lastTool c)) ++
      [CallTransitionToError "Decision cycle error"]
  end.

Definition timed (clk : nat -> Date) (calls : list Call) : list (Date * Call) :=
  combine (map clk (seq 0 (length calls))) calls.

Definition decisionCycle (sm : t) (c : Cycle) : t :=
  fold_left (step cfg) (timed (clock c) (callsOf c)) sm.

Definition run (cycles : list Cycle) : t :=
  fold_left decisionCycle cycles constructor.

(** No record of the history leads into the state. *)
Definition never_entered (s : BotState) (sm : t) : Prop :=
  Forall (fun tr => to tr <> s) (history sm).

(** The state the machine rests in after a cycle. *)
Definition restsIn (c : Cycle) : BotState :=
  match thrownAfter c with None => IDLE | Some _ => ERROR end.

End AxiomMindStates.

(* ================================================================== *)
(** * Part II. Properties *)
(* ================================================================== *)

Section StateMachineProperties.
Import JS StateMachine.

Lemma slice_neg_length {A : Type} (l : list A) (n : Z) :
  0 < n -> n <= Z.of_nat (length l) ->
  Z.of_nat (length (slice l (- n))) = n.
Proof.
  intros Hpos Hle. unfold slice.
  destruct (Z.ltb_spec (- n) 0); [|lia].
  rewrite length_skipn. lia.
Qed.

Lemma trim_bounded (h : list StateTransition) :
  Z.of_nat (length h) <= maxHistorySize + 1 ->
  Z.of_nat (length (if Z.of_nat (length h) >? maxHistorySize
                    then slice h (- maxHistorySize) else h)) <= maxHistorySize.
Proof.
  intros Hlen. unfold maxHistorySize in *.
  destruct (Z.gtb_spec (Z.of_nat (length h)) 100) as [Hgt|Hle]; [|lia].
  rewrite slice_neg_length; lia.
Qed.

Lemma transition_history_bounded cfg now dest why sm :
  Z.of_nat (length (history sm)) <= maxHistorySize ->
  Z.of_nat (length (history (snd (transition cfg now dest why sm)))) <= maxHistorySize.
Proof.
  intros Hlen. unfold transition.
  destruct (BotState_eqb (currentState sm) dest); [exact Hlen|].
  destruct (negb (canTransition cfg sm dest)); [exact Hlen|].
  destruct (call (onExit cfg) now (currentState sm)); [|exact Hlen].
  assert (Hpush : Z.of_nat (length (history sm ++
            [ {| from := currentState sm; to := dest;
                 timestamp := now; reason := why |} ])) <= maxHistorySize + 1).
  { rewrite length_app, Nat2Z.inj_add. simpl length. lia. }
  destruct (call (onEnter cfg) now dest); simpl; apply trim_bounded; exact Hpush.
Qed.

Lemma step_history_bounded cfg sm c :
  Z.of_nat (length (history sm)) <= maxHistorySize ->
  Z.of_nat (length (history (step cfg sm c))) <= maxHistorySize.
Proof.
  intros Hlen. destruct c as [now [dest why|why|why| |]]; simpl.
  - now apply transition_history_bounded.
  - now apply transition_history_bounded.
  - now apply transition_history_bounded.
  - unfold maxHistorySize; lia.
  - unfold maxHistorySize; lia.
Qed.

(** The first half of I2 holds in every reachable state, whatever the
    callbacks do: the history never holds more than 100 records. *)
Lemma history_bounded cfg calls :
  Z.of_nat (length (history (run cfg calls))) <= maxHistorySize.
Proof.
  unfold run.
  assert (H0 : Z.of_nat (length (history constructor)) <= maxHistorySize)
    by (unfold maxHistorySize; simpl; lia).
  revert H0. generalize constructor.
  induction calls as [|c calls IH]; intros sm Hsm; simpl.
  - exact Hsm.
  - apply IH. now apply step_history_bounded.
Qed.

Lemma BotState_eqb_refl s : BotState_eqb s s = true.
Proof. now destruct s. Qed.

Lemma BotState_eqb_eq a b : BotState_eqb a b = true -> a = b.
Proof. destruct a, b; simpl; intros H; try reflexivity; discriminate. Qed.

Lemma last_snoc_some {A : Type} (l : list A) (x : A) :
  last (map Some (l ++ [x])) None = Some x.
Proof. rewrite map_app. simpl. apply last_last. Qed.

Lemma slice_neg_last {A : Type} (l : list A) (x : A) (n : Z) :
  0 < n ->
  last (map Some (slice (l ++ [x]) (- n))) None = Some x.
Proof.
  intros Hn. unfold slice.
  destruct (Z.ltb_spec (- n) 0); [|lia].
  set (k := Z.to_nat _).
  assert (Hk : (k <= length l)%nat).
  { subst k. rewrite length_app. simpl. lia. }
  rewrite skipn_app.
  replace (k - length l)%nat with 0%nat by lia. simpl.
  apply last_snoc_some.
Qed.

(** The second half of I2 holds as long as [onEnter] does not throw. *)
Lemma last_to_is_current_step cfg sm c :
  (forall now s, call (onEnter cfg) now s = Returned) ->
  last_to_is_current sm = true ->
  last_to_is_current (step cfg sm c) = true.
Proof.
  intros Henter Hinv.
  assert (Htr : forall now dest why,
             last_to_is_current (snd (transition cfg now dest why sm)) = true).
  { intros now dest why. unfold transition.
    destruct (BotState_eqb (currentState sm) dest); [exact Hinv|].
    destruct (negb (canTransition cfg sm dest)); [exact Hinv|].
    destruct (call (onExit cfg) now (currentState sm)).
    - rewrite Henter. unfold last_to_is_current.
      cbn [snd history currentState].
      destruct (_ >? _).
      + rewrite slice_neg_last by (unfold maxHistorySize; lia).
        cbn [to]. apply BotState_eqb_refl.
      + rewrite last_snoc_some. cbn [to]. apply BotState_eqb_refl.
    - destruct sm; exact Hinv. }
  destruct c as [now [dest why|why|why| |]]; simpl; try apply Htr; reflexivity.
Qed.

Lemma last_to_is_current_run cfg calls :
  (forall now s, call (onEnter cfg) now s = Returned) ->
  last_to_is_current (run cfg calls) = true.
Proof.
  intros Henter. unfold run.
  assert (H0 : last_to_is_current constructor = true) by reflexivity.
  revert H0. generalize constructor.
  induction calls as [|c calls IH]; intros sm Hsm; simpl.
  - exact Hsm.
  - apply IH. now apply last_to_is_current_step.
Qed.

(** C2, as the code has it. From idle, with no callback installed,
    [transition(planning, "plan")] succeeds, [transition(mining)]
    succeeds, and [transition(eating)] succeeds too, because the table
    lists eating among the destinations of mining; the state becomes
    eating, [returnToIdle()] then succeeds, and four transitions have
    been recorded. *)
Theorem StateMachine_legal_chain (t1 t2 t3 t4 : Date) :
  let '(r1, r2, r3, r4) := chain t1 t2 t3 t4 in
  fst r1 = true /\ getCurrentState (snd r1) = PLANNING /\
  fst r2 = true /\ getCurrentState (snd r2) = MINING /\
  fst r3 = true /\ getCurrentState (snd r3) = EATING /\
  fst r4 = true /\ getCurrentState (snd r4) = IDLE /\
  length (getHistory None (snd r4)) = 4%nat.
Proof.
  cbv [chain]. cbv zeta. repeat split; reflexivity.
Qed.

(** C2 as the specification states it (eating refused from mining, the
    state still mining, three records) does not hold of the code. *)
Lemma StateMachine_legal_chain_as_stated_fails :
  ~ (let '(r1, r2, r3, r4) := chain 1 2 3 4 in
     fst r1 = true /\ getCurrentState (snd r1) = PLANNING /\
     fst r2 = true /\ getCurrentState (snd r2) = MINING /\
     fst r3 = false /\ getCurrentState (snd r3) = MINING /\
     fst r4 = true /\ getCurrentState (snd r4) = IDLE /\
     length (getHistory None (snd r4)) = 3%nat).
Proof.
  cbv [chain]. cbv zeta.
  intros (_ & _ & _ & _ & H & _). vm_compute in H. discriminate H.
Qed.

(** C3. The state machine at the input on which I2 fails: with an
    [onEnter] callback that throws, [transition(planning)] from idle
    returns false and restores [currentState] to idle, but the record
    idle -> planning stays in the history, so the most recent [to] is
    not the current state.  (The length bound still holds.) *)
Theorem StateMachine_revert_keeps_record (now : Date) (why : option string) :
  let cfg := config_of None (Some (fun _ _ => Threw)) None in
  let r := transition cfg now PLANNING why constructor in
  fst r = false /\
  getCurrentState (snd r) = IDLE /\
  getHistory None (snd r) =
    [ {| from := IDLE; to := PLANNING; timestamp := now; reason := why |} ] /\
  last_to_is_current (snd r) = false /\
  snd r = run cfg [(now, CallTransition PLANNING why)].
Proof.
  cbv zeta. repeat split; reflexivity.
Qed.

End StateMachineProperties.

Section PersistenceProperties.
Import JS DatabaseManager.

Lemma ids_increase_weaken lo lo' rows :
  lo' <= lo -> ids_increase lo rows -> ids_increase lo' rows.
Proof.
  destruct rows as [|r rest]; simpl; [tauto|].
  intros Hle [Hlt Hrest]. split; [lia|exact Hrest].
Qed.

Lemma ids_increase_above lo rows :
  ids_increase lo rows -> Forall (fun r => lo < id r) rows.
Proof.
  revert lo. induction rows as [|r rest IH]; intros lo H; simpl in *.
  - constructor.
  - destruct H as [Hlt Hrest]. constructor; [exact Hlt|].
    apply IH. apply ids_increase_weaken with (lo := id r); [lia|exact Hrest].
Qed.

Lemma insert_desc_smallest r rows :
  Forall (fun r' => id r < id r') rows ->
  insert_desc r rows = rows ++ [r].
Proof.
  induction 1 as [|r' rest Hlt _ IH]; simpl.
  - reflexivity.
  - destruct (Z.ltb_spec (id r') (id r)); [lia|]. now rewrite IH.
Qed.

(** On a table whose ids grow with insertion, newest-first is the
    reverse of insertion order. *)
Lemma order_by_id_desc_rev lo rows :
  ids_increase lo rows -> order_by_id_desc rows = rev rows.
Proof.
  revert lo. induction rows as [|r rest IH]; intros lo H; simpl in *.
  - reflexivity.
  - destruct H as [_ Hrest].
    rewrite (IH _ Hrest). apply insert_desc_smallest.
    apply Forall_rev. now apply ids_increase_above.
Qed.

Lemma ids_increase_snoc lo rows r :
  ids_increase lo rows ->
  Forall (fun r' => id r' < id r) rows -> lo < id r ->
  ids_increase lo (rows ++ [r]).
Proof.
  revert lo. induction rows as [|r' rest IH]; intros lo H Hall Hlo; simpl in *.
  - split; [exact Hlo|exact I].
  - destruct H as [Hlt Hrest]. inversion Hall as [|? ? Hr' Hall']; subst.
    split; [exact Hlt|]. apply IH; assumption.
Qed.

Lemma insertMessage_well_formed m db :
  well_formed db -> well_formed (snd (insertMessage m db)).
Proof.
  intros (Hpos & Hinc & Hmax). unfold insertMessage, well_formed; simpl.
  split; [lia|split].
  - apply ids_increase_snoc; simpl.
    + exact Hinc.
    + eapply Forall_impl; [|exact Hmax]. simpl. intros; lia.
    + lia.
  - apply Forall_app. split.
    + eapply Forall_impl; [|exact Hmax]. simpl. intros; lia.
    + constructor; [simpl; lia|constructor].
Qed.

Lemma insertMessage_stored m db :
  stored (snd (insertMessage m db)) = stored db ++ [m].
Proof.
  unfold stored, insertMessage; simpl. rewrite map_app. simpl.
  now destruct m.
Qed.

Lemma saveToDatabase_spec mm db :
  well_formed db ->
  well_formed (MemoryManager.saveToDatabase mm db) /\
  stored (MemoryManager.saveToDatabase mm db) =
    stored db ++ MemoryManager.getMessages mm.
Proof.
  unfold MemoryManager.saveToDatabase, MemoryManager.getMessages.
  generalize (MemoryManager.messages mm) as ms. intros ms. revert db.
  induction ms as [|m ms IH]; intros db Hwf; cbn [fold_left].
  - now rewrite app_nil_r.
  - destruct (IH _ (insertMessage_well_formed m db Hwf)) as [Hwf' Hst].
    split; [exact Hwf'|].
    rewrite Hst, insertMessage_stored, <- app_assoc. reflexivity.
Qed.

Lemma getRecentMessages_newest_first (n : nat) db :
  well_formed db ->
  getRecentMessages (Z.of_nat n) db = firstn n (rev (stored db)).
Proof.
  intros (_ & Hinc & _). unfold getRecentMessages, stored, LIMIT.
  destruct (Z.ltb_spec (Z.of_nat n) 0); [lia|].
  rewrite Nat2Z.id, (order_by_id_desc_rev _ _ Hinc).
  now rewrite <- map_rev, firstn_map.
Qed.

Lemma firstn_rev_lastn {A : Type} (n : nat) (l : list A) :
  firstn n (rev l) = rev (lastn (Nat.min n (length l)) l).
Proof.
  unfold lastn. rewrite firstn_rev. f_equal. f_equal. lia.
Qed.

(** C1, as the code has it. [loadFromDatabase] stores the rows as the
    port returns them, newest first: after [saveToDatabase(); clear();
    loadFromDatabase(n)] the message list is the [n] most recent rows of
    the table in newest-first order, and on a table that held no earlier
    row it is the last [min n k] of the [k] saved messages, reversed. *)
Theorem Memory_roundtrip_newest_first (n : nat) mm db :
  well_formed db ->
  let k := length (MemoryManager.getMessages mm) in
  let loaded :=
    MemoryManager.getMessages
      (fst (MemoryManager.save_clear_load (Z.of_nat n) mm db)) in
  loaded = firstn n (rev (stored db ++ MemoryManager.getMessages mm)) /\
  (stored db = [] ->
   loaded = rev (lastn (Nat.min n k) (MemoryManager.getMessages mm))).
Proof.
  intros Hwf k loaded.
  destruct (saveToDatabase_spec mm db Hwf) as [Hwf' Hst].
  assert (Hl : loaded = firstn n (rev (stored db ++ MemoryManager.getMessages mm))).
  { subst loaded. unfold MemoryManager.save_clear_load,
      MemoryManager.loadFromDatabase, MemoryManager.getMessages. simpl.
    rewrite (getRecentMessages_newest_first n _ Hwf'), Hst. reflexivity. }
  split; [exact Hl|].
  intros Hempty. rewrite Hl, Hempty. simpl. apply firstn_rev_lastn.
Qed.

Lemma Memory_roundtrip_newest_first_witness :
  well_formed empty /\
  MemoryManager.getMessages
    (fst (MemoryManager.save_clear_load 2 MemoryManager.two_messages empty)) =
  [ {| role := assistant; content := "second" |};
    {| role := user; content := "first" |} ].
Proof.
  assert (Hwf : well_formed empty).
  { unfold well_formed; simpl. split; [lia|split; [exact I|constructor]]. }
  split; [exact Hwf|].
  exact (proj1 (Memory_roundtrip_newest_first 2 MemoryManager.two_messages empty Hwf)).
Defined.

(** C1 as the specification states it (the last [min n k] saved messages
    in chronological order) does not hold of the code. *)
Lemma Memory_roundtrip_chronological_fails :
  MemoryManager.getMessages
    (fst (MemoryManager.save_clear_load 2 MemoryManager.two_messages empty)) <>
  lastn (Nat.min 2 (length (MemoryManager.getMessages MemoryManager.two_messages)))
        (MemoryManager.getMessages MemoryManager.two_messages).
Proof.
  vm_compute. intros H. discriminate H.
Qed.

End PersistenceProperties.

Section MemoryProperties.
Import JS MemoryManager.

Lemma lastn_all {A : Type} (j : nat) (l : list A) :
  (length l <= j)%nat -> lastn j l = l.
Proof.
  intros H. unfold lastn. now replace (length l - j)%nat with 0%nat by lia.
Qed.

Lemma lastn_length {A : Type} (j : nat) (l : list A) :
  length (lastn j l) = Nat.min j (length l).
Proof. unfold lastn. rewrite length_skipn. lia. Qed.

Lemma lastn_app {A : Type} (j : nat) (l1 l2 : list A) :
  (j <= length l2)%nat -> lastn j (l1 ++ l2) = lastn j l2.
Proof.
  intros H. unfold lastn. rewrite length_app, skipn_app.
  replace (length l1 + length l2 - j - length l1)%nat
    with (length l2 - j)%nat by lia.
  rewrite skipn_all2 by lia. reflexivity.
Qed.

Lemma lastn_lastn_app {A : Type} (j : nat) (l r : list A) :
  lastn j (lastn j l ++ r) = lastn j (l ++ r).
Proof.
  destruct (Nat.le_gt_cases (length l) j) as [Hle|Hgt].
  - now rewrite (lastn_all j l Hle).
  - unfold lastn at 1 3. rewrite !length_app, lastn_length.
    replace (Nat.min j (length l) + length r - j)%nat with (length r) by lia.
    replace (length l + length r - j)%nat
      with (length r + (length l - j))%nat by lia.
    rewrite <- skipn_skipn. f_equal.
    unfold lastn. rewrite skipn_app.
    replace (length l - j - length l)%nat with 0%nat by lia. reflexivity.
Qed.

(** What [trimToCount] leaves, for a positive count. *)
Lemma trimToCount_lastn (count : Z) mm :
  0 < count ->
  messages (trimToCount count mm) = lastn (Z.to_nat count) (messages mm).
Proof.
  intros Hpos. unfold trimToCount.
  destruct (Z.gtb_spec (Z.of_nat (length (messages mm))) count) as [Hgt|Hle].
  - unfold with_messages, slice, lastn; simpl.
    destruct (Z.ltb_spec (- count) 0); [|lia]. f_equal. lia.
  - rewrite lastn_all by lia. reflexivity.
Qed.

Lemma addMessage_over_budget m mm :
  overBudget mm = true -> 0 < keepMessages (config mm) ->
  messages (addMessage m mm) =
    lastn (Z.to_nat (keepMessages (config mm))) (messages mm ++ [m]).
Proof.
  intros Hover Hkeep. unfold addMessage, autoTrim.
  change (overBudget (with_messages (messages mm ++ [m]) mm)) with (overBudget mm).
  rewrite Hover. now rewrite trimToCount_lastn.
Qed.

Lemma addMessage_frame m mm :
  config (addMessage m mm) = config mm /\
  tokenUsage (addMessage m mm) = tokenUsage mm /\
  systemMessage (addMessage m mm) = systemMessage mm.
Proof.
  unfold addMessage, autoTrim, trimToCount.
  destruct (overBudget _); [destruct (_ >? _)|]; simpl; auto.
Qed.

Lemma addMessage_overBudget m mm :
  overBudget (addMessage m mm) = overBudget mm.
Proof.
  unfold overBudget, getTotalTokens.
  destruct (addMessage_frame m mm) as (-> & -> & _). reflexivity.
Qed.

Lemma add_all_over_budget (ms : list Message) m mm :
  overBudget mm = true -> 0 < keepMessages (config mm) ->
  messages (fold_left (fun acc x => addMessage x acc) (m :: ms) mm) =
    lastn (Z.to_nat (keepMessages (config mm))) (messages mm ++ m :: ms).
Proof.
  revert m mm. induction ms as [|m' ms IH]; intros m mm Hover Hkeep.
  - simpl. now apply addMessage_over_budget.
  - change (fold_left _ (m :: m' :: ms) mm)
      with (fold_left (fun acc x => addMessage x acc) (m' :: ms) (addMessage m mm)).
    destruct (addMessage_frame m mm) as (Hcfg & _ & _).
    rewrite IH.
    + rewrite Hcfg, addMessage_over_budget by assumption.
      rewrite lastn_lastn_app, <- app_assoc. reflexivity.
    + now rewrite addMessage_overBudget.
    + now rewrite Hcfg.
Qed.

Lemma append_users_fold m n mm :
  append_users m n mm =
  fold_left (fun acc x => addMessage x acc)
            (map (fun i => {| role := user; content := m i |}) (seq 1 n)) mm.
Proof.
  unfold append_users. generalize (seq 1 n) as l. intros l. revert mm.
  induction l as [|i l IH]; intros mm; simpl; [reflexivity|apply IH].
Qed.

(** The general bound (I9): one [addMessage] over budget leaves at most
    [max keepMessages (count before + 1)] messages. *)
Lemma addMessage_bound msg mm :
  overBudget mm = true ->
  Z.of_nat (length (getMessages (addMessage msg mm))) <=
    Z.max (keepMessages (config mm)) (Z.of_nat (length (getMessages mm)) + 1).
Proof.
  intros Hover. unfold getMessages, addMessage, autoTrim.
  change (overBudget (with_messages (messages mm ++ [msg]) mm)) with (overBudget mm).
  rewrite Hover. unfold trimToCount. cbn [with_messages messages config].
  assert (Hlen : Z.of_nat (length (messages mm ++ [msg])) =
                 Z.of_nat (length (messages mm)) + 1).
  { rewrite length_app, Nat2Z.inj_add. reflexivity. }
  destruct (Z.gtb_spec (Z.of_nat (length (messages mm ++ [msg])))
                       (keepMessages (config mm))) as [Hgt|Hle];
    unfold with_messages; cbn [messages]; [|lia].
  unfold slice. rewrite length_skipn.
  destruct (Z.ltb_spec (- keepMessages (config mm)) 0); lia.
Qed.

(** C6. With [maxTokens = 100] and [keepMessages = 5], after the usage
    is updated to 200 prompt tokens and fifty user messages
    [m 1 .. m 50] are appended, [getMessages()] holds five messages, the
    last of content [m 50] (they are [m 46 .. m 50]); and whenever the
    recorded prompt usage exceeds [maxTokens], the count after an
    [addMessage] is at most [max keepMessages (count before + 1)]. *)
Theorem Memory_token_budget_trim
    (m : nat -> string) (before : list Message) (sys : option Message)
    (old : TokenUsage) (completion total : Z) (msg : Message) (mm : t) :
  let start :=
    {| config := {| maxTokens := 100; keepMessages := 5 |};
       messages := before; systemMessage := sys; tokenUsage := old |} in
  let final :=
    append_users m 50
      (updateTokenUsage
         {| prompt_tokens := 200; completion_tokens := completion;
            total_tokens := total |} start) in
  (length (getMessages final) = 5%nat /\
   option_map content (last (map Some (getMessages final)) None) = Some (m 50%nat) /\
   map content (getMessages final) = map m (seq 46 5)) /\
  (getTotalTokens mm > maxTokens (config mm) ->
   Z.of_nat (length (getMessages (addMessage msg mm))) <=
     Z.max (keepMessages (config mm)) (Z.of_nat (length (getMessages mm)) + 1)).
Proof.
  intros start final. split.
  - assert (Hfinal : getMessages final =
              map (fun i => {| role := user; content := m i |}) (seq 46 5)).
    { subst final. rewrite append_users_fold. unfold getMessages.
      change (seq 1 50) with (1%nat :: seq 2 49). cbn [map].
      rewrite add_all_over_budget by reflexivity.
      cbn [config updateTokenUsage start keepMessages messages].
      rewrite lastn_app by (cbn [length]; rewrite length_map, length_seq;
                            change (Z.to_nat 5) with 5%nat; lia).
      reflexivity. }
    rewrite Hfinal. repeat split.
  - intros Hover. apply addMessage_bound.
    unfold overBudget. apply Z.gtb_gt. lia.
Qed.

Lemma Memory_token_budget_trim_witness :
  let mm :=
    updateTokenUsage
      {| prompt_tokens := 200; completion_tokens := 0; total_tokens := 200 |}
      (constructor {| maxTokens := 100; keepMessages := 5 |}) in
  let msg := {| role := user; content := "hello" |} in
  getTotalTokens mm > maxTokens (config mm) /\
  Z.of_nat (length (getMessages (addMessage msg mm))) <=
    Z.max (keepMessages (config mm)) (Z.of_nat (length (getMessages mm)) + 1).
Proof.
  intros mm msg.
  assert (Hover : getTotalTokens mm > maxTokens (config mm)) by reflexivity.
  split; [exact Hover|].
  exact (proj2 (Memory_token_budget_trim (fun _ => EmptyString) [] None
                  zero_usage 0 0 msg mm) Hover).
Defined.

End MemoryProperties.

Section TaskProperties.
Import JS TaskDecomposer.

Lemma insert_by_priority_In x y l :
  In y (insert_by_priority x l) <-> y = x \/ In y l.
Proof.
  induction l as [|z l IH]; simpl.
  - intuition auto.
  - destruct (priority x <=? priority z); simpl; [intuition auto|].
    rewrite IH. intuition auto.
Qed.

Lemma sort_by_priority_In y l :
  In y (sort_by_priority l) <-> In y l.
Proof.
  induction l as [|x l IH]; simpl; [tauto|].
  rewrite insert_by_priority_In, IH. intuition auto.
Qed.

Lemma find_unique {A : Type} (p : A -> bool) (l : list A) (x : A) :
  In x l -> p x = true ->
  (forall y, In y l -> p y = true -> y = x) ->
  find p l = Some x.
Proof.
  induction l as [|z l IH]; simpl; intros Hin Hp Huniq; [contradiction|].
  destruct (p z) eqn:Hz.
  - f_equal. apply Huniq; auto.
  - destruct Hin as [->|Hin]; [congruence|]. apply IH; auto.
Qed.

(** When exactly one stored task can run, it is the next one, whatever
    the priorities. *)
Lemma getNextExecutableTask_unique td task :
  In task (Map_values (tasks td)) ->
  canExecuteTask td task = true ->
  (forall other, In other (Map_values (tasks td)) ->
                 canExecuteTask td other = true -> other = task) ->
  getNextExecutableTask td = Some task.
Proof.
  intros Hin Hcan Huniq. unfold getNextExecutableTask, getPendingTasks.
  apply find_unique; [|exact Hcan|].
  - apply sort_by_priority_In, filter_In. split; [exact Hin|].
    unfold canExecuteTask in Hcan.
    destruct (Status_eqb (status task) pending); [reflexivity|discriminate].
  - intros other Hother. apply sort_by_priority_In, filter_In in Hother.
    apply Huniq, Hother.
Qed.


Ltac keys E12 E13 E21 E23 E31 E32 :=
  repeat (rewrite ?String.eqb_refl, ?E12, ?E13, ?E21, ?E23, ?E31, ?E32;
          cbn [Map_set Map_get tasks]).

Ltac next_is E12 E13 E21 E23 E31 E32 :=
  match goal with
  | |- option_map id (getNextExecutableTask ?s) = Some ?T =>
      match s with
      | context [ (T, ?task) ] =>
          rewrite (getNextExecutableTask_unique s task);
          [ reflexivity
          | cbn; tauto
          | unfold canExecuteTask;
            cbn [status set_status dependencies Status_eqb negb forallb tasks];
            keys E12 E13 E21 E23 E31 E32; reflexivity
          | intros other Hother; cbn in Hother;
            destruct Hother as [<-|[<-|[<-|[]]]];
            unfold canExecuteTask;
            cbn [status set_status dependencies Status_eqb negb forallb tasks];
            keys E12 E13 E21 E23 E31 E32;
            cbn [status set_status Status_eqb andb];
            intros Hcan; first [reflexivity | discriminate Hcan] ]
      end
  end.

Ltac progress_is :=
  unfold getProgress, getTaskStatistics;
  cbn [truthy_opt Map_values tasks map snd filter status set_status Status_eqb
       length total n_completed Nat.eqb];
  vm_compute; reflexivity.

(** C5, as the code has it. For a goal decomposed into three pending
    tasks T1 (no dependency), T2 (depending on T1) and T3 (depending on
    T2), whatever their priorities: [getNextExecutableTask()] returns
    T1; after [completeTask(T1)] it returns T2; after [completeTask(T2)]
    it returns T3 and [getProgress()] is 67, since [Math.round] takes
    66.67 to the nearest integer; after [completeTask(T3)] it is 100. *)
Theorem TaskDecomposer_chain
    (g : Goal) (i1 i2 i3 : Z) (d1 d2 d3 : TaskData) (now n1 n2 n3 : Date) :
  task_id g i1 <> task_id g i2 ->
  task_id g i1 <> task_id g i3 ->
  task_id g i2 <> task_id g i3 ->
  let '(s0, s1, s2, s3) := chain_states g i1 i2 i3 d1 d2 d3 now n1 n2 n3 in
  option_map id (getNextExecutableTask s0) = Some (task_id g i1) /\
  option_map id (getNextExecutableTask s1) = Some (task_id g i2) /\
  option_map id (getNextExecutableTask s2) = Some (task_id g i3) /\
  getProgress None s2 = Some 67 /\
  getProgress None s3 = Some 100.
Proof.
  intros H12 H13 H23.
  assert (E12 : String.eqb (task_id g i1) (task_id g i2) = false)
    by now apply String.eqb_neq.
  assert (E13 : String.eqb (task_id g i1) (task_id g i3) = false)
    by now apply String.eqb_neq.
  assert (E23 : String.eqb (task_id g i2) (task_id g i3) = false)
    by now apply String.eqb_neq.
  assert (E21 : String.eqb (task_id g i2) (task_id g i1) = false)
    by (apply String.eqb_neq; congruence).
  assert (E31 : String.eqb (task_id g i3) (task_id g i1) = false)
    by (apply String.eqb_neq; congruence).
  assert (E32 : String.eqb (task_id g i3) (task_id g i2) = false)
    by (apply String.eqb_neq; congruence).
  clear H12 H13 H23.
  unfold chain_states, decomposeGoal, chain_data, completeTask, updateTaskStatus,
    task_of, numbered.
  cbn [snd map fold_left tasks constructor id td_id td_dependencies td_description
       td_action td_parameters td_priority td_estimatedDuration].
  generalize dependent (task_id g i1). intros T1.
  generalize dependent (task_id g i2). intros T2.
  generalize dependent (task_id g i3). intros T3. intros.
  keys E12 E13 E21 E23 E31 E32.
  cbn [truthy_opt Status_eqb error completedAt].
  split; [|split; [|split; [|split]]].
  - next_is E12 E13 E21 E23 E31 E32.
  - next_is E12 E13 E21 E23 E31 E32.
  - next_is E12 E13 E21 E23 E31 E32.
  - progress_is.
  - progress_is.
Qed.

Lemma TaskDecomposer_chain_witness :
  let '(s0, s1, s2, s3) := sample_states in
  option_map id (getNextExecutableTask s0) = Some "goal_1_task_1"%string /\
  option_map id (getNextExecutableTask s1) = Some "goal_1_task_2"%string /\
  option_map id (getNextExecutableTask s2) = Some "goal_1_task_3"%string /\
  getProgress None s2 = Some 67 /\
  getProgress None s3 = Some 100.
Proof.
  apply (TaskDecomposer_chain sample_goal 1 2 3 sample_data sample_data
           sample_data 0 10 20 30);
    vm_compute; intros H; discriminate H.
Defined.

(** C5 as the specification states it (progress 66 after two of the
    three tasks) does not hold of the code. *)
Lemma TaskDecomposer_chain_progress_66_fails :
  ~ (let '(s0, s1, s2, s3) := sample_states in
     option_map id (getNextExecutableTask s0) = Some "goal_1_task_1"%string /\
     option_map id (getNextExecutableTask s1) = Some "goal_1_task_2"%string /\
     option_map id (getNextExecutableTask s2) = Some "goal_1_task_3"%string /\
     getProgress None s2 = Some 66 /\
     getProgress None s3 = Some 100).
Proof.
  vm_compute. intros (_ & _ & _ & H & _). discriminate H.
Qed.

(** ** [completedAt] and the status *)

Lemma Map_get_In m k task :
  Map_get m k = Some task -> exists k', In (k', task) m.
Proof.
  induction m as [|[k' v] m IH]; simpl; [discriminate|].
  destruct (String.eqb k' k).
  - intros [= ->]. exists k'. now left.
  - intros H. destruct (IH H) as [k'' Hin]. exists k''. now right.
Qed.

Lemma Map_set_In m k v k' v' :
  In (k', v') (Map_set m k v) -> (k', v') = (k, v) \/ In (k', v') m.
Proof.
  induction m as [|[k0 v0] m IH]; simpl.
  - intros [H|[]]. now left.
  - destruct (String.eqb k0 k); simpl.
    + intros [H|H]; [now left|now right; right].
    + intros [H|H]; [now right; left|].
      destruct (IH H) as [H'|H']; [now left|now right; right].
Qed.

Lemma updateTaskStatus_stamped now k st err td :
  completed_are_stamped td ->
  completed_are_stamped (updateTaskStatus now k st err td).
Proof.
  intros Hinv. unfold updateTaskStatus.
  destruct (Map_get (tasks td) k) as [task|] eqn:Hget; [|exact Hinv].
  intros k' task' Hin Hst. cbn [tasks] in Hin.
  apply Map_set_In in Hin. destruct Hin as [[= -> ->]|Hin].
  - cbn [status set_status completedAt] in *. subst st. cbn. discriminate.
  - now apply (Hinv k' task').
Qed.

Lemma startTask_stamped k td :
  completed_are_stamped td -> completed_are_stamped (snd (startTask k td)).
Proof.
  intros Hinv. unfold startTask.
  destruct (Map_get (tasks td) k) as [task|] eqn:Hget; [|exact Hinv].
  destruct (negb (canExecuteTask td task)); [exact Hinv|].
  intros k' task' Hin Hst. cbn [snd tasks] in Hin.
  apply Map_set_In in Hin. destruct Hin as [[= -> ->]|Hin].
  - cbn in Hst. discriminate.
  - now apply (Hinv k' task').
Qed.

(** The half of I6 that the code keeps: after a goal is decomposed and
    any calls are made, a completed task has its [completedAt]. *)
Lemma completed_implies_completedAt calls td :
  completed_are_stamped td -> completed_are_stamped (run calls td).
Proof.
  unfold run. revert td.
  induction calls as [|[now c] calls IH]; intros td Hinv; simpl; [exact Hinv|].
  apply IH. destruct c; simpl.
  - now apply updateTaskStatus_stamped.
  - now apply startTask_stamped.
  - now apply updateTaskStatus_stamped.
  - now apply updateTaskStatus_stamped.
Qed.

(** C4. The decomposer at the input on which I6 fails: a task that is
    completed at [n1] and then marked failed at [n2] has status failed
    and still carries [completedAt = n1]; [updateTaskStatus] writes the
    field for completed and never clears it. *)
Theorem TaskDecomposer_failed_keeps_completedAt (n1 n2 : Date) (err : string) :
  let '(s0, _, _, _) := sample_states in
  let k := "goal_1_task_1"%string in
  let td := run [ (n1, CallCompleteTask k); (n2, CallFailTask k err) ] s0 in
  option_map status (getTask k td) = Some failed /\
  option_map completedAt (getTask k td) = Some (Some n1) /\
  option_map completedAt_iff_completed (getTask k td) = Some false.
Proof.
  cbv [sample_states chain_states]. repeat split; reflexivity.
Qed.

End TaskProperties.

Section WorldObserverProperties.
Import JS WorldObserver.

Example sample_dangers :
  detectDangers sample_bot None =
  [ {| danger_type := low_health; severity := critical;
       description := CriticalHealth 4; danger_position := None |};
    {| danger_type := low_food; severity := medium;
       description := LowFood 8; danger_position := None |};
    {| danger_type := cliff; severity := medium;
       description := DangerousDrop 5;
       danger_position := Some (offset {| vx := 0; vy := 64; vz := 0 |} (-3) 0 (-3)) |} ].
Proof. vm_compute. reflexivity. Qed.


Lemma depths_range y : In y depths -> -9 <= y <= 0.
Proof. unfold depths. simpl. intuition lia. Qed.

Lemma scanDown_range bot checkPos ys :
  (forall y, In y ys -> -9 <= y <= 0) ->
  0 <= scanDown bot checkPos ys <= 9.
Proof.
  induction ys as [|y ys IH]; simpl; intros Hys; [lia|].
  destruct (isSolid _).
  - specialize (Hys y (or_introl eq_refl)). lia.
  - apply IH. intros y' Hy'. apply Hys. now right.
Qed.

Lemma dropDistance_range bot checkPos : 0 <= dropDistance bot checkPos <= 9.
Proof. apply scanDown_range, depths_range. Qed.

Lemma scanDown_no_solid bot checkPos ys :
  (forall y, In y ys -> isSolid (blockAt bot (offset checkPos 0 y 0)) = false) ->
  scanDown bot checkPos ys = 0.
Proof.
  induction ys as [|y ys IH]; simpl; intros Hys; [reflexivity|].
  rewrite (Hys y (or_introl eq_refl)). apply IH.
  intros y' Hy'. apply Hys. now right.
Qed.

Lemma cliffAt_medium bot checkPos d :
  cliffAt bot checkPos = Some d -> is_medium_cliff d.
Proof.
  unfold cliffAt. pose proof (dropDistance_range bot checkPos) as Hr.
  destruct (Z.gtb_spec (dropDistance bot checkPos) 4) as [Hgt|]; [|discriminate].
  intros [= <-]. unfold is_medium_cliff; simpl.
  destruct (Z.gtb_spec (dropDistance bot checkPos) 10); [lia|].
  repeat split. exists (dropDistance bot checkPos). split; [reflexivity|lia].
Qed.

Lemma scanColumns_medium bot botPos cols d :
  scanColumns bot botPos cols = Some d -> is_medium_cliff d.
Proof.
  induction cols as [|[x z] cols IH]; simpl; [discriminate|].
  destruct ((x =? 0) && (z =? 0)); [exact IH|].
  destruct (cliffAt bot (offset botPos x 0 z)) as [d'|] eqn:Hc; [|exact IH].
  intros [= <-]. now apply cliffAt_medium in Hc.
Qed.

Lemma detectCliff_medium bot d :
  detectCliff bot = Some d -> is_medium_cliff d.
Proof.
  unfold detectCliff. destruct (entity bot); [|discriminate].
  apply scanColumns_medium.
Qed.

Lemma healthDanger_In h d :
  In d (healthDanger h) ->
  danger_type d = low_health /\
  (severity d = critical -> (h <= 5)%Q) /\
  (severity d = high -> (h <= 10)%Q).
Proof.
  unfold healthDanger, Qleb.
  destruct (Qle_bool h 5) eqn:H5; [|destruct (Qle_bool h 10) eqn:H10];
    simpl; intros Hin; try contradiction; destruct Hin as [<-|[]]; simpl;
    repeat split; intros; try discriminate; now apply Qle_bool_iff.
Qed.

Lemma foodDanger_In f d :
  In d (foodDanger f) ->
  danger_type d = low_food /\
  severity d <> critical /\
  (severity d = high -> (f <= 5)%Q).
Proof.
  unfold foodDanger, Qleb.
  destruct (Qle_bool f 5) eqn:H5; [|destruct (Qle_bool f 10) eqn:H10];
    simpl; intros Hin; try contradiction; destruct Hin as [<-|[]]; simpl;
    repeat split; intros; try discriminate; now apply Qle_bool_iff.
Qed.

Lemma lavaDanger_In bot d : In d (lavaDanger bot) -> danger_type d = lava.
Proof.
  unfold lavaDanger. destruct (lavaWithin8 bot); simpl; [contradiction|].
  now intros [<-|[]].
Qed.

Lemma mobDanger_In last d : In d (mobDanger last) -> danger_type d = hostile_mob.
Proof.
  unfold mobDanger.
  generalize (match last with
              | Some snap => filter isHostile (nearbyEntities snap)
              | None => []
              end) as hostileMobs.
  intros [|nearest rest]; simpl; [contradiction|]. now intros [<-|[]].
Qed.

(** Where a danger of [detectDangers] comes from. *)
Lemma detectDangers_In bot last d :
  In d (detectDangers bot last) ->
  In d (healthDanger (or_20 (bot_health bot))) \/
  In d (foodDanger (or_20 (bot_food bot))) \/
  In d (lavaDanger bot) \/
  In d (mobDanger last) \/
  detectCliff bot = Some d.
Proof.
  unfold detectDangers. destruct (entity bot).
  - rewrite !in_app_iff.
    destruct (detectCliff bot) as [c|]; simpl; intuition (subst; auto).
  - rewrite in_app_iff. tauto.
Qed.

(** C10. The downward scan visits the ten cells [y = 0 .. -9] of a
    column, so every cliff danger has a drop between 5 and 9 and
    severity medium, both from [detectCliff] and in the list
    [detectDangers] returns; severity high is never produced for a
    cliff; and a column with no solid block among those ten cells has
    drop 0 and yields no cliff danger. *)
Theorem WorldObserver_cliff_is_medium (bot : Bot) (last : option WorldSnapshot) :
  (length depths = 10%nat /\ forall y, In y depths -> -9 <= y <= 0) /\
  (forall d, detectCliff bot = Some d -> is_medium_cliff d) /\
  (forall d, In d (detectDangers bot last) -> danger_type d = cliff ->
             is_medium_cliff d /\ severity d <> high) /\
  (forall checkPos,
     (forall y, In y depths ->
                isSolid (blockAt bot (offset checkPos 0 y 0)) = false) ->
     dropDistance bot checkPos = 0 /\ cliffAt bot checkPos = None).
Proof.
  split; [split; [reflexivity|apply depths_range]|].
  split; [apply detectCliff_medium|]. split.
  - intros d Hin Hty.
    assert (Hm : is_medium_cliff d).
    { apply detectDangers_In in Hin.
      destruct Hin as [H|[H|[H|[H|H]]]].
      - apply healthDanger_In in H. destruct H as [H _]. congruence.
      - apply foodDanger_In in H. destruct H as [H _]. congruence.
      - apply lavaDanger_In in H. congruence.
      - apply mobDanger_In in H. congruence.
      - exact (detectCliff_medium bot d H). }
    split; [exact Hm|]. destruct Hm as (_ & -> & _). discriminate.
  - intros checkPos Hair.
    assert (H0 : dropDistance bot checkPos = 0) by now apply scanDown_no_solid.
    split; [exact H0|]. unfold cliffAt. rewrite H0. reflexivity.
Qed.

Lemma WorldObserver_cliff_is_medium_witness :
  let d := {| danger_type := cliff; severity := medium;
              description := DangerousDrop 5;
              danger_position :=
                Some (offset {| vx := 0; vy := 64; vz := 0 |} (-3) 0 (-3)) |} in
  detectCliff sample_bot = Some d /\ is_medium_cliff d.
Proof.
  intros d.
  assert (H : detectCliff sample_bot = Some d) by (vm_compute; reflexivity).
  split; [exact H|].
  exact (proj1 (proj2 (WorldObserver_cliff_is_medium sample_bot None)) d H).
Defined.

(** C7. In every snapshot [observe()] produces, a low_health danger of
    severity critical means the recorded health is at most 5, one of
    severity high means it is at most 10, and a low_food danger of
    severity critical means the recorded food is at most 5, one of
    severity high that it is at most 10. *)
Theorem WorldObserver_vitals_thresholds
    (now : Date) (bot : Bot) (last : option WorldSnapshot)
    (snap : WorldSnapshot) (d : DangerObservation) :
  observe now bot last = Some snap ->
  In d (dangers snap) ->
  (danger_type d = low_health -> severity d = critical -> (health snap <= 5)%Q) /\
  (danger_type d = low_health -> severity d = high -> (health snap <= 10)%Q) /\
  (danger_type d = low_food -> severity d = critical -> (food snap <= 5)%Q) /\
  (danger_type d = low_food -> severity d = high -> (food snap <= 10)%Q).
Proof.
  unfold observe. destruct (entity bot) as [pos|] eqn:Hent; [|discriminate].
  intros [= <-]. cbn [dangers health food]. intros Hin.
  apply detectDangers_In in Hin.
  destruct Hin as [H|[H|[H|[H|H]]]].
  - apply healthDanger_In in H. destruct H as (Hty & Hc & Hh).
    repeat split; intros; auto; congruence.
  - apply foodDanger_In in H. destruct H as (Hty & Hc & Hh).
    repeat split; intros; try congruence.
    apply Qle_trans with (y := 5%Q); [auto|]. unfold Qle; simpl; lia.
  - apply lavaDanger_In in H. repeat split; intros; congruence.
  - apply mobDanger_In in H. repeat split; intros; congruence.
  - apply detectCliff_medium in H. destruct H as (Hty & _).
    repeat split; intros; congruence.
Qed.

Lemma WorldObserver_vitals_thresholds_witness :
  let d := {| danger_type := low_health; severity := critical;
              description := CriticalHealth 4; danger_position := None |} in
  exists snap,
    observe 0 sample_bot None = Some snap /\ In d (dangers snap) /\
    (health snap <= 5)%Q.
Proof.
  intros d.
  destruct (observe 0 sample_bot None) as [snap|] eqn:Hobs;
    [|vm_compute in Hobs; discriminate Hobs].
  exists snap.
  assert (Hin : In d (dangers snap)).
  { vm_compute in Hobs. injection Hobs as <-. left. reflexivity. }
  split; [reflexivity|]. split; [exact Hin|].
  exact (proj1 (WorldObserver_vitals_thresholds 0 sample_bot None snap d Hobs Hin)
               eq_refl eq_refl).
Defined.

End WorldObserverProperties.

Section InventoryTrackerProperties.
Import JS InventoryTracker.

Example sample_history :
  changeHistory (run sample_inventory sample_events) =
  [ {| timestamp := 10; change_type := added; item := "dirt";
       countBefore := 0; countAfter := 8; delta := 8 |};
    {| timestamp := 20; change_type := removed; item := "oak_log";
       countBefore := 3; countAfter := 2; delta := -1 |};
    {| timestamp := 20; change_type := removed; item := "dirt";
       countBefore := 8; countAfter := 0; delta := -8 |} ].
Proof. vm_compute. reflexivity. Qed.


Lemma Map_set_positive m k v :
  all_positive m -> 0 < v -> all_positive (Map_set m k v).
Proof.
  unfold all_positive. intros Hm Hv.
  induction Hm as [|[k' v'] rest Hk Hrest IH]; simpl.
  - constructor; [exact Hv|constructor].
  - destruct (String.eqb k' k); constructor; simpl; auto.
Qed.

Lemma Map_get_nonneg m k : all_positive m -> 0 <= or_0 (Map_get m k).
Proof.
  unfold all_positive. induction 1 as [|[k' v'] rest Hk _ IH]; simpl; [lia|].
  destruct (String.eqb k' k); simpl in *; lia.
Qed.

Lemma getInventoryMap_positive inv :
  positive_stacks inv -> all_positive (getInventoryMap inv).
Proof.
  destruct inv as [items|]; simpl; [|constructor].
  intros Hitems.
  assert (Hacc : all_positive []) by constructor.
  revert Hacc. generalize (@nil (string * Z)) as acc.
  induction Hitems as [|it items Hit _ IH]; intros acc Hacc; simpl.
  - exact Hacc.
  - apply IH. apply Map_set_positive; [exact Hacc|].
    pose proof (Map_get_nonneg acc (item_name it) Hacc). lia.
Qed.

Lemma Forall_flat_map {A B : Type} (P : B -> Prop) (f : A -> list B) (l : list A) :
  (forall a, In a l -> Forall P (f a)) -> Forall P (flat_map f l).
Proof.
  induction l as [|a l IH]; simpl; intros H; [constructor|].
  apply Forall_app. split; [apply H; now left|].
  apply IH. intros a' Ha'. apply H. now right.
Qed.

(** The first loop records a change only for a count that differs, so
    its delta is never zero and fixes the kind. *)
Lemma detectChanges_sound now previous current :
  Forall (fun c => never_changed c /\ signed c)
         (detectChanges now previous current).
Proof.
  unfold detectChanges. apply Forall_flat_map. intros [itemName currentCount] _.
  destruct (Z.eqb_spec currentCount (or_0 (Map_get previous itemName))) as [|Hne];
    simpl; [constructor|].
  constructor; [|constructor].
  unfold never_changed, signed; simpl.
  destruct (Z.gtb_spec (currentCount - or_0 (Map_get previous itemName)) 0);
    [|destruct (Z.ltb_spec (currentCount - or_0 (Map_get previous itemName)) 0)];
    try lia; repeat split; intros; try discriminate; try lia.
Qed.

Lemma detectRemoved_never_changed now previous current :
  Forall never_changed (detectRemoved now previous current).
Proof.
  unfold detectRemoved. apply Forall_flat_map. intros [itemName previousCount] _.
  destruct (negb (Map_has current itemName)); [|constructor].
  constructor; [|constructor]. unfold never_changed; simpl.
  split; [discriminate|lia].
Qed.

Lemma detectRemoved_signed now previous current :
  all_positive previous -> Forall signed (detectRemoved now previous current).
Proof.
  intros Hprev. unfold detectRemoved. apply Forall_flat_map.
  intros [itemName previousCount] Hin.
  destruct (negb (Map_has current itemName)); [|constructor].
  constructor; [|constructor]. unfold signed; simpl.
  unfold all_positive in Hprev. rewrite Forall_forall in Hprev.
  specialize (Hprev _ Hin). simpl in Hprev.
  repeat split; intros; try discriminate; lia.
Qed.

Lemma Forall_skipn {A : Type} (P : A -> Prop) (n : nat) (l : list A) :
  Forall P l -> Forall P (skipn n l).
Proof.
  intros H. rewrite <- (firstn_skipn n l) in H.
  now apply Forall_app in H.
Qed.

(** Recording keeps whatever holds of the old records and of the new. *)
Lemma onInventoryChange_history (P : InventoryChange -> Prop) now inv tr :
  Forall P (changeHistory tr) ->
  Forall P (detectChanges now (previousInventory tr) (getInventoryMap inv)) ->
  Forall P (detectRemoved now (previousInventory tr) (getInventoryMap inv)) ->
  Forall P (changeHistory (onInventoryChange now inv tr)).
Proof.
  intros Hold H1 H2. unfold onInventoryChange. cbn [changeHistory].
  destruct (0 <? _); [|exact Hold].
  assert (Hpushed : Forall P (changeHistory tr ++
            detectChanges now (previousInventory tr) (getInventoryMap inv) ++
            detectRemoved now (previousInventory tr) (getInventoryMap inv))).
  { apply Forall_app. split; [exact Hold|]. apply Forall_app. now split. }
  destruct (_ >? _); [|exact Hpushed].
  unfold slice. now apply Forall_skipn.
Qed.

Lemma run_never_changed inv0 events :
  Forall never_changed (changeHistory (run inv0 events)).
Proof.
  unfold run.
  assert (H0 : Forall never_changed (changeHistory (constructor inv0)))
    by constructor.
  revert H0. generalize (constructor inv0) as tr.
  induction events as [|e events IH]; intros tr Htr; simpl; [exact Htr|].
  apply IH. destruct e as [now inv|inv]; simpl; [|exact Htr].
  apply onInventoryChange_history; [exact Htr| |].
  - eapply Forall_impl; [|apply detectChanges_sound]. now intros c [H _].
  - apply detectRemoved_never_changed.
Qed.

Lemma run_signed inv0 events :
  positive_stacks inv0 ->
  Forall (fun e => positive_stacks (inventory_of e)) events ->
  Forall signed (changeHistory (run inv0 events)).
Proof.
  unfold run. intros Hinv0 Hevents.
  assert (H0 : all_positive (previousInventory (constructor inv0)) /\
               Forall signed (changeHistory (constructor inv0))).
  { split; [now apply getInventoryMap_positive|constructor]. }
  revert H0. generalize (constructor inv0) as tr.
  induction Hevents as [|e events He _ IH]; intros tr [Hprev Htr]; simpl;
    [exact Htr|].
  apply IH. destruct e as [now inv|inv]; simpl in *.
  - split; [now apply getInventoryMap_positive|].
    apply onInventoryChange_history; [exact Htr| |].
    + eapply Forall_impl; [|apply detectChanges_sound]. now intros c [_ H].
    + now apply detectRemoved_signed.
  - split; [now apply getInventoryMap_positive|exact Htr].
Qed.

(** C9. The tracker never records a change of kind 'changed', and every
    recorded change has [countAfter = countBefore + delta]; and, the
    stacks of the game client each holding at least one item, every
    recorded change has a non-zero delta, is 'added' exactly when the
    delta is positive and 'removed' exactly when it is negative. *)
Theorem InventoryTracker_never_changed (inv0 : Inventory) (events : list Event) :
  Forall never_changed (changeHistory (run inv0 events)) /\
  (positive_stacks inv0 ->
   Forall (fun e => positive_stacks (inventory_of e)) events ->
   Forall signed (changeHistory (run inv0 events))).
Proof.
  split; [apply run_never_changed|apply run_signed].
Qed.

Lemma InventoryTracker_never_changed_witness :
  positive_stacks sample_inventory /\
  Forall (fun e => positive_stacks (inventory_of e)) sample_events /\
  Forall never_changed (changeHistory (run sample_inventory sample_events)) /\
  Forall signed (changeHistory (run sample_inventory sample_events)).
Proof.
  assert (H0 : positive_stacks sample_inventory).
  { simpl. repeat constructor. }
  assert (H1 : Forall (fun e => positive_stacks (inventory_of e)) sample_events).
  { unfold sample_events. repeat constructor. }
  split; [exact H0|]. split; [exact H1|].
  destruct (InventoryTracker_never_changed sample_inventory sample_events)
    as [Hn Hs].
  split; [exact Hn|exact (Hs H0 H1)].
Defined.

(** Without that condition the claim fails: a stack of count 0 that
    disappears is recorded as 'removed' with a delta of 0, because the
    second loop records every name that is gone, whatever its count. *)
Lemma InventoryTracker_sign_rule_as_stated_fails :
  ~ (Forall never_changed
       (changeHistory (run empty_stack_inventory empty_stack_events)) /\
     Forall signed
       (changeHistory (run empty_stack_inventory empty_stack_events))).
Proof.
  assert (H : changeHistory (run empty_stack_inventory empty_stack_events) =
              [ {| timestamp := 10; change_type := removed; item := "dirt";
                   countBefore := 0; countAfter := 0; delta := 0 |} ])
    by (vm_compute; reflexivity).
  rewrite H. intros [_ Hsigned].
  inversion Hsigned as [|c l [Hdelta _] _]; subst.
  apply Hdelta. reflexivity.
Qed.

End InventoryTrackerProperties.

Section BridgeProperties.
Import JS MemoryManager AIClient AxiomMind.

Variable deltaContent : DeltaReader.

Lemma chatWithTools_usage messages tools ex response :
  chatWithTools deltaContent messages tools ex = Returns response ->
  usage response = Some zero_usage.
Proof.
  unfold chatWithTools. destruct ex; try discriminate.
  intros [= <-]. reflexivity.
Qed.

Lemma addMessage_within_budget m mm :
  overBudget mm = false ->
  messages (addMessage m mm) = messages mm ++ [m] /\
  tokenUsage (addMessage m mm) = tokenUsage mm /\
  config (addMessage m mm) = config mm.
Proof.
  intros Hb. unfold addMessage, autoTrim.
  change (overBudget (with_messages (messages mm ++ [m]) mm)) with (overBudget mm).
  rewrite Hb. repeat split.
Qed.

Lemma decisionCycle_quiet c mm :
  0 <= maxTokens (config mm) ->
  getTotalTokens mm = 0 ->
  config (decisionCycle deltaContent c mm) = config mm /\
  getTotalTokens (decisionCycle deltaContent c mm) = 0 /\
  messages (decisionCycle deltaContent c mm) =
    messages mm ++ appended deltaContent (messages mm) c.
Proof.
  intros Hmax Hzero.
  assert (Hb : overBudget mm = false).
  { unfold overBudget. rewrite Hzero. rewrite Z.gtb_ltb. apply Z.ltb_ge. exact Hmax. }
  destruct c as [|prompt tools ex]; simpl.
  - now rewrite app_nil_r.
  - destruct (addMessage_within_budget {| role := user; content := prompt |} mm Hb)
      as (Hm & Hu & Hc).
    unfold getMessages. rewrite Hm.
    destruct (chatWithTools deltaContent _ tools ex) as [response|err] eqn:Hchat.
    + rewrite (chatWithTools_usage _ _ _ _ Hchat).
      set (mm1 := addMessage {| role := user; content := prompt |} mm) in *.
      assert (Hb2 : overBudget (updateTokenUsage zero_usage mm1) = false).
      { unfold overBudget, getTotalTokens. cbn [updateTokenUsage tokenUsage config
          prompt_tokens zero_usage]. rewrite Hc. rewrite Z.gtb_ltb. apply Z.ltb_ge. exact Hmax. }
      destruct (truthy (response_content response)).
      * destruct (addMessage_within_budget
                    {| role := assistant; content := response_content response |}
                    (updateTokenUsage zero_usage mm1) Hb2) as (Hm2 & Hu2 & Hc2).
        unfold getTotalTokens. rewrite Hm2, Hu2, Hc2.
        cbn [updateTokenUsage tokenUsage config messages]. rewrite Hm, Hc.
        rewrite <- app_assoc. repeat split.
      * unfold getTotalTokens.
        cbn [updateTokenUsage tokenUsage config messages]. rewrite Hm, Hc.
        repeat split.
    + unfold getTotalTokens in *. rewrite Hu, Hc. subst. repeat split.
      * exact Hzero.
      * exact Hm.
Qed.


Lemma run_snoc cfg cycles c :
  run deltaContent cfg (cycles ++ [c]) =
  decisionCycle deltaContent c (run deltaContent cfg cycles).
Proof. unfold run. now rewrite fold_left_app. Qed.

Lemma decisionCycle_usage c mm :
  getTotalTokens mm = 0 ->
  config (decisionCycle deltaContent c mm) = config mm /\
  getTotalTokens (decisionCycle deltaContent c mm) = 0.
Proof.
  intros Hzero. destruct c as [|prompt tools ex]; simpl; [now split|].
  set (mm1 := addMessage {| role := user; content := prompt |} mm).
  destruct (addMessage_frame {| role := user; content := prompt |} mm)
    as (Hc & Hu & _). fold mm1 in Hc, Hu.
  destruct (chatWithTools deltaContent _ tools ex) as [response|err] eqn:Hchat.
  - rewrite (chatWithTools_usage _ _ _ _ Hchat).
    destruct (truthy (response_content response)).
    + destruct (addMessage_frame
                  {| role := assistant; content := response_content response |}
                  (updateTokenUsage zero_usage mm1)) as (Hc2 & Hu2 & _).
      unfold getTotalTokens. rewrite Hc2, Hu2. split; [exact Hc|reflexivity].
    + split; [exact Hc|reflexivity].
  - unfold getTotalTokens in *. rewrite Hu. split; [exact Hc|exact Hzero].
Qed.

Lemma run_usage cfg cycles :
  config (run deltaContent cfg cycles) = cfg /\
  getTotalTokens (run deltaContent cfg cycles) = 0.
Proof.
  induction cycles as [|c cycles IH] using rev_ind.
  - split; reflexivity.
  - rewrite run_snoc. destruct IH as [Hc Hz].
    destruct (decisionCycle_usage c (run deltaContent cfg cycles) Hz)
      as (Hc' & Hz').
    split; [now rewrite Hc'|exact Hz'].
Qed.

(** C8. Whatever the messages, the tools and the stream, a response of
    [chatWithTools] carries the usage 0/0/0.  So a bot whose memory usage
    is updated only by its decision cycles always has a recorded prompt
    usage of 0; and, for a token budget that is not negative, the test of
    [autoTrim] is false in every state it reaches, every [addMessage] is
    a plain append, and each cycle leaves the messages it found followed
    by the ones it appended. *)
Theorem AIClient_streaming_usage_is_zero
    (cfg : MemoryConfig) (cycles : list Cycle) :
  (forall messages tools ex response,
     chatWithTools deltaContent messages tools ex = Returns response ->
     usage response = Some {| prompt_tokens := 0; completion_tokens := 0;
                              total_tokens := 0 |}) /\
  let mm := run deltaContent cfg cycles in
  getTotalTokens mm = 0 /\
  (0 <= maxTokens cfg ->
   overBudget mm = false /\
   (forall m, getMessages (addMessage m mm) = getMessages mm ++ [m]) /\
   (forall c, getMessages (run deltaContent cfg (cycles ++ [c])) =
              getMessages mm ++ appended deltaContent (getMessages mm) c)).
Proof.
  split; [apply chatWithTools_usage|].
  intros mm. destruct (run_usage cfg cycles) as [Hc Hz]. fold mm in Hc, Hz.
  split; [exact Hz|]. intros Hmax.
  assert (Hb : overBudget mm = false).
  { unfold overBudget. rewrite Hz, Hc, Z.gtb_ltb. apply Z.ltb_ge. exact Hmax. }
  split; [exact Hb|]. split.
  - intros m. apply (addMessage_within_budget m mm Hb).
  - intros c. rewrite run_snoc. fold mm. unfold getMessages.
    apply decisionCycle_quiet; [now rewrite Hc|exact Hz].
Qed.

End BridgeProperties.

Lemma AIClient_streaming_usage_is_zero_witness :
  let cfg := {| MemoryManager.maxTokens := 200000;
                MemoryManager.keepMessages := 50 |} in
  let mm := AxiomMind.run AxiomMind.sample_reader cfg AxiomMind.sample_cycles in
  0 <= MemoryManager.maxTokens cfg /\
  MemoryManager.getTotalTokens mm = 0 /\
  MemoryManager.overBudget mm = false.
Proof.
  intros cfg mm.
  assert (Hmax : 0 <= MemoryManager.maxTokens cfg) by (simpl; lia).
  split; [exact Hmax|].
  destruct (AIClient_streaming_usage_is_zero AxiomMind.sample_reader cfg
              AxiomMind.sample_cycles) as (_ & Hz & Hrest).
  split; [exact Hz|exact (proj1 (Hrest Hmax))].
Defined.

Example sample_cycle_messages :
MemoryManager.getMessages
  (AxiomMind.run AxiomMind.sample_reader
     {| MemoryManager.maxTokens := 200000; MemoryManager.keepMessages := 50 |}
     AxiomMind.sample_cycles) =
[ {| role := user; content := "Current Situation: early_game" |};
  {| role := assistant; content := "Thinking done" |} ].
Proof. vm_compute. reflexivity. Qed.


(* ================================================================== *)
(** * Part III. Further properties of the modelled code *)
(* ================================================================== *)

Section StateMachineFurther.
Import JS StateMachine StateMachineQueries.


Lemma BotState_eqb_spec a b : reflect (a = b) (BotState_eqb a b).
Proof. destruct a, b; simpl; constructor; congruence. Qed.

Lemma Frequency_get_set m k v k' :
  Map_get (Map_set m k v) k' =
  if BotState_eqb k k' then Some v else Map_get m k'.
Proof.
  induction m as [|[k0 v0] m IH]; simpl.
  - reflexivity.
  - destruct (BotState_eqb_spec k0 k) as [->|Hne]; simpl.
    + destruct (BotState_eqb_spec k k'); reflexivity.
    + rewrite IH.
      destruct (BotState_eqb_spec k0 k') as [->|]; [|reflexivity].
      destruct (BotState_eqb_spec k k'); [congruence|reflexivity].
Qed.

Lemma frequency_fold (h : list StateTransition) (m : FrequencyMap) (s : BotState) :
  or_0 (Map_get
          (fold_left (fun m tr => Map_set m (to tr) (or_0 (Map_get m (to tr)) + 1))
                     h m) s) =
  or_0 (Map_get m s) + arrivals s h.
Proof.
  unfold arrivals. revert m.
  induction h as [|tr h IH]; intros m; simpl; [lia|].
  rewrite IH, Frequency_get_set.
  destruct (BotState_eqb_spec (to tr) s) as [->|Hne]; simpl length; simpl or_0; lia.
Qed.

(** X5. In [getStatistics()], the frequency recorded for a state is the
    number of records of the history that lead to it, and
    [totalTransitions] is the length of the history; both therefore
    cover at most the last 100 transitions. *)
Theorem StateMachine_statistics_count_arrivals (cfg : StateConfig)
    (calls : list (Date * Call)) (now : Date) (s : BotState) :
  let stats := getStatistics now (run cfg calls) in
  or_0 (Map_get (stateFrequency stats) s) = arrivals s (getHistory None (run cfg calls)) /\
  totalTransitions stats = Z.of_nat (length (getHistory None (run cfg calls))) /\
  0 <= or_0 (Map_get (stateFrequency stats) s) <= totalTransitions stats /\
  totalTransitions stats <= 100.
Proof.
  cbv zeta. unfold getStatistics, getHistory. cbn [stateFrequency totalTransitions].
  rewrite frequency_fold. cbn [Map_get or_0].
  pose proof (history_bounded cfg calls) as Hb. unfold maxHistorySize in Hb.
  assert (Hle : arrivals s (history (run cfg calls)) <=
                Z.of_nat (length (history (run cfg calls)))).
  { unfold arrivals. apply inj_le, filter_length_le. }
  unfold arrivals in *. repeat split; lia.
Qed.

Lemma slice_neg_lastn {A : Type} (l : list A) (n : Z) :
  0 < n -> slice l (- n) = lastn (Z.to_nat n) l.
Proof.
  intros Hn. unfold slice, lastn.
  destruct (Z.ltb_spec (- n) 0); [|lia]. f_equal. lia.
Qed.

(** X6. [getHistory(limit)] with a positive limit returns the last
    [limit] records (all of them when there are fewer), in order;
    [getHistory(0)] returns the whole history, like [getHistory()]. *)
Theorem StateMachine_getHistory_limit (n : Z) (sm : t) :
  0 <= n ->
  getHistory (Some n) sm =
    (if n =? 0 then getHistory None sm
     else lastn (Z.to_nat n) (getHistory None sm)) /\
  Z.of_nat (length (getHistory (Some n) sm)) =
    (if n =? 0 then Z.of_nat (length (history sm))
     else Z.min n (Z.of_nat (length (history sm)))).
Proof.
  intros Hn. unfold getHistory.
  destruct (Z.eqb_spec n 0) as [->|Hne]; [split; reflexivity|].
  rewrite slice_neg_lastn by lia. split; [reflexivity|].
  unfold lastn. rewrite length_skipn. lia.
Qed.

Lemma StateMachine_getHistory_limit_witness :
  0 <= 2 /\
  map to (getHistory (Some 2) (run sample_callbacks sample_calls)) = [MINING; ERROR].
Proof.
  split; [lia|].
  rewrite (proj1 (StateMachine_getHistory_limit 2
                    (run sample_callbacks sample_calls) ltac:(lia))).
  reflexivity.
Defined.

(** X7. [reset()] always leaves the machine idle with an empty history,
    and it records the state it left as [previousState]; so a second
    [reset()] changes nothing exactly when the machine was idle before
    the first. *)
Theorem StateMachine_reset_twice (sm : t) :
  getCurrentState (reset sm) = IDLE /\
  getHistory None (reset sm) = [] /\
  previousState (reset sm) = Some (getCurrentState sm) /\
  (reset (reset sm) = reset sm <-> getCurrentState sm = IDLE).
Proof.
  unfold reset, getCurrentState, getHistory; simpl. repeat split.
  - intros [= H]. now symmetry.
  - intros ->. reflexivity.
Qed.

End StateMachineFurther.

Section StateMachineCallbacksFurther.
Import JS StateMachine StateMachineCallbacks.

(** With callbacks that cannot touch the machine, [transition] is the
    one of [StateMachine]. *)
Lemma transition_detached (cfg : StateMachine.StateConfig) now dest why sm :
  transition (detached_config cfg) now dest why sm =
  StateMachine.transition cfg now dest why sm.
Proof.
  unfold transition, StateMachine.transition, canTransition,
    StateMachine.canTransition, revert.
  cbn [detached_config allowedTransitions onEnter onExit].
  destruct (BotState_eqb (currentState sm) dest); [reflexivity|].
  destruct (negb _); [reflexivity|].
  destruct (StateMachine.onExit cfg) as [exit|],
           (StateMachine.onEnter cfg) as [enter|];
    cbn [option_map call StateMachine.call detached];
    try destruct (exit now (currentState sm));
    try destruct (enter now dest); reflexivity.
Qed.

(** One call keeps the last record leading to the current state. *)
Lemma transition_last_record cfg now dest why sm :
  leaves_machine (onEnter cfg) -> leaves_machine (onExit cfg) ->
  never_throws (onEnter cfg) ->
  last_to_is_current sm = true ->
  last_to_is_current (snd (transition cfg now dest why sm)) = true.
Proof.
  intros Henter Hexit Hreturns Hinv. unfold transition.
  destruct (BotState_eqb (currentState sm) dest); [exact Hinv|].
  destruct (negb (canTransition cfg sm dest)); [exact Hinv|].
  pose proof (Hexit now (currentState sm) sm) as Hsm1.
  destruct (call (onExit cfg) now (currentState sm) sm) as [exited sm1].
  cbn [snd] in Hsm1. subst sm1. destruct exited.
  - set (sm2 := {| currentState := dest; previousState := _; history := _ |}).
    pose proof (Henter now dest sm2) as Hsm3.
    pose proof (Hreturns now dest sm2) as Hr.
    destruct (call (onEnter cfg) now dest sm2) as [entered sm3].
    cbn [fst snd] in Hsm3, Hr. subst sm3 entered. cbn [snd].
    unfold last_to_is_current, sm2. cbn [history currentState].
    destruct (_ >? _).
    + rewrite slice_neg_last by (unfold maxHistorySize; lia).
      cbn [to]. apply BotState_eqb_refl.
    + rewrite last_snoc_some. cbn [to]. apply BotState_eqb_refl.
  - cbn [snd]. unfold revert. destruct sm; exact Hinv.
Qed.

(** X2. If the callbacks do not call back into the machine and
    [onEnter] does not throw, the most recent record of a non-empty
    history leads to the current state, whatever calls are made. *)
Theorem StateMachine_last_record_is_current (cfg : StateConfig)
    (calls : list (Date * Call)) :
  leaves_machine (onEnter cfg) -> leaves_machine (onExit cfg) ->
  never_throws (onEnter cfg) ->
  match last (map Some (getHistory None (run cfg calls))) None with
  | None => True
  | Some tr => to tr = getCurrentState (run cfg calls)
  end.
Proof.
  intros Henter Hexit Hreturns.
  assert (H : last_to_is_current (run cfg calls) = true).
  { unfold run.
    assert (H0 : last_to_is_current constructor = true) by reflexivity.
    revert H0. generalize constructor.
    induction calls as [|c calls IH]; intros sm Hsm; simpl; [exact Hsm|].
    apply IH. destruct c as [now [dest why|why|why| |]]; cbn [step];
      try (now apply transition_last_record); reflexivity. }
  unfold last_to_is_current in H. unfold getHistory, getCurrentState.
  destruct (last (map Some (history (run cfg calls))) None) as [tr|]; [|exact I].
  now apply BotState_eqb_eq.
Qed.

Lemma StateMachine_last_record_is_current_witness :
  leaves_machine (Some logs) /\
  never_throws (Some logs) /\
  match last (map Some (getHistory None (run logging StateMachineQueries.sample_calls))) None with
  | None => True
  | Some tr => to tr = ERROR
  end.
Proof.
  assert (H1 : leaves_machine (Some logs)) by (intros now s sm; reflexivity).
  assert (H2 : never_throws (Some logs)) by (intros now s sm; reflexivity).
  split; [exact H1|]. split; [exact H2|].
  exact (StateMachine_last_record_is_current logging StateMachineQueries.sample_calls H1 H1 H2).
Defined.

(** An [onExit] that sends the machine to ERROR and then throws leaves
    a last record that leads to ERROR on an idle machine, with an
    [onEnter] that never throws: the hypothesis on [onExit] is needed. *)
Example onExit_that_transitions_breaks_last_record :
  let cfg := config_of None None (Some fails_after_error) in
  let r := transition cfg 1 PLANNING None constructor in
  fst r = false /\
  getCurrentState (snd r) = IDLE /\
  map to (getHistory None (snd r)) = [ERROR].
Proof. vm_compute. repeat split. Qed.

(** X3. If the callbacks do not call back into the machine (they may
    throw), [transition(to)] returns true exactly when the machine ends
    in [to], and when it returns false the current state is the one
    before the call; this holds for every table. *)
Theorem StateMachine_transition_result (cfg : StateConfig) (now : Date)
    (dest : BotState) (why : option string) (sm : t) :
  leaves_machine (onEnter cfg) -> leaves_machine (onExit cfg) ->
  let r := transition cfg now dest why sm in
  (fst r = true <-> getCurrentState (snd r) = dest) /\
  (fst r = false -> getCurrentState (snd r) = getCurrentState sm).
Proof.
  intros Henter Hexit. cbv zeta. unfold transition, getCurrentState.
  destruct (BotState_eqb (currentState sm) dest) eqn:Hsame.
  - apply BotState_eqb_eq in Hsame. simpl. split; [tauto|discriminate].
  - assert (Hne : currentState sm <> dest).
    { intros Heq. rewrite Heq, BotState_eqb_refl in Hsame. discriminate. }
    destruct (negb (canTransition cfg sm dest)); simpl.
    + split; [split; [discriminate|contradiction]|reflexivity].
    + pose proof (Hexit now (currentState sm) sm) as Hsm1.
      destruct (call (onExit cfg) now (currentState sm) sm) as [exited sm1].
      cbn [snd] in Hsm1. subst sm1. destruct exited; simpl.
      * set (sm2 := {| currentState := dest; previousState := _; history := _ |}).
        pose proof (Henter now dest sm2) as Hsm3.
        destruct (call (onEnter cfg) now dest sm2) as [entered sm3].
        cbn [snd] in Hsm3. subst sm3. destruct entered; simpl.
        -- split; [tauto|discriminate].
        -- split; [split; [discriminate|contradiction]|reflexivity].
      * split; [split; [discriminate|contradiction]|reflexivity].
Qed.

Lemma StateMachine_transition_result_witness :
  leaves_machine (Some logs) /\
  fst (transition logging 1 PLANNING None constructor) = true /\
  getCurrentState (snd (transition logging 1 PLANNING None constructor))
    = PLANNING.
Proof.
  assert (H : leaves_machine (Some logs)) by (intros now s sm; reflexivity).
  split; [exact H|]. split; [reflexivity|].
  exact (proj1 (proj1 (StateMachine_transition_result
                         logging 1 PLANNING None constructor H H))
               eq_refl).
Defined.

(** With [onEnter = () => sm.reset()], [transition(PLANNING)] returns
    true and the machine is idle: the hypothesis is needed. *)
Example onEnter_that_resets_ends_idle :
  let cfg := config_of None (Some resets) None in
  let r := transition cfg 1 PLANNING None constructor in
  fst r = true /\ getCurrentState (snd r) = IDLE.
Proof. vm_compute. split; reflexivity. Qed.

(** X4. With the default table and callbacks that neither throw nor
    call back into the machine, from every state [returnToIdle()]
    returns true and leaves the machine idle, and
    [transitionToError(reason)] leaves it in error. *)
Theorem StateMachine_idle_and_error_always_reachable
    (enter exit : option Callback) (now : Date) (sm : t)
    (why : option string) (err : string) :
  leaves_machine enter -> leaves_machine exit ->
  never_throws enter -> never_throws exit ->
  let cfg := config_of None enter exit in
  returnToIdle cfg now why sm = (true, snd (returnToIdle cfg now why sm)) /\
  getCurrentState (snd (returnToIdle cfg now why sm)) = IDLE /\
  getCurrentState (transitionToError cfg now err sm) = ERROR.
Proof.
  intros Lenter Lexit Henter Hexit cfg.
  assert (Hgo : forall dest reason,
             canTransition cfg sm dest = true \/ currentState sm = dest ->
             transition cfg now dest reason sm =
               (true, snd (transition cfg now dest reason sm)) /\
             currentState (snd (transition cfg now dest reason sm)) = dest).
  { intros dest reason Hok. unfold transition.
    destruct (BotState_eqb (currentState sm) dest) eqn:Hsame.
    - apply BotState_eqb_eq in Hsame. now split.
    - destruct Hok as [Hcan|Heq].
      2: { rewrite Heq in Hsame. rewrite BotState_eqb_refl in Hsame. discriminate. }
      rewrite Hcan. cbn [negb].
      change (onExit cfg) with exit. change (onEnter cfg) with enter.
      pose proof (Lexit now (currentState sm) sm) as Hsm1.
      pose proof (Hexit now (currentState sm) sm) as Hr1.
      destruct (call exit now (currentState sm) sm) as [exited sm1].
      cbn [fst snd] in Hsm1, Hr1. subst sm1 exited.
      set (sm2 := {| currentState := dest; previousState := _; history := _ |}).
      pose proof (Lenter now dest sm2) as Hsm3.
      pose proof (Henter now dest sm2) as Hr3.
      destruct (call enter now dest sm2) as [entered sm3].
      cbn [fst snd] in Hsm3, Hr3. subst sm3 entered. now split. }
  assert (Hidle : canTransition cfg sm IDLE = true \/ currentState sm = IDLE).
  { unfold canTransition. destruct (currentState sm); vm_compute; auto. }
  assert (Herr : canTransition cfg sm ERROR = true \/ currentState sm = ERROR).
  { unfold canTransition. destruct (currentState sm); vm_compute; auto. }
  unfold returnToIdle, transitionToError, getCurrentState.
  destruct (Hgo IDLE (Some (or_else why "Returning to idle")) Hidle) as [H1 H2].
  destruct (Hgo ERROR (Some err) Herr) as [_ H3].
  split; [exact H1|]. split; [exact H2|exact H3].
Qed.

Lemma StateMachine_idle_and_error_always_reachable_witness :
  let sm := run logging StateMachineQueries.sample_calls in
  leaves_machine (Some logs) /\
  never_throws (Some logs) /\
  getCurrentState sm = ERROR /\
  getCurrentState (snd (returnToIdle logging 4 None sm)) = IDLE.
Proof.
  intros sm.
  assert (H1 : leaves_machine (Some logs)) by (intros now s sm'; reflexivity).
  assert (H2 : never_throws (Some logs)) by (intros now s sm'; reflexivity).
  split; [exact H1|]. split; [exact H2|]. split; [reflexivity|].
  exact (proj1 (proj2 (StateMachine_idle_and_error_always_reachable
                         (Some logs) (Some logs) 4 sm None EmptyString
                         H1 H1 H2 H2))).
Defined.

(** A non-throwing [onEnter] that goes on to PLANNING when it enters
    IDLE: [returnToIdle()] returns true with the machine in PLANNING. *)
Example onEnter_that_plans_leaves_planning :
  let cfg := config_of None (Some plans_when_idle) None in
  let mining := {| currentState := MINING; previousState := Some PLANNING;
                   history := [] |} in
  let r := returnToIdle cfg 1 None mining in
  fst r = true /\ getCurrentState (snd r) = PLANNING.
Proof. vm_compute. split; reflexivity. Qed.

End StateMachineCallbacksFurther.

Section DatabaseFurther.
Import JS DatabaseManager.

Lemma empty_well_formed : well_formed empty.
Proof. unfold well_formed; simpl. split; [lia|split; [exact I|constructor]]. Qed.

(** X8. After [insertMessage(m)], [getRecentMessages(n + 1)] is [m]
    followed by what [getRecentMessages(n)] returned before, so
    [getRecentMessages(1)] is [[m]]; and the id returned is larger than
    every id in the table. *)
Theorem Database_insert_then_recent (m : Message) (n : nat) (db : t) :
  well_formed db ->
  let inserted := insertMessage m db in
  getRecentMessages (Z.of_nat (S n)) (snd inserted) =
    m :: getRecentMessages (Z.of_nat n) db /\
  getRecentMessages 1 (snd inserted) = [m] /\
  Forall (fun r => id r < fst inserted) (messages db).
Proof.
  intros Hwf inserted.
  pose proof (insertMessage_well_formed m db Hwf) as Hwf'.
  assert (Hrec : forall k, getRecentMessages (Z.of_nat (S k)) (snd inserted) =
                           m :: getRecentMessages (Z.of_nat k) db).
  { intros k. subst inserted.
    rewrite (getRecentMessages_newest_first (S k) _ Hwf'),
            (getRecentMessages_newest_first k _ Hwf), insertMessage_stored.
    rewrite rev_app_distr. reflexivity. }
  split; [apply Hrec|]. split.
  - change 1 with (Z.of_nat 1). rewrite Hrec.
    rewrite (getRecentMessages_newest_first 0 _ Hwf). reflexivity.
  - destruct Hwf as (_ & _ & Hmax). subst inserted. simpl.
    eapply Forall_impl; [|exact Hmax]. simpl. intros; lia.
Qed.

Lemma Database_insert_then_recent_witness :
  well_formed empty /\
  getRecentMessages 1
    (snd (insertMessage {| role := user; content := "hello" |} empty)) =
  [ {| role := user; content := "hello" |} ].
Proof.
  split; [exact empty_well_formed|].
  exact (proj1 (proj2 (Database_insert_then_recent
                         {| role := user; content := "hello" |} 0 empty
                         empty_well_formed))).
Defined.

Lemma ids_increase_app lo a b :
  ids_increase lo (a ++ b) ->
  Forall (fun x => Forall (fun y => id x < id y) b) a.
Proof.
  revert lo. induction a as [|x a IH]; intros lo H; simpl in *; [constructor|].
  destruct H as [_ Hrest]. constructor; [|now apply IH with (lo := id x)].
  apply ids_increase_above in Hrest. apply Forall_app in Hrest. tauto.
Qed.

Lemma ids_increase_skipn lo k rows :
  ids_increase lo rows -> ids_increase lo (skipn k rows).
Proof.
  revert lo rows. induction k as [|k IH]; intros lo rows H; [exact H|].
  destruct rows as [|r rows]; [exact H|]. simpl in *. destruct H as [Hlt Hrest].
  apply IH. apply ids_increase_weaken with (lo := id r); [lia|exact Hrest].
Qed.

Lemma filter_all {A : Type} (f : A -> bool) (l : list A) :
  Forall (fun x => f x = true) l -> filter f l = l.
Proof. induction 1 as [|x l Hx _ IH]; simpl; [|rewrite Hx, IH]; reflexivity. Qed.

Lemma filter_none {A : Type} (f : A -> bool) (l : list A) :
  Forall (fun x => f x = false) l -> filter f l = [].
Proof. induction 1 as [|x l Hx _ IH]; simpl; [|rewrite Hx, IH]; reflexivity. Qed.

Lemma existsb_eqb_In (i : Z) (l : list Z) :
  existsb (Z.eqb i) l = true <-> In i l.
Proof.
  rewrite existsb_exists. split.
  - intros (x & Hin & Heq). apply Z.eqb_eq in Heq. now subst.
  - intros Hin. exists i. split; [exact Hin|apply Z.eqb_refl].
Qed.

Lemma clearOldMessages_rows (n : nat) (db : t) :
  well_formed db ->
  messages (clearOldMessages (Z.of_nat n) db) = lastn n (messages db).
Proof.
  intros (_ & Hinc & _). unfold clearOldMessages, LIMIT. cbn [messages].
  destruct (Z.ltb_spec (Z.of_nat n) 0); [lia|].
  rewrite Nat2Z.id, (order_by_id_desc_rev _ _ Hinc), firstn_rev_lastn.
  set (rows := messages db) in *.
  assert (Hj : lastn (Nat.min n (length rows)) rows = lastn n rows).
  { unfold lastn. f_equal. lia. }
  rewrite Hj.
  assert (Hsplit : rows = firstn (length rows - n) rows ++ lastn n rows).
  { unfold lastn. now rewrite firstn_skipn. }
  set (kept := map id (rev (lastn n rows))).
  assert (Hkept : forall i, existsb (Z.eqb i) kept = true <->
                            In i (map id (lastn n rows))).
  { intros i. rewrite existsb_eqb_In. subst kept.
    rewrite map_rev. symmetry. apply in_rev. }
  rewrite Hsplit at 1. rewrite filter_app.
  rewrite Hsplit in Hinc. apply ids_increase_app in Hinc.
  rewrite filter_none, filter_all; [reflexivity| |].
  - apply Forall_forall. intros r Hr. apply Hkept. now apply in_map.
  - eapply Forall_impl; [|exact Hinc]. intros r Hr. simpl in Hr.
    destruct (existsb (Z.eqb (id r)) kept) eqn:He; [|reflexivity].
    apply Hkept, in_map_iff in He. destruct He as (r' & Heq & Hin).
    rewrite Forall_forall in Hr. specialize (Hr r' Hin). lia.
Qed.

(** X9. [clearOldMessages(keepLast)] keeps exactly the [keepLast] most
    recent messages, in their order, and removes the rest; the table
    stays well formed, and the next [insertMessage] returns the same id
    as it would have without the clearing, so an id is never reused. *)
Theorem Database_clearOldMessages_keeps_newest (n : nat) (m : Message) (db : t) :
  well_formed db ->
  let cleared := clearOldMessages (Z.of_nat n) db in
  stored cleared = lastn n (stored db) /\
  well_formed cleared /\
  getRecentMessages (Z.of_nat n) cleared = getRecentMessages (Z.of_nat n) db /\
  fst (insertMessage m cleared) = fst (insertMessage m db).
Proof.
  intros Hwf cleared.
  pose proof (clearOldMessages_rows n db Hwf) as Hrows. fold cleared in Hrows.
  assert (Hst : stored cleared = lastn n (stored db)).
  { unfold stored. rewrite Hrows. unfold lastn. now rewrite skipn_map, length_map. }
  assert (Hwf' : well_formed cleared).
  { destruct Hwf as (Hpos & Hinc & Hmax). unfold well_formed.
    rewrite Hrows. change (last_id cleared) with (last_id db).
    split; [exact Hpos|]. split.
    - now apply ids_increase_skipn.
    - now apply Forall_skipn. }
  split; [exact Hst|]. split; [exact Hwf'|]. split; [|reflexivity].
  rewrite (getRecentMessages_newest_first n _ Hwf'),
          (getRecentMessages_newest_first n _ Hwf), Hst.
  rewrite !firstn_rev_lastn. f_equal.
  unfold lastn. rewrite length_skipn, skipn_skipn. f_equal. lia.
Qed.

Lemma Database_clearOldMessages_keeps_newest_witness :
  let db := MemoryManager.saveToDatabase MemoryManager.two_messages empty in
  well_formed db /\
  stored (clearOldMessages 1 db) = [ {| role := assistant; content := "second" |} ].
Proof.
  intros db.
  assert (Hwf : well_formed db).
  { exact (proj1 (saveToDatabase_spec MemoryManager.two_messages empty
                    empty_well_formed)). }
  split; [exact Hwf|].
  exact (proj1 (Database_clearOldMessages_keeps_newest 1
                  {| role := user; content := "x" |} db Hwf)).
Defined.

End DatabaseFurther.

Section GoalsFurther.
Import JS GoalsTable.

Lemma find_app_none {A : Type} (f : A -> bool) (l : list A) (x : A) :
  existsb f l = false -> f x = true -> find f (l ++ [x]) = Some x.
Proof.
  induction l as [|y l IH]; simpl; intros Hno Hx.
  - now rewrite Hx.
  - apply orb_false_iff in Hno. destruct Hno as [Hy Hl].
    rewrite Hy. now apply IH.
Qed.

Lemma find_app_other {A : Type} (f : A -> bool) (l : list A) (x : A) :
  f x = false -> find f (l ++ [x]) = find f l.
Proof.
  induction l as [|y l IH]; simpl; intros Hx.
  - now rewrite Hx.
  - destruct (f y); [reflexivity|now apply IH].
Qed.

(** X10. [insertGoal(g)] followed by [getGoal(g.id)] returns [g] with
    no [completedAt] (an empty [parentId] comes back absent) and with
    [createdAt] read from the text the database stamped the row with,
    its CURRENT_TIMESTAMP, which the call does not supply; every other
    lookup is as it was; inserting an id that is already stored throws
    and stores nothing. *)
Theorem Goals_insert_then_get (new_Date : DateReader) (created_at : string)
    (g : NewGoal) (table : t) :
  match insertGoal new_Date created_at g table with
  | Returns table' =>
      getGoal (new_id g) table = None /\
      getGoal (new_id g) table' = Some (stored_goal (new_Date created_at) g) /\
      (forall k, k <> new_id g -> getGoal k table' = getGoal k table)
  | Throws _ => getGoal (new_id g) table <> None
  end.
Proof.
  unfold insertGoal, getGoal.
  destruct (existsb (has_id (new_id g)) table) eqn:Hex.
  - apply existsb_exists in Hex. destruct Hex as (g' & Hin & Hid).
    destruct (find (has_id (new_id g)) table) eqn:Hf; [discriminate|].
    apply (find_none _ _ Hf) in Hin. congruence.
  - repeat split.
    + destruct (find (has_id (new_id g)) table) as [g'|] eqn:Hf; [|reflexivity].
      apply find_some in Hf. destruct Hf as [Hin Hid].
      assert (Hc : existsb (has_id (new_id g)) table = true)
        by (apply existsb_exists; eauto).
      congruence.
    + apply find_app_none; [exact Hex|]. unfold has_id; simpl. apply String.eqb_refl.
    + intros k Hk. apply find_app_other. unfold has_id; simpl.
      apply String.eqb_neq. congruence.
Qed.

Lemma updateGoalStatus_find now k st table k' :
  getGoal k' (updateGoalStatus now k st table) =
  match getGoal k' table with
  | None => None
  | Some g =>
      if String.eqb k' k
      then Some {| id := id g; type := type g; description := description g;
                   priority := priority g; status := st; parentId := parentId g;
                   createdAt := createdAt g;
                   completedAt := if GoalStatus_eqb st completed
                                  then Some now else None |}
      else Some g
  end.
Proof.
  unfold getGoal, updateGoalStatus.
  induction table as [|g table IH]; simpl; [reflexivity|].
  rewrite IH. clear IH. unfold has_id.
  destruct (String.eqb_spec (id g) k) as [Hk|Hk]; cbn [id].
  - destruct (String.eqb_spec (id g) k') as [Hk'|Hk']; [|reflexivity].
    assert (E : String.eqb k' k = true) by (apply String.eqb_eq; congruence).
    now rewrite E.
  - destruct (String.eqb_spec (id g) k') as [Hk'|Hk']; [|reflexivity].
    assert (E : String.eqb k' k = false) by (apply String.eqb_neq; congruence).
    now rewrite E.
Qed.

(** X11. After [updateGoalStatus(id, status)] the goal, if stored, has
    the new status and has [completedAt] set exactly when the status is
    'completed' (a goal completed and then failed loses it); its other
    fields and every other goal are unchanged. *)
Theorem Goals_updateGoalStatus_completedAt
    (now : Date) (k : string) (st : GoalStatus) (table : t) (g : Goal) :
  getGoal k table = Some g ->
  exists g',
    getGoal k (updateGoalStatus now k st table) = Some g' /\
    status g' = st /\
    (completedAt g' <> None <-> st = completed) /\
    (completedAt g' = if GoalStatus_eqb st completed then Some now else None) /\
    (id g', type g', description g', priority g', parentId g', createdAt g') =
    (id g, type g, description g, priority g, parentId g, createdAt g) /\
    (forall k', k' <> k ->
       getGoal k' (updateGoalStatus now k st table) = getGoal k' table).
Proof.
  intros Hg. rewrite updateGoalStatus_find, Hg, String.eqb_refl.
  eexists. split; [reflexivity|]. simpl. repeat split.
  - destruct st; simpl; intros H; congruence.
  - intros ->. simpl. discriminate.
  - intros k' Hk'. rewrite updateGoalStatus_find.
    destruct (getGoal k' table); [|reflexivity].
    apply String.eqb_neq in Hk'. now rewrite Hk'.
Qed.

Lemma Goals_updateGoalStatus_completedAt_witness :
  exists table g',
    insertGoal reads_5 "2026-11-02 06:59:54" sample_goal [] = Returns table /\
    getGoal "main"
      (updateGoalStatus 9 "main" failed (updateGoalStatus 7 "main" completed table))
      = Some g' /\
    status g' = failed /\ completedAt g' = None.
Proof.
  exists [stored_goal 5 sample_goal].
  destruct (Goals_updateGoalStatus_completedAt 9 "main" failed
              (updateGoalStatus 7 "main" completed [stored_goal 5 sample_goal])
              {| id := "main"; type := main; description := "Beat the dragon";
                 priority := 1; status := completed; parentId := None;
                 createdAt := 5; completedAt := Some 7 |} eq_refl)
    as (g' & Hget & Hst & _ & Hdone & _).
  exists g'. split; [reflexivity|]. split; [exact Hget|]. split; [exact Hst|exact Hdone].
Defined.

Lemma insert_by_priority_In_goal g x l :
  In x (insert_by_priority g l) <-> x = g \/ In x l.
Proof.
  induction l as [|y l IH]; simpl.
  - intuition auto.
  - destruct (priority g <=? priority y); simpl; [intuition auto|].
    rewrite IH. intuition auto.
Qed.

Lemma order_by_priority_In x l : In x (order_by_priority l) <-> In x l.
Proof.
  induction l as [|y l IH]; simpl; [tauto|].
  rewrite insert_by_priority_In_goal, IH. intuition auto.
Qed.

Lemma insert_by_priority_ascending g l :
  ascending l -> ascending (insert_by_priority g l).
Proof.
  induction l as [|y l IH]; simpl; intros Hl.
  - split; [constructor|exact I].
  - destruct Hl as [Hy Hl].
    destruct (Z.leb_spec (priority g) (priority y)) as [Hle|Hgt]; simpl.
    + split; [|split; assumption].
      constructor; [exact Hle|].
      eapply Forall_impl; [|exact Hy]. simpl. intros; lia.
    + split; [|now apply IH].
      apply Forall_forall. intros x Hx.
      apply insert_by_priority_In_goal in Hx. destruct Hx as [->|Hx]; [lia|].
      rewrite Forall_forall in Hy. now apply Hy.
Qed.

(** X12. [getPendingGoals()] returns exactly the stored goals whose
    status is 'pending', each as often as it is stored, in ascending
    order of priority. *)
Theorem Goals_getPendingGoals_sorted (table : t) :
  ascending (getPendingGoals table) /\
  (forall g, In g (getPendingGoals table) <-> In g table /\ status g = pending) /\
  length (getPendingGoals table) =
    length (filter (fun g => GoalStatus_eqb (status g) pending) table).
Proof.
  unfold getPendingGoals. split; [|split].
  - generalize (filter (fun g => GoalStatus_eqb (status g) pending) table) as l.
    induction l as [|g l IH]; simpl; [exact I|].
    now apply insert_by_priority_ascending.
  - intros g. rewrite order_by_priority_In, filter_In.
    split; intros [Hin Hst]; (split; [exact Hin|]).
    + destruct (status g); simpl in Hst; congruence.
    + now rewrite Hst.
  - generalize (filter (fun g => GoalStatus_eqb (status g) pending) table) as l.
    induction l as [|g l IH]; simpl; [reflexivity|].
    rewrite <- IH. generalize (order_by_priority l) as sorted.
    induction sorted as [|y sorted IHs]; simpl; [reflexivity|].
    destruct (priority g <=? priority y); simpl; [reflexivity|]. now rewrite IHs.
Qed.

End GoalsFurther.

Section WorldStatesFurther.
Import JS WorldStatesTable.

Lemma max_row_last best l r :
  Forall (fun r' => id r' < id r) (best :: l) ->
  max_row best (l ++ [r]) = r.
Proof.
  revert best. induction l as [|x l IH]; intros best Hall; simpl.
  - inversion Hall as [|? ? Hb _]; subst.
    destruct (Z.ltb_spec (id best) (id r)); [reflexivity|lia].
  - apply IH. inversion Hall as [|? ? Hb Hrest]; subst.
    inversion Hrest as [|? ? Hx Hl]; subst.
    constructor; [|exact Hl]. now destruct (id best <? id x).
Qed.

(** X13. [getLatestWorldState()] returns nothing on an empty table.
    When the database accepts [insertWorldState(s)], the latest state
    has the position, health, food and dimension of [s], and as
    [timestamp] the text the database stamped the row with; when it
    refuses, the call throws.  So [observe()] returns its snapshot
    either way, and afterwards the latest state is what the snapshot
    recorded if the row was accepted, while the table is unchanged if it
    was refused or if the bot has not spawned. *)
Theorem WorldStates_latest_is_last_inserted
    (now : Date) (w : Write) (state : WorldStateRecord) (table : t)
    (bot : WorldObserver.Bot) (last : option WorldObserver.WorldSnapshot) :
  well_formed table ->
  getLatestWorldState empty = None /\
  match insertWorldState w state table with
  | Returns (_, table') =>
      exists stamp,
        w = Stamped stamp /\
        getLatestWorldState table' =
          Some {| position := position state; health := health state;
                  food := food state; dimension := dimension state;
                  timestamp := Some stamp |} /\
        well_formed table'
  | Throws _ => exists err, w = Refused err
  end /\
  match observe_and_save now w bot last table with
  | (Some snapshot, table') =>
      WorldObserver.observe now bot last = Some snapshot /\
      match w with
      | Stamped stamp =>
          getLatestWorldState table' =
            Some {| position := position (record_of snapshot);
                    health := WorldObserver.health snapshot;
                    food := WorldObserver.food snapshot;
                    dimension := WorldObserver.dimension snapshot;
                    timestamp := Some stamp |}
      | Refused _ => table' = table
      end
  | (None, table') => table' = table /\ WorldObserver.entity bot = None
  end.
Proof.
  intros Hwf.
  assert (Hlatest : forall stamp st,
             match insertWorldState (Stamped stamp) st table with
             | Returns (_, table') =>
                 getLatestWorldState table' =
                   Some {| position := position st; health := health st;
                           food := food st; dimension := dimension st;
                           timestamp := Some stamp |} /\
                 well_formed table'
             | Throws _ => False
             end).
  { intros stamp st. unfold insertWorldState, getLatestWorldState, well_formed.
    destruct (position st) as [[x y] z] eqn:Hp. cbn [rows last_id]. split.
    - unfold well_formed in Hwf.
      destruct (rows table) as [|r rest] eqn:Hrows; cbn [app].
      + reflexivity.
      + rewrite max_row_last; [reflexivity|].
        eapply Forall_impl; [|exact Hwf]. simpl. intros; lia.
    - apply Forall_app. split.
      + eapply Forall_impl; [|exact Hwf]. simpl. intros; lia.
      + constructor; [simpl; lia|constructor]. }
  split; [reflexivity|]. split.
  - destruct w as [stamp|err].
    + specialize (Hlatest stamp state).
      destruct (insertWorldState (Stamped stamp) state table) as [[i table']|];
        [|contradiction].
      exists stamp. split; [reflexivity|exact Hlatest].
    + simpl. now exists err.
  - unfold observe_and_save.
    destruct (WorldObserver.observe now bot last) as [snapshot|] eqn:Hobs.
    + split; [reflexivity|]. unfold saveWorldState.
      destruct w as [stamp|err]; [|reflexivity].
      specialize (Hlatest stamp (record_of snapshot)).
      destruct (insertWorldState (Stamped stamp) (record_of snapshot) table)
        as [[i table']|]; [|contradiction].
      exact (proj1 Hlatest).
    + split; [reflexivity|]. unfold WorldObserver.observe in Hobs.
      destruct (WorldObserver.entity bot); [discriminate|reflexivity].
Qed.

Lemma WorldStates_latest_is_last_inserted_witness :
  let state := {| position := (10, 64, -3)%Q; health := 20; food := 18;
                  dimension := "overworld"; timestamp := None |} in
  well_formed empty /\
  match insertWorldState (Stamped "2026-11-02 06:59:54") state empty with
  | Returns (_, table') =>
      getLatestWorldState table' =
        Some {| position := (10, 64, -3)%Q; health := 20; food := 18;
                dimension := "overworld";
                timestamp := Some "2026-11-02 06:59:54"%string |}
  | Throws _ => False
  end.
Proof.
  intros state.
  assert (Hwf : well_formed empty) by constructor.
  split; [exact Hwf|].
  pose proof (proj1 (proj2 (WorldStates_latest_is_last_inserted
                              7 (Stamped "2026-11-02 06:59:54") state empty
                              WorldObserver.sample_bot None Hwf))) as H.
  simpl in H. destruct H as (stamp & Hw & Hget & _).
  injection Hw as <-. exact Hget.
Defined.

End WorldStatesFurther.

Section MemoryFurther.
Import JS MemoryManager MemorySessions.

Lemma save_repeatedly (mm : t) (j : nat) (db : DatabaseManager.t) :
  DatabaseManager.well_formed db ->
  fst (run (repeat CallSaveToDatabase j) (mm, db)) = mm /\
  length (DatabaseManager.stored (snd (run (repeat CallSaveToDatabase j) (mm, db)))) =
    (length (DatabaseManager.stored db) + j * length (getMessages mm))%nat.
Proof.
  unfold run. revert db.
  induction j as [|j IH]; intros db Hwf; simpl; [split; [reflexivity|lia]|].
  destruct (saveToDatabase_spec mm db Hwf) as [Hwf1 H1].
  destruct (IH _ Hwf1) as [Hmm Hlen]. split; [exact Hmm|].
  rewrite Hlen, H1, length_app. lia.
Qed.

(** X14. [saveToDatabase()] appends every message in memory each time
    it is called and never checks what is stored: saving twice stores
    each message twice, and a list of [k] messages saved [j] times adds
    [j * k] rows. *)
Theorem Memory_save_appends_again (mm : t) (db : DatabaseManager.t) (j : nat) :
  DatabaseManager.well_formed db ->
  let twice := saveToDatabase mm (saveToDatabase mm db) in
  let often := run (repeat CallSaveToDatabase j) (mm, db) in
  DatabaseManager.stored twice =
    DatabaseManager.stored db ++ getMessages mm ++ getMessages mm /\
  fst often = mm /\
  length (DatabaseManager.stored (snd often)) =
    (length (DatabaseManager.stored db) + j * length (getMessages mm))%nat.
Proof.
  intros Hwf twice often. split; [|exact (save_repeatedly mm j db Hwf)].
  destruct (saveToDatabase_spec mm db Hwf) as [Hwf1 H1].
  destruct (saveToDatabase_spec mm _ Hwf1) as [_ H2].
  subst twice. rewrite H2, H1, <- app_assoc. reflexivity.
Qed.

Lemma Memory_save_appends_again_witness :
  DatabaseManager.well_formed DatabaseManager.empty /\
  map content
    (DatabaseManager.stored
       (saveToDatabase two_messages (saveToDatabase two_messages DatabaseManager.empty)))
  = ["first"; "second"; "first"; "second"]%string.
Proof.
  split; [exact empty_well_formed|].
  rewrite (proj1 (Memory_save_appends_again two_messages DatabaseManager.empty 0
                    empty_well_formed)).
  reflexivity.
Defined.

(** X15. [trimToCount(count)] keeps the last [count] messages when
    [count] is positive; [trimToCount(0)] removes nothing, because
    [slice(-0)] is the whole list; and a negative count drops the first
    [-count] messages. *)
Theorem Memory_trimToCount_cases (count : Z) (mm : t) :
  getMessages (trimToCount count mm) =
    (if 0 <? count then lastn (Z.to_nat count) (getMessages mm)
     else if count =? 0 then getMessages mm
     else skipn (Z.to_nat (- count)) (getMessages mm)).
Proof.
  unfold getMessages.
  destruct (Z.ltb_spec 0 count) as [Hpos|Hle].
  - now apply trimToCount_lastn.
  - unfold trimToCount.
    destruct (Z.eqb_spec count 0) as [->|Hne].
    + destruct (_ >? _); [|reflexivity].
      unfold with_messages, slice; cbn [messages].
      change (- 0 <? 0) with false. cbv iota.
      rewrite Z.min_l by lia. reflexivity.
    + destruct (Z.gtb_spec (Z.of_nat (length (messages mm))) count); [|lia].
      unfold with_messages, slice; cbn [messages].
      destruct (Z.ltb_spec (- count) 0); [lia|].
      destruct (Z.le_ge_cases (- count) (Z.of_nat (length (messages mm))))
        as [Hin|Hout].
      * rewrite Z.min_l by lia. reflexivity.
      * rewrite Z.min_r by lia. rewrite Nat2Z.id.
        rewrite skipn_all. symmetry. apply skipn_all2. lia.
Qed.

(** X16. The system message is kept apart from the message list: no
    sequence of [addMessage], [updateTokenUsage], [trimToCount],
    [saveToDatabase], [loadFromDatabase] and [clear] calls changes it
    (so it is never trimmed and never cleared), and [setSystemMessage]
    changes neither the message list nor the usage. *)
Theorem Memory_system_message_is_separate
    (calls : list Call) (mm : t) (db : DatabaseManager.t) (c : string) :
  (forallb (fun call => negb (sets_system_message call)) calls = true ->
   systemMessage (fst (run calls (mm, db))) = systemMessage mm) /\
  getMessages (setSystemMessage c mm) = getMessages mm /\
  tokenUsage (setSystemMessage c mm) = tokenUsage mm.
Proof.
  split; [|split; reflexivity].
  unfold run. revert mm db.
  induction calls as [|call calls IH]; intros mm db Hcalls; simpl; [reflexivity|].
  simpl in Hcalls. apply andb_true_iff in Hcalls. destruct Hcalls as [Hc Hrest].
  destruct call; simpl in Hc; try discriminate; simpl;
    rewrite (IH _ _ Hrest); try reflexivity.
  - apply addMessage_frame.
  - unfold trimToCount. now destruct (_ >? _).
Qed.

Lemma Memory_system_message_is_separate_witness :
  let mm := setSystemMessage "You are AxiomMind" two_messages in
  let calls := [CallTrimToCount 1; CallClear] in
  forallb (fun call => negb (sets_system_message call)) calls = true /\
  systemMessage (fst (run calls (mm, DatabaseManager.empty))) =
    Some {| role := system; content := "You are AxiomMind" |}.
Proof.
  intros mm calls.
  assert (H : forallb (fun call => negb (sets_system_message call)) calls = true)
    by reflexivity.
  split; [exact H|].
  exact (proj1 (Memory_system_message_is_separate calls mm DatabaseManager.empty
                  EmptyString) H).
Defined.

End MemoryFurther.

Section TaskFurther.
Import JS TaskDecomposer TaskPlanning.

Lemma decomposeGoal_stamped g answer now td :
  completed_are_stamped td ->
  completed_are_stamped (snd (decomposeGoal g answer now td)).
Proof.
  intros Hinv. unfold decomposeGoal. destruct answer as [taskData|]; [|exact Hinv].
  cbn [snd]. unfold completed_are_stamped in *. cbn [tasks].
  generalize (tasks td) Hinv. clear Hinv.
  induction taskData as [|d taskData IH]; intros m Hm; cbn [map fold_left];
    [exact Hm|].
  apply IH. intros k task Hin Hst.
  apply Map_set_In in Hin. destruct Hin as [[= -> ->]|Hin].
  - simpl in Hst. discriminate.
  - now apply (Hm k task).
Qed.

Lemma session_stamped (events : list Event) :
  completed_are_stamped (session events).
Proof.
  unfold session.
  assert (H0 : completed_are_stamped constructor) by (intros k t0 []).
  revert H0. generalize constructor.
  induction events as [|e events IH]; intros td Htd; simpl; [exact Htd|].
  apply IH. destruct e as [g answer now|now c]; simpl.
  - now apply decomposeGoal_stamped.
  - apply (completed_implies_completedAt [(now, c)] td Htd).
Qed.

(** X17. Through any sequence of goal decompositions and
    [updateTaskStatus], [startTask], [completeTask] and [failTask]
    calls, every stored task whose status is 'completed' has its
    [completedAt] set. *)
Theorem TaskDecomposer_completed_has_completedAt
    (events : list Event) (taskId : string) (task : Task) :
  getTask taskId (session events) = Some task ->
  status task = completed ->
  completedAt task <> None.
Proof.
  intros Hget Hst.
  unfold getTask in Hget. apply Map_get_In in Hget. destruct Hget as [k Hin].
  exact (session_stamped events k task Hin Hst).
Qed.

Lemma TaskDecomposer_completed_has_completedAt_witness :
  let events :=
    [ Decomposed sample_goal (Some (chain_data 1 2 3 sample_data sample_data sample_data)) 0;
      Called 10 (CallCompleteTask "goal_1_task_1") ] in
  exists task,
    getTask "goal_1_task_1" (session events) = Some task /\
    status task = completed /\ completedAt task <> None.
Proof.
  intros events.
  destruct (getTask "goal_1_task_1" (session events)) as [task|] eqn:Hget;
    [|vm_compute in Hget; discriminate Hget].
  exists task.
  assert (Hst : status task = completed).
  { vm_compute in Hget. injection Hget as <-. reflexivity. }
  split; [reflexivity|]. split; [exact Hst|].
  exact (TaskDecomposer_completed_has_completedAt events "goal_1_task_1" task Hget Hst).
Defined.

Lemma Map_get_set_same m k v0 v :
  Map_get m k = Some v0 -> Map_get (Map_set m k v) k = Some v.
Proof.
  induction m as [|[k' v'] m IH]; simpl; [discriminate|].
  destruct (String.eqb k' k) eqn:E; simpl.
  - intros _. now rewrite String.eqb_refl.
  - rewrite E. exact IH.
Qed.

Lemma canExecuteTask_ready td task :
  canExecuteTask td task = true <-> ready td task.
Proof.
  unfold canExecuteTask, ready, getTask.
  destruct (status task) eqn:Hst; simpl;
    try (split; [discriminate|intros [H _]; discriminate]).
  rewrite forallb_forall. split.
  - intros Hall. split; [reflexivity|]. intros depId Hin.
    specialize (Hall depId Hin).
    destruct (Map_get (tasks td) depId) as [depTask|]; [|discriminate].
    exists depTask. split; [reflexivity|].
    destruct (status depTask); simpl in Hall; congruence.
  - intros [_ Hdeps] depId Hin.
    destruct (Hdeps depId Hin) as (depTask & -> & ->). reflexivity.
Qed.

(** X18. [startTask(id)] returns true exactly when the id names a stored
    task that is pending and each of whose dependencies names a stored,
    completed task; the task then becomes 'in_progress', so starting it
    again returns false and changes nothing; when [startTask] returns
    false the decomposer is unchanged. *)
Theorem TaskDecomposer_startTask_once (taskId : string) (td : t) :
  let r := startTask taskId td in
  (fst r = true <->
   exists task,
     getTask taskId td = Some task /\
     status task = pending /\
     forall depId, In depId (dependencies task) ->
       exists depTask,
         getTask depId td = Some depTask /\ status depTask = completed) /\
  (fst r = true ->
   option_map status (getTask taskId (snd r)) = Some in_progress /\
   startTask taskId (snd r) = (false, snd r)) /\
  (fst r = false -> snd r = td).
Proof.
  cbv zeta. unfold startTask.
  change (Map_get (tasks td) taskId) with (getTask taskId td).
  destruct (getTask taskId td) as [task|] eqn:Hget; simpl.
  - pose proof (canExecuteTask_ready td task) as Hready. unfold ready in Hready.
    destruct (canExecuteTask td task) eqn:Hcan; simpl.
    + split; [|split; [|discriminate]].
      * split; [intros _|reflexivity]. exists task.
        split; [reflexivity|]. now apply Hready.
      * intros _. unfold getTask in *. cbn [tasks].
        rewrite (Map_get_set_same _ _ _ _ Hget). simpl. split; [reflexivity|].
        unfold canExecuteTask. simpl. reflexivity.
    + split; [|split; [discriminate|reflexivity]].
      split; [discriminate|]. intros (task' & [= <-] & Hok).
      apply Hready in Hok. discriminate.
  - split; [|split; [discriminate|reflexivity]].
    split; [discriminate|]. intros (task' & Hnone & _). discriminate.
Qed.

(** X19. Every call that names a task id not in the map does nothing:
    [updateTaskStatus], [completeTask] and [failTask] leave the
    decomposer as it is, [startTask] returns false, and no task is
    created. *)
Theorem TaskDecomposer_unknown_id_is_ignored
    (now : Date) (taskId : string) (st : Status) (err : option string)
    (msg : string) (td : t) :
  getTask taskId td = None ->
  updateTaskStatus now taskId st err td = td /\
  completeTask now taskId td = td /\
  failTask now taskId msg td = td /\
  startTask taskId td = (false, td).
Proof.
  unfold getTask, completeTask, failTask, updateTaskStatus, startTask.
  intros ->. repeat split.
Qed.

Lemma TaskDecomposer_unknown_id_is_ignored_witness :
  getTask "missing" constructor = None /\
  completeTask 0 "missing" constructor = constructor.
Proof.
  split; [reflexivity|].
  exact (proj1 (proj2 (TaskDecomposer_unknown_id_is_ignored 0 "missing" completed
                         None EmptyString constructor eq_refl))).
Defined.

Lemma count_partition (l : list Task) :
  length l =
  (length (filter (fun task => Status_eqb (status task) pending) l) +
   length (filter (fun task => Status_eqb (status task) in_progress) l) +
   length (filter (fun task => Status_eqb (status task) completed) l) +
   length (filter (fun task => Status_eqb (status task) failed) l) +
   length (filter (fun task => Status_eqb (status task) blocked) l))%nat.
Proof.
  induction l as [|x l IH]; simpl; [reflexivity|].
  destruct (status x); simpl; lia.
Qed.

(** X20. In [getTaskStatistics(goalId?)] the five counts add up to
    [total]: every task is counted under exactly one status. *)
Theorem TaskDecomposer_statistics_add_up (goal : option string) (td : t) :
  let stats := getTaskStatistics goal td in
  total stats =
    (n_pending stats + n_inProgress stats + n_completed stats +
     n_failed stats + n_blocked stats)%nat.
Proof.
  cbv zeta. unfold getTaskStatistics.
  cbn [total n_pending n_inProgress n_completed n_failed n_blocked].
  apply count_partition.
Qed.

Lemma insert_by_priority_ascending_task x l :
  ascending l -> ascending (insert_by_priority x l).
Proof.
  induction l as [|y l IH]; simpl; intros Hl.
  - split; [constructor|exact I].
  - destruct Hl as [Hy Hl].
    destruct (Z.leb_spec (priority x) (priority y)) as [Hle|Hgt]; simpl.
    + split; [|split; assumption].
      constructor; [exact Hle|].
      eapply Forall_impl; [|exact Hy]. simpl. intros; lia.
    + split; [|now apply IH].
      apply Forall_forall. intros z Hz.
      apply insert_by_priority_In in Hz. destruct Hz as [->|Hz]; [lia|].
      rewrite Forall_forall in Hy. now apply Hy.
Qed.

Lemma sort_by_priority_ascending l : ascending (sort_by_priority l).
Proof.
  induction l as [|x l IH]; simpl; [exact I|].
  now apply insert_by_priority_ascending_task.
Qed.

Lemma find_in_ascending (p : Task -> bool) (l : list Task) (x : Task) :
  ascending l -> find p l = Some x ->
  forall y, In y l -> p y = true -> priority x <= priority y.
Proof.
  induction l as [|z l IH]; simpl; intros Hl Hfind y Hy Hp; [contradiction|].
  destruct Hl as [Hz Hl]. destruct (p z) eqn:Hpz.
  - injection Hfind as <-. destruct Hy as [->|Hy]; [lia|].
    rewrite Forall_forall in Hz. now apply Hz.
  - destruct Hy as [->|Hy]; [congruence|]. now apply (IH Hl Hfind y).
Qed.

(** X21. [getNextExecutableTask()] returns a stored task that is
    pending and each of whose dependencies names a stored, completed
    task, and no stored task of which this holds has a smaller priority
    value; it returns null exactly when this holds of no stored task. *)
Theorem TaskDecomposer_next_is_most_urgent (td : t) :
  match getNextExecutableTask td with
  | Some task =>
      In task (Map_values (tasks td)) /\
      status task = pending /\
      (forall depId, In depId (dependencies task) ->
         exists depTask,
           getTask depId td = Some depTask /\ status depTask = completed) /\
      (forall other, In other (Map_values (tasks td)) ->
                     ready td other ->
                     priority task <= priority other)
  | None =>
      forall other, In other (Map_values (tasks td)) ->
        ~ (status other = pending /\
           forall depId, In depId (dependencies other) ->
             exists depTask,
               getTask depId td = Some depTask /\ status depTask = completed)
  end.
Proof.
  unfold getNextExecutableTask, getPendingTasks.
  set (pendingTasks := filter _ (Map_values (tasks td))).
  assert (Hpending : forall x, In x pendingTasks <->
                               In x (Map_values (tasks td)) /\
                               Status_eqb (status x) pending = true).
  { intros x. apply filter_In. }
  assert (Hcan : forall x, canExecuteTask td x = true ->
                           Status_eqb (status x) pending = true).
  { intros x. unfold canExecuteTask.
    destruct (Status_eqb (status x) pending); [reflexivity|discriminate]. }
  destruct (find (canExecuteTask td) (sort_by_priority pendingTasks))
    as [task|] eqn:Hfind.
  - pose proof (find_some _ _ Hfind) as [Hin Hok].
    apply sort_by_priority_In, Hpending in Hin. destruct Hin as [Hin Hst].
    apply canExecuteTask_ready in Hok. destruct Hok as [Hpend Hdeps].
    split; [exact Hin|]. split; [exact Hpend|]. split; [exact Hdeps|].
    intros other Hother Hready. apply canExecuteTask_ready in Hready.
    apply (find_in_ascending _ _ _ (sort_by_priority_ascending _) Hfind);
      [|exact Hready].
    apply sort_by_priority_In, Hpending. split; [exact Hother|now apply Hcan].
  - intros other Hother Hready.
    apply (canExecuteTask_ready td other) in Hready.
    assert (Hin : In other (sort_by_priority pendingTasks)).
    { apply sort_by_priority_In, Hpending. split; [exact Hother|now apply Hcan]. }
    pose proof (find_none _ _ Hfind _ Hin). congruence.
Qed.

Example diamond_plan :
  let plan := createExecutionPlan "goal_1" diamond in
  parallelGroups plan =
    [ ["goal_1_task_1"]; ["goal_1_task_2"; "goal_1_task_3"]; ["goal_1_task_4"] ]%string /\
  executionOrder plan =
    [ "goal_1_task_1"; "goal_1_task_2"; "goal_1_task_3"; "goal_1_task_4" ]%string.
Proof. vm_compute. split; reflexivity. Qed.

Lemma Set_has_In s x : Set_has s x = true <-> In x s.
Proof.
  unfold Set_has. rewrite existsb_exists. split.
  - intros (y & Hin & Heq). apply String.eqb_eq in Heq. now subst.
  - intros Hin. exists x. split; [exact Hin|apply String.eqb_refl].
Qed.

Lemma Set_add_In s k x : In x (Set_add s k) <-> In x s \/ x = k.
Proof.
  unfold Set_add. destruct (Set_has s k) eqn:Hk.
  - apply Set_has_In in Hk. split; [tauto|]. intros [H| ->]; assumption.
  - rewrite in_app_iff. simpl. intuition auto.
Qed.

Lemma fold_Set_add_In l s x :
  In x (fold_left Set_add l s) <-> In x s \/ In x l.
Proof.
  revert s. induction l as [|k l IH]; intros s; simpl; [tauto|].
  rewrite IH, Set_add_In. intuition auto.
Qed.

Lemma Set_of_In l x : In x (Set_of l) <-> In x l.
Proof. unfold Set_of. rewrite fold_Set_add_In. simpl. tauto. Qed.

Lemma fold_Set_add_length l s :
  (length s <= length (fold_left Set_add l s))%nat.
Proof.
  revert s. induction l as [|k l IH]; intros s; simpl; [lia|].
  etransitivity; [|apply IH]. unfold Set_add.
  destruct (Set_has s k); [lia|]. rewrite length_app. simpl. lia.
Qed.

Lemma fold_Set_add_grows k ks s :
  Set_has s k = false ->
  (length s < length (fold_left Set_add (k :: ks) s))%nat.
Proof.
  intros Hk. simpl. unfold Set_add at 2. rewrite Hk.
  eapply Nat.lt_le_trans; [|apply fold_Set_add_length].
  rewrite length_app. simpl. lia.
Qed.

Lemma currentGroup_filter ts m completed :
  currentGroup_of ts m completed =
  map id (filter (fun task =>
                    negb (Set_has completed (id task)) &&
                    forallb (Set_has completed) (deps_of m (id task))) ts).
Proof.
  unfold currentGroup_of. induction ts as [|task ts IH]; simpl; [reflexivity|].
  rewrite IH. destruct (Set_has completed (id task)); simpl; [reflexivity|].
  destruct (forallb _ _); reflexivity.
Qed.

Lemma currentGroup_In ts m completed k :
  In k (currentGroup_of ts m completed) <->
  exists task, In task ts /\ id task = k /\
               Set_has completed k = false /\
               forallb (Set_has completed) (deps_of m k) = true.
Proof.
  rewrite currentGroup_filter, in_map_iff. split.
  - intros (task & <- & Hin). apply filter_In in Hin. destruct Hin as [Hin Hc].
    apply andb_true_iff in Hc. destruct Hc as [Hn Hd].
    exists task. repeat split; try assumption.
    now destruct (Set_has completed (id task)).
  - intros (task & Hin & <- & Hn & Hd). exists task. split; [reflexivity|].
    apply filter_In. split; [exact Hin|]. now rewrite Hn, Hd.
Qed.

(** Filtering the entries of a map keeps its keys distinct. *)
Lemma distinct_keys_filter {V K : Type} (key : V -> K) (keep : V -> bool)
    (entries : list V) (Hdistinct : NoDup (map key entries)) :
  NoDup (map key (filter keep entries)).
Proof.
  induction entries as [|e entries IH]; simpl; [constructor|].
  simpl in Hdistinct. apply NoDup_cons_iff in Hdistinct.
  destruct Hdistinct as [Hfresh Hrest].
  destruct (keep e); simpl; [|now apply IH].
  apply NoDup_cons_iff. split; [|now apply IH].
  rewrite in_map_iff. intros (e' & Hkey & Hin). apply filter_In in Hin.
  apply Hfresh. rewrite in_map_iff. exists e'. tauto.
Qed.

Lemma split_in_app {A : Type} (l1 l2 a b : list A) (k : A) :
  l1 ++ l2 = a ++ k :: b ->
  (exists b', l1 = a ++ k :: b') \/
  (exists g1 g2, l2 = g1 ++ k :: g2 /\ a = l1 ++ g1).
Proof.
  revert a. induction l1 as [|x l1 IH]; intros a H; simpl in H.
  - right. exists a, b. split; [exact H|reflexivity].
  - destruct a as [|y a]; simpl in H.
    + injection H as <- H. left. exists l1. reflexivity.
    + injection H as <- H. destruct (IH a H) as [(b' & ->)|(g1 & g2 & -> & ->)].
      * left. exists b'. reflexivity.
      * right. exists g1, g2. split; reflexivity.
Qed.

Lemma plan_invariant_step ts m completed order groups k ks :
  NoDup (map id ts) ->
  plan_invariant ts m completed order groups ->
  currentGroup_of ts m completed = k :: ks ->
  plan_invariant ts m (fold_left Set_add (k :: ks) completed)
                 (order ++ k :: ks) (groups ++ [k :: ks]).
Proof.
  intros Hids (Hsame & Hnd & Hcat & Hne & Hts & Hdeps) Hg.
  assert (Hmem : forall x, In x (k :: ks) ->
             exists task, In task ts /\ id task = x /\
                          Set_has completed x = false /\
                          forallb (Set_has completed) (deps_of m x) = true).
  { intros x Hx. rewrite <- Hg in Hx. now apply currentGroup_In in Hx. }
  unfold plan_invariant. split; [|split; [|split; [|split; [|split]]]].
  - intros x. rewrite fold_Set_add_In, in_app_iff, Hsame. tauto.
  - apply NoDup_app; [exact Hnd| |].
    + rewrite <- Hg, currentGroup_filter. now apply distinct_keys_filter.
    + intros x Hx Hx'. destruct (Hmem x Hx') as (_ & _ & _ & Hn & _).
      apply Hsame, Set_has_In in Hx. congruence.
  - rewrite concat_app, Hcat. simpl. now rewrite app_nil_r.
  - apply Forall_app. split; [exact Hne|]. constructor; [discriminate|constructor].
  - intros x Hx. apply in_app_iff in Hx. destruct Hx as [Hx|Hx]; [now apply Hts|].
    destruct (Hmem x Hx) as (task & Hin & Hid & _). eauto.
  - intros a x b Hsplit d Hd.
    apply split_in_app in Hsplit.
    destruct Hsplit as [(b' & Ho)|(g1 & g2 & Hgs & ->)].
    + now apply (Hdeps a x b' Ho).
    + apply in_app_iff. left.
      assert (Hx : In x (k :: ks)) by (rewrite Hgs; apply in_elt).
      destruct (Hmem x Hx) as (_ & _ & _ & _ & Hall).
      rewrite forallb_forall in Hall. apply Hsame, Set_has_In, Hall, Hd.
Qed.

Lemma plan_loop_invariant fuel ts m completed order groups :
  NoDup (map id ts) ->
  plan_invariant ts m completed order groups ->
  exists completed',
    plan_invariant ts m completed'
      (fst (plan_loop fuel ts m completed order groups))
      (snd (plan_loop fuel ts m completed order groups)).
Proof.
  intros Hids. revert completed order groups.
  induction fuel as [|fuel IH]; intros completed order groups Hinv; simpl.
  - now exists completed.
  - destruct (length completed <? length ts)%nat; [|now exists completed].
    destruct (currentGroup_of ts m completed) as [|k ks] eqn:Hg;
      [now exists completed|].
    apply IH. now apply plan_invariant_step.
Qed.

(** The loop needs no more iterations than there are tasks left. *)
Lemma plan_loop_fuel n n' ts m completed order groups :
  (length ts - length completed <= n)%nat ->
  (length ts - length completed <= n')%nat ->
  plan_loop n ts m completed order groups =
  plan_loop n' ts m completed order groups.
Proof.
  revert n' completed order groups.
  induction n as [|n IH]; intros n' completed order groups Hn Hn'.
  - destruct n' as [|n']; [reflexivity|]. simpl.
    destruct (Nat.ltb_spec (length completed) (length ts)); [lia|reflexivity].
  - destruct n' as [|n']; simpl.
    + destruct (Nat.ltb_spec (length completed) (length ts)); [lia|reflexivity].
    + destruct (Nat.ltb_spec (length completed) (length ts)); [|reflexivity].
      destruct (currentGroup_of ts m completed) as [|k ks] eqn:Hg; [reflexivity|].
      assert (Hk : Set_has completed k = false).
      { assert (Hin : In k (currentGroup_of ts m completed))
          by (rewrite Hg; now left).
        apply currentGroup_In in Hin. now destruct Hin as (_ & _ & _ & Hc & _). }
      pose proof (fold_Set_add_grows k ks completed Hk) as Hgrow.
      simpl in Hgrow. apply IH; lia.
Qed.

Lemma Deps_get_set m k v k' :
  Deps_get (Deps_set m k v) k' =
  if String.eqb k k' then Some v else Deps_get m k'.
Proof.
  induction m as [|[k0 v0] m IH]; simpl; [reflexivity|].
  destruct (String.eqb_spec k0 k) as [->|Hne]; simpl.
  - destruct (String.eqb k k'); reflexivity.
  - rewrite IH. destruct (String.eqb_spec k0 k') as [->|]; [|reflexivity].
    destruct (String.eqb_spec k k'); [congruence|reflexivity].
Qed.

Lemma dependencyMap_other ts m k :
  ~ In k (map id ts) ->
  Deps_get (fold_left (fun m task => Deps_set m (id task) (Set_of (dependencies task)))
                      ts m) k = Deps_get m k.
Proof.
  revert m. induction ts as [|task ts IH]; intros m Hk; simpl; [reflexivity|].
  simpl in Hk. rewrite IH by tauto. rewrite Deps_get_set.
  destruct (String.eqb_spec (id task) k); [tauto|reflexivity].
Qed.

Lemma dependencyMap_own ts task :
  NoDup (map id ts) -> In task ts ->
  deps_of (dependencyMap_of ts) (id task) = Set_of (dependencies task).
Proof.
  unfold deps_of, dependencyMap_of. generalize (@nil (string * StringSet)) as m.
  induction ts as [|x ts IH]; intros m Hnd Hin; simpl in *; [contradiction|].
  inversion Hnd as [|? ? Hx Hts]; subst.
  destruct Hin as [->|Hin].
  - rewrite dependencyMap_other by exact Hx.
    now rewrite Deps_get_set, String.eqb_refl.
  - now apply IH.
Qed.

Lemma Map_get_In_key m k task : Map_get m k = Some task -> In (k, task) m.
Proof.
  induction m as [|[k' v] m IH]; simpl; [discriminate|].
  destruct (String.eqb_spec k' k) as [->|].
  - intros [= ->]. now left.
  - intros H. right. now apply IH.
Qed.

Lemma Map_set_keys m k v :
  map fst (Map_set m k v) =
  if existsb (String.eqb k) (map fst m) then map fst m else map fst m ++ [k].
Proof.
  induction m as [|[k' v'] m IH]; simpl; [reflexivity|].
  destruct (String.eqb_spec k' k) as [->|Hne]; simpl.
  - now rewrite String.eqb_refl.
  - rewrite IH. destruct (String.eqb_spec k k'); [congruence|]. simpl.
    now destruct (existsb _ _).
Qed.

Lemma Map_set_keyed m k task :
  valid_map m -> (forall k' t', In (k', t') m -> id t' = k') -> id task = k ->
  valid_map (Map_set m k task) /\
  (forall k' t', In (k', t') (Map_set m k task) -> id t' = k').
Proof.
  intros Hnd Hkey Hid. split.
  - unfold valid_map in *. rewrite Map_set_keys.
    destruct (existsb (String.eqb k) (map fst m)) eqn:He; [exact Hnd|].
    apply NoDup_app; [exact Hnd|repeat constructor; intros []|].
    intros x Hx [Heq|[]]. subst x.
    assert (existsb (String.eqb k) (map fst m) = true).
    { apply existsb_exists. exists k. split; [exact Hx|apply String.eqb_refl]. }
    congruence.
  - intros k' t' Hin. apply Map_set_In in Hin.
    destruct Hin as [[= -> ->]|Hin]; [exact Hid|now apply Hkey].
Qed.

Lemma session_keyed (events : list Event) : keyed (session events).
Proof.
  unfold session.
  assert (H0 : keyed constructor).
  { split; [constructor|intros k t0 []]. }
  revert H0. generalize constructor.
  induction events as [|e events IH]; intros td Htd; simpl; [exact Htd|].
  apply IH. clear IH. destruct Htd as [Hnd Hkey].
  assert (Hupd : forall now k st err, keyed (updateTaskStatus now k st err td)).
  { intros now k st err. unfold updateTaskStatus.
    destruct (Map_get (tasks td) k) as [task|] eqn:Hget; [|now split].
    apply Map_get_In_key in Hget.
    apply Map_set_keyed; [exact Hnd|exact Hkey|]. simpl. now apply Hkey. }
  destruct e as [g answer now|now c]; simpl.
  - unfold decomposeGoal. destruct answer as [taskData|]; [|now split].
    cbn [snd]. unfold keyed. cbn [tasks].
    generalize (tasks td) Hnd Hkey. clear.
    induction taskData as [|d taskData IH]; intros m Hnd Hkey; cbn [map fold_left];
      [now split|].
    destruct (Map_set_keyed m (id (task_of g now d)) (task_of g now d) Hnd Hkey eq_refl)
      as [Hnd' Hkey'].
    now apply IH.
  - destruct c as [k st err|k|k|k err]; simpl; try apply Hupd.
    unfold startTask. destruct (Map_get (tasks td) k) as [task|] eqn:Hget;
      [|now split].
    destruct (negb (canExecuteTask td task)); [now split|]. cbn [snd].
    apply Map_get_In_key in Hget.
    apply Map_set_keyed; [exact Hnd|exact Hkey|]. simpl. now apply Hkey.
Qed.

Lemma keyed_ids_NoDup td goal :
  keyed td -> NoDup (map id (getTasksForGoal goal td)).
Proof.
  intros [Hnd Hkey]. unfold getTasksForGoal. apply distinct_keys_filter.
  unfold Map_values. rewrite map_map. unfold valid_map in Hnd.
  erewrite map_ext_in; [exact Hnd|].
  intros [k task] Hin. simpl. now apply Hkey.
Qed.

(** X22. [createExecutionPlan(goalId)] on any decomposer: the loop is
    finished after as many iterations as the goal has tasks (more change
    nothing); the groups are non-empty and, joined, give the execution
    order; the order lists ids of tasks of the goal, none twice; and
    every dependency of a listed task stands earlier in the order, so a
    task that waits for an unknown or unplaced task is left out. *)
Theorem TaskDecomposer_plan_respects_dependencies
    (events : list Event) (goal : string) :
  let td := session events in
  let ts := getTasksForGoal goal td in
  let plan := createExecutionPlan goal td in
  (forall extra,
     plan_loop (length ts + extra) ts (dependencyMap_of ts) [] [] [] =
     (executionOrder plan, parallelGroups plan)) /\
  plan_tasks plan = ts /\
  concat (parallelGroups plan) = executionOrder plan /\
  Forall (fun g => g <> []) (parallelGroups plan) /\
  NoDup (executionOrder plan) /\
  (forall k, In k (executionOrder plan) -> exists task, In task ts /\ id task = k) /\
  (forall task a b,
     In task ts -> executionOrder plan = a ++ id task :: b ->
     forall d, In d (dependencies task) -> In d a).
Proof.
  intros td ts plan.
  pose proof (keyed_ids_NoDup td goal (session_keyed events)) as Hids. fold ts in Hids.
  assert (Hplan : (executionOrder plan, parallelGroups plan) =
                  plan_loop (length ts) ts (dependencyMap_of ts) [] [] []).
  { subst plan. unfold createExecutionPlan. fold ts.
    destruct (plan_loop (length ts) ts (dependencyMap_of ts) [] [] []). reflexivity. }
  assert (H0 : plan_invariant ts (dependencyMap_of ts) [] [] []).
  { unfold plan_invariant. repeat split; try tauto; try constructor.
    - intros k [].
    - intros a k b H. destruct a; discriminate. }
  destruct (plan_loop_invariant (length ts) ts (dependencyMap_of ts) [] [] [] Hids H0)
    as (completed' & _ & Hnd & Hcat & Hne & Hts & Hdeps).
  rewrite <- Hplan in *. cbn [fst snd] in *.
  split; [|split; [|split; [|split; [|split; [|split]]]]]; try assumption.
  - intros extra. rewrite Hplan. apply plan_loop_fuel; simpl; lia.
  - subst plan. unfold createExecutionPlan. fold ts.
    now destruct (plan_loop (length ts) ts (dependencyMap_of ts) [] [] []).
  - intros task a b Hin Hsplit d Hd.
    apply (Hdeps a (id task) b Hsplit).
    rewrite (dependencyMap_own ts task Hids Hin). now apply Set_of_In.
Qed.

Lemma Map_get_of_In m k task :
  valid_map m -> In (k, task) m -> Map_get m k = Some task.
Proof.
  unfold valid_map. induction m as [|[k' v] m IH]; simpl; intros Hnd Hin;
    [contradiction|].
  inversion Hnd as [|? ? Hk Hm]; subst.
  destruct Hin as [[= -> ->]|Hin]; [now rewrite String.eqb_refl|].
  destruct (String.eqb_spec k' k) as [->|]; [|now apply IH].
  exfalso. apply Hk. apply in_map_iff. now exists (k, task).
Qed.

Lemma Map_delete_filter m k :
  valid_map m ->
  Map_delete m k = filter (fun e => negb (String.eqb (fst e) k)) m.
Proof.
  unfold valid_map. induction m as [|[k' v] m IH]; simpl; intros Hnd;
    [reflexivity|].
  inversion Hnd as [|? ? Hk Hm]; subst.
  destruct (String.eqb_spec k' k) as [->|Hne]; simpl; [|now rewrite IH].
  symmetry. apply filter_all. apply Forall_forall. intros [k0 v0] Hin. simpl.
  destruct (String.eqb_spec k0 k) as [->|]; [|reflexivity].
  exfalso. apply Hk. apply in_map_iff. now exists (k, v0).
Qed.

Lemma filter_twice {A : Type} (f g : A -> bool) (l : list A) :
  filter f (filter g l) = filter (fun x => g x && f x) l.
Proof.
  induction l as [|x l IH]; simpl; [reflexivity|].
  destruct (g x); simpl; [destruct (f x); now rewrite IH|exact IH].
Qed.

Lemma fold_Map_delete_filter ks m :
  valid_map m ->
  fold_left Map_delete ks m =
  filter (fun e => negb (existsb (String.eqb (fst e)) ks)) m.
Proof.
  revert m. induction ks as [|k ks IH]; intros m Hnd; simpl.
  - symmetry. apply filter_all. now apply Forall_forall.
  - rewrite IH.
    + rewrite (Map_delete_filter m k Hnd), filter_twice.
      apply filter_ext. intros [k0 v0]. simpl.
      destruct (String.eqb k0 k); reflexivity.
    + rewrite (Map_delete_filter m k Hnd). unfold valid_map in *.
      now apply distinct_keys_filter.
Qed.

Lemma clearTasksForGoal_filter goal td :
  keyed td ->
  tasks (clearTasksForGoal goal td) =
  filter (fun e => negb (String.eqb (goalId (snd e)) goal)) (tasks td).
Proof.
  intros [Hnd _]. unfold clearTasksForGoal. cbn [tasks].
  rewrite (fold_Map_delete_filter _ _ Hnd).
  apply filter_ext_in. intros [k task] Hin. cbn [fst snd]. f_equal.
  pose proof (Map_get_of_In _ _ _ Hnd Hin) as Hget.
  destruct (String.eqb (goalId task) goal) eqn:Hg.
  - apply existsb_exists. exists k. split; [|apply String.eqb_refl].
    apply filter_In. split; [apply in_map_iff; now exists (k, task)|].
    now rewrite Hget.
  - destruct (existsb (String.eqb k) _) eqn:He; [|reflexivity].
    apply existsb_exists in He. destruct He as (k' & Hin' & Heq).
    apply String.eqb_eq in Heq. subst k'. apply filter_In in Hin'.
    destruct Hin' as [_ Htest]. rewrite Hget in Htest. congruence.
Qed.

(** X23. [clearTasksForGoal(goalId)] removes exactly the tasks of that
    goal: afterwards the goal has no task, the tasks of every other goal
    are the same and in the same order, and a lookup by id finds a task
    exactly when it was stored for another goal. *)
Theorem TaskDecomposer_clearTasksForGoal_exact
    (events : list Event) (goal : string) :
  let td := session events in
  let cleared := clearTasksForGoal goal td in
  getTasksForGoal goal cleared = [] /\
  (forall other, other <> goal ->
     getTasksForGoal other cleared = getTasksForGoal other td) /\
  (forall task, In task (Map_values (tasks cleared)) <->
                In task (Map_values (tasks td)) /\ goalId task <> goal) /\
  keyed cleared.
Proof.
  intros td cleared.
  pose proof (session_keyed events) as Hkeyed. fold td in Hkeyed.
  pose proof (clearTasksForGoal_filter goal td Hkeyed) as Hf. fold cleared in Hf.
  assert (Hvalues : Map_values (tasks cleared) =
                    filter (fun task => negb (String.eqb (goalId task) goal))
                           (Map_values (tasks td))).
  { unfold Map_values. rewrite Hf. generalize (tasks td) as m.
    induction m as [|[k task] m IH]; simpl; [reflexivity|].
    destruct (String.eqb (goalId task) goal); simpl; now rewrite IH. }
  split; [|split; [|split]].
  - unfold getTasksForGoal. rewrite Hvalues, filter_twice.
    apply filter_none. apply Forall_forall. intros task _.
    now destruct (String.eqb (goalId task) goal).
  - intros other Hother. unfold getTasksForGoal. rewrite Hvalues, filter_twice.
    apply filter_ext. intros task.
    destruct (String.eqb_spec (goalId task) goal) as [Hg|Hg]; simpl; [|reflexivity].
    symmetry. apply String.eqb_neq. congruence.
  - intros task. rewrite Hvalues, filter_In. split; intros [Hin Hg]; (split; [exact Hin|]).
    + intros Heq. rewrite Heq, String.eqb_refl in Hg. discriminate.
    + apply String.eqb_neq in Hg. now rewrite Hg.
  - destruct Hkeyed as [Hnd Hkey]. split.
    + unfold valid_map in *. rewrite Hf. now apply distinct_keys_filter.
    + intros k task Hin. rewrite Hf in Hin. apply filter_In in Hin.
      now apply Hkey.
Qed.

End TaskFurther.

Section InventoryFurther.
Import JS InventoryTracker InventoryQueries.

Example nearly_full_threshold :
  map (fun n => (percentage (getSpaceInfo (stacks_of n)), isNearlyFull None (stacks_of n)))
      [28; 29; 36]%nat =
  [ (Some 78, false); (Some 81, true); (Some 100, true) ].
Proof. vm_compute. reflexivity. Qed.

Lemma onInventoryChange_bounded now inv tr :
  Z.of_nat (length (changeHistory tr)) <= maxHistorySize ->
  Z.of_nat (length (changeHistory (onInventoryChange now inv tr))) <= maxHistorySize.
Proof.
  intros Hlen. unfold onInventoryChange. cbn [changeHistory].
  destruct (0 <? _); [|exact Hlen].
  set (pushed := changeHistory tr ++ _).
  destruct (Z.gtb_spec (Z.of_nat (length pushed)) maxHistorySize) as [Hgt|Hle];
    [|exact Hle].
  unfold slice, maxHistorySize in *. rewrite length_skipn.
  destruct (Z.ltb_spec (- (100)) 0); lia.
Qed.

Lemma onInventoryChange_suffix now inv tr :
  exists dropped,
    changeHistory tr ++
      (detectChanges now (previousInventory tr) (getInventoryMap inv) ++
       detectRemoved now (previousInventory tr) (getInventoryMap inv)) =
    dropped ++ changeHistory (onInventoryChange now inv tr).
Proof.
  unfold onInventoryChange. cbn [changeHistory].
  set (changes := detectChanges _ _ _ ++ detectRemoved _ _ _).
  destruct (Z.ltb_spec 0 (Z.of_nat (length changes))) as [Hpos|Hzero].
  - destruct (_ >? _).
    + unfold slice, maxHistorySize.
      change (- (100) <? 0) with true. cbv iota.
      eexists (firstn _ (changeHistory tr ++ changes)).
      symmetry. apply firstn_skipn.
    + now exists [].
  - destruct changes; [|simpl in Hzero; lia].
    exists []. now rewrite app_nil_r.
Qed.

(** X24. The change history of the tracker never holds more than 100
    records, however many changes one event brings; what an event leaves
    is the end of the old history followed by the event's changes, so
    the records dropped are the oldest. *)
Theorem InventoryTracker_history_at_most_100
    (inv0 : Inventory) (events : list Event) (now : Date) (inv : Inventory) :
  let tr := run inv0 events in
  Z.of_nat (length (changeHistory tr)) <= 100 /\
  exists dropped,
    changeHistory tr ++
      (detectChanges now (previousInventory tr) (getInventoryMap inv) ++
       detectRemoved now (previousInventory tr) (getInventoryMap inv)) =
    dropped ++ changeHistory (onInventoryChange now inv tr).
Proof.
  cbv zeta. split; [|apply onInventoryChange_suffix].
  unfold run.
  assert (H0 : Z.of_nat (length (changeHistory (constructor inv0))) <= maxHistorySize)
    by (unfold maxHistorySize; simpl; lia).
  revert H0. generalize (constructor inv0) as tr.
  induction events as [|e events IH]; intros tr Htr; simpl; [exact Htr|].
  apply IH. destruct e as [now' inv'|inv']; simpl; [|exact Htr].
  now apply onInventoryChange_bounded.
Qed.

Lemma Count_get_set m k v k' :
  Map_get (Map_set m k v) k' =
  if String.eqb k k' then Some v else Map_get m k'.
Proof.
  induction m as [|[k0 v0] m IH]; simpl; [reflexivity|].
  destruct (String.eqb_spec k0 k) as [->|Hne]; simpl.
  - destruct (String.eqb k k'); reflexivity.
  - rewrite IH. destruct (String.eqb_spec k0 k') as [->|]; [|reflexivity].
    destruct (String.eqb_spec k k'); [congruence|reflexivity].
Qed.

Lemma fold_sum_shift (l : list Item) (a : Z) :
  fold_left (fun sum it => sum + item_count it) l a =
  a + fold_left (fun sum it => sum + item_count it) l 0.
Proof.
  revert a. induction l as [|x l IH]; intros a; simpl; [lia|].
  rewrite (IH (a + item_count x)), (IH (item_count x)). lia.
Qed.

Lemma getItemCount_stacked itemName stacks :
  getItemCount itemName (Some stacks) = stacked itemName stacks.
Proof.
  unfold getItemCount. induction stacks as [|it stacks IH]; simpl; [reflexivity|].
  destruct (String.eqb (item_name it) itemName); simpl; [|exact IH].
  rewrite fold_sum_shift, IH. reflexivity.
Qed.

Lemma getInventoryMap_fold stacks m itemName :
  or_0 (Map_get
          (fold_left
             (fun m it => Map_set m (item_name it)
                                  (or_0 (Map_get m (item_name it)) + item_count it))
             stacks m) itemName) =
  or_0 (Map_get m itemName) + stacked itemName stacks.
Proof.
  revert m. induction stacks as [|it stacks IH]; intros m; simpl; [lia|].
  rewrite IH, Count_get_set.
  destruct (String.eqb_spec (item_name it) itemName) as [->|]; simpl; lia.
Qed.

Lemma getInventoryMap_has stacks m itemName :
  Map_has (fold_left
             (fun m it => Map_set m (item_name it)
                                  (or_0 (Map_get m (item_name it)) + item_count it))
             stacks m) itemName =
  Map_has m itemName ||
  existsb (fun it => String.eqb (item_name it) itemName) stacks.
Proof.
  revert m. induction stacks as [|it stacks IH]; intros m; simpl;
    [now rewrite orb_false_r|].
  rewrite IH. unfold Map_has at 1. rewrite Count_get_set.
  destruct (String.eqb (item_name it) itemName); simpl; [|reflexivity].
  now rewrite orb_true_r.
Qed.

(** X25. The aggregate map the tracker compares agrees with the item
    queries: for every item name the count in [getInventoryMap()] is
    [getItemCount(name)], the sum over the stacks of that name, and the
    map has an entry for the name exactly when [findItem(name)] finds a
    stack. *)
Theorem InventoryTracker_map_agrees_with_counts (itemName : string) (inv : Inventory) :
  or_0 (Map_get (getInventoryMap inv) itemName) = getItemCount itemName inv /\
  Map_has (getInventoryMap inv) itemName =
    match findItem itemName inv with Some _ => true | None => false end /\
  hasItem itemName None inv = (1 <=? or_0 (Map_get (getInventoryMap inv) itemName)).
Proof.
  assert (Hcount : or_0 (Map_get (getInventoryMap inv) itemName) =
                   getItemCount itemName inv).
  { destruct inv as [stacks|]; [|reflexivity].
    rewrite getItemCount_stacked. unfold getInventoryMap.
    rewrite getInventoryMap_fold. simpl. lia. }
  split; [exact Hcount|]. split.
  - destruct inv as [stacks|]; [|reflexivity].
    unfold getInventoryMap, findItem. rewrite getInventoryMap_has.
    clear Hcount. cbn [Map_has Map_get orb].
    induction stacks as [|it stacks IH]; simpl; [reflexivity|].
    destruct (String.eqb (item_name it) itemName); [reflexivity|exact IH].
  - unfold hasItem. rewrite Hcount. apply Z.geb_leb.
Qed.

Lemma Count_set_keys m k v :
  map fst (Map_set m k v) =
  if existsb (String.eqb k) (map fst m) then map fst m else map fst m ++ [k].
Proof.
  induction m as [|[k' v'] m IH]; simpl; [reflexivity|].
  destruct (String.eqb_spec k' k) as [->|Hne]; simpl.
  - now rewrite String.eqb_refl.
  - rewrite IH. destruct (String.eqb_spec k k'); [congruence|]. simpl.
    now destruct (existsb _ _).
Qed.

Lemma Count_set_valid m k v : valid_map m -> valid_map (Map_set m k v).
Proof.
  unfold valid_map. intros Hnd. rewrite Count_set_keys.
  destruct (existsb (String.eqb k) (map fst m)) eqn:He; [exact Hnd|].
  apply NoDup_app; [exact Hnd|repeat constructor; intros []|].
  intros x Hx [Heq|[]]. subst x.
  assert (existsb (String.eqb k) (map fst m) = true).
  { apply existsb_exists. exists k. split; [exact Hx|apply String.eqb_refl]. }
  congruence.
Qed.

Lemma getInventoryMap_valid inv : valid_map (getInventoryMap inv).
Proof.
  destruct inv as [stacks|]; simpl; [|constructor].
  assert (H0 : valid_map []) by constructor.
  revert H0. generalize (@nil (string * Z)) as m.
  induction stacks as [|it stacks IH]; intros m Hm; simpl; [exact Hm|].
  apply IH. now apply Count_set_valid.
Qed.

Lemma Count_get_of_In m k v :
  valid_map m -> In (k, v) m -> Map_get m k = Some v.
Proof.
  unfold valid_map. induction m as [|[k' v'] m IH]; simpl; intros Hnd Hin;
    [contradiction|].
  inversion Hnd as [|? ? Hk Hm]; subst.
  destruct Hin as [[= -> ->]|Hin]; [now rewrite String.eqb_refl|].
  destruct (String.eqb_spec k' k) as [->|]; [|now apply IH].
  exfalso. apply Hk. apply in_map_iff. now exists (k, v).
Qed.

Lemma flat_map_nil {A B : Type} (f : A -> list B) (l : list A) :
  (forall x, In x l -> f x = []) -> flat_map f l = [].
Proof.
  induction l as [|x l IH]; simpl; intros H; [reflexivity|].
  rewrite (H x) by now left. simpl. apply IH. intros y Hy. apply H. now right.
Qed.

(** X26. An event that finds the inventory as the tracker last saw it
    records nothing; in particular, once [updateInventorySnapshot()] has
    run (as it does when [AxiomMind] observes, in every decision cycle),
    the changes made up to then are never reported by a later event. *)
Theorem InventoryTracker_snapshot_absorbs_changes
    (now : Date) (inv : Inventory) (tr : t) :
  onInventoryChange now inv (updateInventorySnapshot inv tr) =
    updateInventorySnapshot inv tr /\
  changeHistory (onInventoryChange now inv (updateInventorySnapshot inv tr)) =
    changeHistory tr /\
  onInventoryChange now inv (onInventoryChange now inv tr) =
    onInventoryChange now inv tr.
Proof.
  assert (Hsame : forall tr0,
             previousInventory tr0 = getInventoryMap inv ->
             onInventoryChange now inv tr0 = tr0).
  { intros tr0 Hprev. unfold onInventoryChange. rewrite Hprev.
    pose proof (getInventoryMap_valid inv) as Hvalid.
    set (m := getInventoryMap inv) in *.
    assert (H1 : detectChanges now m m = []).
    { unfold detectChanges. apply flat_map_nil. intros [k v] Hin.
      rewrite (Count_get_of_In m k v Hvalid Hin). simpl.
      now rewrite Z.eqb_refl. }
    assert (H2 : detectRemoved now m m = []).
    { unfold detectRemoved. apply flat_map_nil. intros [k v] Hin.
      unfold Map_has. now rewrite (Count_get_of_In m k v Hvalid Hin). }
    rewrite H1, H2. simpl. destruct tr0; simpl in *. now subst. }
  split; [now apply Hsame|]. split.
  - rewrite Hsame by reflexivity. reflexivity.
  - now apply Hsame.
Qed.

Lemma fold_sum_stacks (l : list Item) :
  fold_left (fun sum it => sum + item_count it) l 0 =
  fold_right (fun it sum => item_count it + sum) 0 l.
Proof.
  induction l as [|x l IH]; simpl; [reflexivity|].
  rewrite fold_sum_shift, IH. reflexivity.
Qed.

(** X27. In [getInventorySummary()], used and free slots add up to the
    36 total slots, [totalItems] is the sum of the stack counts, every
    category holds stacks of the inventory only, and every stack is in
    at least one of the seven categories, [other] being exactly the
    stacks in none of the six named ones. *)
Theorem InventoryTracker_summary_covers (inv : Inventory) (it : Item) :
  let summary := getInventorySummary inv in
  let c := categories summary in
  usedSlots summary + freeSlots summary = totalSlots summary /\
  totalSlots summary = 36 /\
  totalItems summary =
    fold_right (fun i sum => item_count i + sum) 0 (items summary) /\
  (In it (items summary) <->
   In it (tools c) \/ In it (weapons c) \/ In it (armor c) \/ In it (food c) \/
   In it (blocks c) \/ In it (ores c) \/ In it (other c)) /\
  (In it (other c) <->
   In it (items summary) /\
   ~ (In it (tools c) \/ In it (weapons c) \/ In it (armor c) \/ In it (food c) \/
      In it (blocks c) \/ In it (ores c))).
Proof.
  destruct inv as [stacks|]; cbv zeta.
  - unfold getInventorySummary.
    cbn [usedSlots freeSlots totalSlots totalItems items categories
         tools weapons armor food blocks ores other].
    split; [lia|]. split; [reflexivity|]. split; [apply fold_sum_stacks|].
    rewrite !filter_In.
    destruct (isTool (item_name it)), (isWeapon (item_name it)),
      (isArmor (item_name it)), (isFood (item_name it)),
      (isBlock (item_name it)), (isOre (item_name it)); simpl;
      split; intuition congruence.
  - simpl. split; [lia|]. split; [reflexivity|]. split; [reflexivity|]. tauto.
Qed.

Lemma space_depends_on_length (stacks : list Item) :
  getSpaceInfo (Some stacks) = getSpaceInfo (stacks_of (length stacks)) /\
  isNearlyFull None (Some stacks) = isNearlyFull None (stacks_of (length stacks)) /\
  isFull (Some stacks) = isFull (stacks_of (length stacks)).
Proof.
  assert (H : getSpaceInfo (Some stacks) = getSpaceInfo (stacks_of (length stacks))).
  { unfold getSpaceInfo, getInventorySummary, stacks_of.
    cbn [usedSlots freeSlots totalSlots]. now rewrite length_map, length_seq. }
  unfold isNearlyFull, isFull. rewrite H. repeat split.
Qed.

(** X28. With at most 36 stacks, [isFull()] holds exactly when all 36
    slots are used, and [isNearlyFull()] with its default threshold 0.8
    holds exactly when at least 29 are: 28 of 36 round to 78 percent,
    29 to 81. *)
Theorem InventoryTracker_nearly_full_from_29 (stacks : list Item) :
  (length stacks <= 36)%nat ->
  isFull (Some stacks) = (length stacks =? 36)%nat /\
  isNearlyFull None (Some stacks) = (29 <=? length stacks)%nat.
Proof.
  intros Hlen.
  destruct (space_depends_on_length stacks) as (_ & -> & ->).
  assert (Hall : forallb (fun n =>
             Bool.eqb (isFull (stacks_of n)) (n =? 36)%nat &&
             Bool.eqb (isNearlyFull None (stacks_of n)) (29 <=? n)%nat)
             (seq 0 37) = true) by (vm_compute; reflexivity).
  rewrite forallb_forall in Hall.
  specialize (Hall (length stacks)).
  assert (Hin : In (length stacks) (seq 0 37)) by (apply in_seq; lia).
  apply Hall, andb_true_iff in Hin. destruct Hin as [H1 H2].
  apply Bool.eqb_prop in H1, H2. now split.
Qed.

Lemma InventoryTracker_nearly_full_from_29_witness :
  (length (match stacks_of 29 with Some l => l | None => [] end) <= 36)%nat /\
  isNearlyFull None (stacks_of 29) = true.
Proof.
  split; [vm_compute; lia|].
  exact (proj2 (InventoryTracker_nearly_full_from_29
                  (match stacks_of 29 with Some l => l | None => [] end)
                  ltac:(vm_compute; lia))).
Defined.

End InventoryFurther.

Section WorldObserverFurther.
Import JS WorldObserver WorldObserverDangers.

Lemma detectCliff_type bot d : detectCliff bot = Some d -> danger_type d = cliff.
Proof. intros H. now destruct (detectCliff_medium bot d H). Qed.

Lemma first_hostile (es : list EntityObservation) :
  match filter isHostile es with
  | [] => find isHostile es = None
  | nearest :: _ => find isHostile es = Some nearest
  end.
Proof.
  induction es as [|e es IH]; simpl; [reflexivity|].
  destruct (isHostile e); [reflexivity|exact IH].
Qed.

(** X29. [detectDangers()] reports at most one danger of each kind, in
    the order low_health, low_food, lava, hostile_mob, cliff.  The
    hostile_mob danger is read from the previous snapshot: it describes
    the first hostile entity of [lastSnapshot], so the first observation
    reports none, whatever the entities in sight. *)
Theorem WorldObserver_dangers_one_per_kind
    (bot : Bot) (lastSnapshot : option WorldSnapshot) :
  let ds := detectDangers bot lastSnapshot in
  map danger_type ds = filter (fun kind => reported kind ds) CHECKS /\
  (forall d, In d ds -> danger_type d = hostile_mob ->
     exists prev e,
       lastSnapshot = Some prev /\
       find isHostile (nearbyEntities prev) = Some e /\
       description d = MobAway (eo_name e) (eo_distance e) /\
       danger_position d = Some (eo_position e)) /\
  reported hostile_mob (detectDangers bot None) = false.
Proof.
  cbv zeta. unfold detectDangers, healthDanger, foodDanger, lavaDanger.
  assert (Hmob : mobDanger lastSnapshot = [] \/
            exists prev e d,
              lastSnapshot = Some prev /\
              find isHostile (nearbyEntities prev) = Some e /\
              mobDanger lastSnapshot = [d] /\
              danger_type d = hostile_mob /\
              description d = MobAway (eo_name e) (eo_distance e) /\
              danger_position d = Some (eo_position e)).
  { unfold mobDanger. destruct lastSnapshot as [prev|]; [|now left].
    pose proof (first_hostile (nearbyEntities prev)) as Hfirst.
    destruct (filter isHostile (nearbyEntities prev)) as [|e rest]; [now left|].
    right. eexists prev, e, _. repeat split. exact Hfirst. }
  assert (Hcliff : (detectCliff bot = None) \/
                   exists c, detectCliff bot = Some c /\ danger_type c = cliff).
  { destruct (detectCliff bot) as [c|] eqn:Hc; [right|now left].
    exists c. split; [reflexivity|]. exact (detectCliff_type bot c Hc). }
  split; [|split].
  - destruct (Qleb (or_20 (bot_health bot)) 5), (Qleb (or_20 (bot_health bot)) 10),
      (Qleb (or_20 (bot_food bot)) 5), (Qleb (or_20 (bot_food bot)) 10),
      (entity bot); try reflexivity;
      destruct (lavaWithin8 bot) as [|nearest ?];
      (destruct Hmob as [->|(prev & e & d & _ & _ & -> & Hty & _)]);
      (destruct Hcliff as [->|(c & -> & Hc)]);
      cbn [app map filter CHECKS reported existsb danger_type DangerType_eqb orb];
      rewrite ?Hty, ?Hc;
      cbn [app map filter CHECKS reported existsb danger_type DangerType_eqb orb];
      reflexivity.
  - intros d Hin Hty.
    assert (Hd : In d (mobDanger lastSnapshot)).
    { destruct (entity bot).
      - rewrite !in_app_iff in Hin.
        destruct Hin as [[Hin|Hin]|[Hin|[Hin|Hin]]]; [| | |exact Hin|].
        + destruct (Qleb _ 5); [|destruct (Qleb _ 10)]; simpl in Hin;
            try destruct Hin as [<-|[]]; try contradiction; discriminate.
        + destruct (Qleb _ 5); [|destruct (Qleb _ 10)]; simpl in Hin;
            try destruct Hin as [<-|[]]; try contradiction; discriminate.
        + destruct (lavaWithin8 bot); simpl in Hin;
            try destruct Hin as [<-|[]]; try contradiction; discriminate.
        + destruct Hcliff as [Hc|(c & Hc & Hc')]; rewrite Hc in Hin;
            simpl in Hin; [contradiction|].
          destruct Hin as [<-|[]]. congruence.
      - rewrite in_app_iff in Hin. destruct Hin as [Hin|Hin].
        + destruct (Qleb _ 5); [|destruct (Qleb _ 10)]; simpl in Hin;
            try destruct Hin as [<-|[]]; try contradiction; discriminate.
        + destruct (Qleb _ 5); [|destruct (Qleb _ 10)]; simpl in Hin;
            try destruct Hin as [<-|[]]; try contradiction; discriminate. }
    destruct Hmob as [Hnil|(prev & e & d' & Hprev & Hfind & Hd' & _ & Hdesc & Hpos)].
    + rewrite Hnil in Hd. contradiction.
    + rewrite Hd' in Hd. destruct Hd as [<-|[]]. now exists prev, e.
  - destruct (Qleb (or_20 (bot_health bot)) 5), (Qleb (or_20 (bot_health bot)) 10),
      (Qleb (or_20 (bot_food bot)) 5), (Qleb (or_20 (bot_food bot)) 10),
      (entity bot); try reflexivity;
      destruct (lavaWithin8 bot) as [|nearest ?];
      (destruct Hcliff as [->|(c & -> & Hc)]);
      cbn [app mobDanger reported existsb danger_type DangerType_eqb orb];
      rewrite ?Hc; reflexivity.
Qed.

(** On the ledge with a zombie in sight, the first observation reports
    low health, low food and the cliff, not the zombie; the second one,
    made from the same place, reports it. *)
Example zombie_is_reported_one_observation_late :
  exists first second,
    observe 1 bot_with_zombie None = Some first /\
    observe 2 bot_with_zombie (Some first) = Some second /\
    map danger_type (dangers first) = [low_health; low_food; cliff] /\
    map danger_type (dangers second) = [low_health; low_food; hostile_mob; cliff].
Proof. eexists _, _. repeat split. Qed.

End WorldObserverFurther.

Section DecisionCycleFurther.
Import JS StateMachine AxiomMindStates.

Lemma slice_Forall {A : Type} (P : A -> Prop) (l : list A) (n : Z) :
  Forall P l -> Forall P (slice l n).
Proof.
  intros H. unfold slice. destruct (n <? 0); apply Forall_skipn; exact H.
Qed.

Lemma transition_never_entered s now dest why sm :
  dest <> s -> never_entered s sm ->
  never_entered s (snd (transition cfg now dest why sm)).
Proof.
  unfold never_entered, transition. intros Hne Hsm.
  destruct (BotState_eqb (currentState sm) dest); [exact Hsm|].
  destruct (negb (canTransition cfg sm dest)); [exact Hsm|].
  cbn [cfg config_of onExit onEnter call snd history].
  assert (Hpushed : Forall (fun tr => to tr <> s)
            (history sm ++ [ {| from := currentState sm; to := dest;
                                timestamp := now; reason := why |} ])).
  { apply Forall_app. split; [exact Hsm|]. constructor; [exact Hne|constructor]. }
  destruct (_ >? _); [now apply slice_Forall|exact Hpushed].
Qed.

Lemma transition_state now dest why sm :
  currentState (snd (transition cfg now dest why sm)) =
  if canTransition cfg sm dest then dest else currentState sm.
Proof.
  destruct sm as [cur prev hist]. destruct cur, dest; reflexivity.
Qed.

Lemma transition_refused now dest why sm :
  BotState_eqb (currentState sm) dest = false ->
  canTransition cfg sm dest = false ->
  snd (transition cfg now dest why sm) = sm.
Proof.
  intros Hne Hcan. unfold transition. now rewrite Hne, Hcan.
Qed.

(** A state-machine call made in the planning state, or any call that
    does not ask for EATING, never enters EATING. *)
Lemma step_never_eating sm now c :
  never_entered EATING sm ->
  (currentState sm = PLANNING \/
   forall why, c <> CallTransition EATING why) ->
  never_entered EATING (step cfg sm (now, c)).
Proof.
  intros Hsm Hc. destruct c as [dest why|why|why| |]; cbn [step].
  - destruct dest;
      try (apply transition_never_entered; [discriminate|exact Hsm]).
    destruct Hc as [Hplan|Hc]; [|now destruct (Hc why)].
    rewrite transition_refused; [exact Hsm| |];
      unfold canTransition; rewrite Hplan; reflexivity.
  - apply transition_never_entered; [discriminate|exact Hsm].
  - apply transition_never_entered; [discriminate|exact Hsm].
  - constructor.
  - constructor.
Qed.

Lemma toolTransition_cases name :
  toolTransition name = [] \/
  exists dest why, toolTransition name = [CallTransition dest (Some why)] /\
                   In dest [MINING; CRAFTING; NAVIGATING; EATING].
Proof.
  unfold toolTransition.
  destruct (InventoryQueries.includes name "mine");
    [right; eexists _, _; split; [reflexivity|simpl; tauto]|].
  destruct (InventoryQueries.includes name "craft");
    [right; eexists _, _; split; [reflexivity|simpl; tauto]|].
  destruct (InventoryQueries.includes name "goto");
    [right; eexists _, _; split; [reflexivity|simpl; tauto]|].
  destruct (InventoryQueries.includes name "eat");
    [right; eexists _, _; split; [reflexivity|simpl; tauto]|].
  now left.
Qed.

Lemma decisionCycle_rests sm c :
  (currentState sm = IDLE \/ currentState sm = ERROR) ->
  never_entered EATING sm ->
  currentState (decisionCycle sm c) = restsIn c /\
  never_entered EATING (decisionCycle sm c).
Proof.
  intros Hstate Hsm. unfold decisionCycle, restsIn, callsOf, tryCalls.
  destruct c as [tool thrown clk]. cbn [lastTool thrownAfter clock].
  set (plan := CallTransition PLANNING (Some "Planning next action"%string)).
  (* the machine after the first call of the block *)
  assert (Hplan : forall now,
            currentState (step cfg sm (now, plan)) = PLANNING /\
            never_entered EATING (step cfg sm (now, plan))).
  { intros now. split.
    - cbn [step plan]. rewrite transition_state. unfold canTransition.
      destruct Hstate as [-> | ->]; reflexivity.
    - apply step_never_eating; [exact Hsm|]. right. intros why. discriminate. }
  (* a call out of the planning state *)
  assert (Htool : forall sm1 now dest why,
            currentState sm1 = PLANNING -> never_entered EATING sm1 ->
            In dest [MINING; CRAFTING; NAVIGATING; EATING] ->
            let sm2 := step cfg sm1 (now, CallTransition dest (Some why)) in
            In (currentState sm2) [PLANNING; MINING; CRAFTING; NAVIGATING] /\
            never_entered EATING sm2).
  { intros sm1 now dest why H1 Hn1 Hdest. cbv zeta. split.
    - cbn [step]. rewrite transition_state. unfold canTransition. rewrite H1.
      simpl in Hdest. destruct Hdest as [<-|[<-|[<-|[<-|[]]]]]; simpl; tauto.
    - apply step_never_eating; [exact Hn1|now left]. }
  (* the two calls that end a cycle *)
  assert (Hidle : forall sm1 now why,
            In (currentState sm1) [IDLE; PLANNING; MINING; CRAFTING; NAVIGATING] ->
            never_entered EATING sm1 ->
            let sm2 := step cfg sm1 (now, CallReturnToIdle why) in
            currentState sm2 = IDLE /\ never_entered EATING sm2).
  { intros sm1 now why H1 Hn1. cbv zeta. split.
    - cbn [step]. unfold returnToIdle. rewrite transition_state.
      unfold canTransition. simpl in H1.
      destruct H1 as [<-|[<-|[<-|[<-|[<-|[]]]]]]; reflexivity.
    - apply step_never_eating; [exact Hn1|]. right. intros w. discriminate. }
  assert (Herror : forall sm1 now why,
            In (currentState sm1)
               [IDLE; ERROR; PLANNING; MINING; CRAFTING; NAVIGATING] ->
            never_entered EATING sm1 ->
            let sm2 := step cfg sm1 (now, CallTransitionToError why) in
            currentState sm2 = ERROR /\ never_entered EATING sm2).
  { intros sm1 now why H1 Hn1. cbv zeta. split.
    - cbn [step]. unfold transitionToError. rewrite transition_state.
      unfold canTransition. simpl in H1.
      destruct H1 as [<-|[<-|[<-|[<-|[<-|[<-|[]]]]]]]; reflexivity.
    - apply step_never_eating; [exact Hn1|]. right. intros w. discriminate. }
  assert (Hstart : In (currentState sm)
                      [IDLE; ERROR; PLANNING; MINING; CRAFTING; NAVIGATING])
    by (destruct Hstate as [-> | ->]; simpl; tauto).
  assert (Hcalls :
            (exists r, (tool = None /\ r = Some "No actions needed"%string \/
                        (exists name, tool = Some name /\ toolTransition name = []) /\
                        r = Some "Actions completed"%string) /\
                       match tool with
                       | Some name => toolTransition name ++
                                      [CallReturnToIdle (Some "Actions completed"%string)]
                       | None => [CallReturnToIdle (Some "No actions needed"%string)]
                       end = [CallReturnToIdle r]) \/
            (exists dest why,
                In dest [MINING; CRAFTING; NAVIGATING; EATING] /\
                match tool with
                | Some name => toolTransition name ++
                               [CallReturnToIdle (Some "Actions completed"%string)]
                | None => [CallReturnToIdle (Some "No actions needed"%string)]
                end = [CallTransition dest (Some why);
                       CallReturnToIdle (Some "Actions completed"%string)])).
  { destruct tool as [name|].
    - destruct (toolTransition_cases name) as [Hnil|(dest & why & Heq & Hin)].
      + left. eexists. split; [right; split; [now exists name|reflexivity]|].
        now rewrite Hnil.
      + right. exists dest, why. split; [exact Hin|]. now rewrite Heq.
    - left. eexists. split; [left; split; reflexivity|reflexivity]. }
  destruct Hcalls as [(r & _ & ->)|(dest & why & Hdest & ->)].
  - (* planning, idle *)
    destruct thrown as [[|[|k]]|]; cbn [firstn app timed length seq map combine fold_left].
    + now apply Herror.
    + destruct (Hplan (clk 0%nat)) as [H1 Hn1].
      apply Herror; [rewrite H1; simpl; tauto|exact Hn1].
    + destruct (Hplan (clk 0%nat)) as [H1 Hn1].
      destruct (Hidle _ (clk 1%nat) r
                  ltac:(rewrite H1; simpl; tauto) Hn1) as [H2 Hn2].
      rewrite firstn_nil. cbn [app timed length seq map combine fold_left].
      apply Herror; [rewrite H2; simpl; tauto|exact Hn2].
    + destruct (Hplan (clk 0%nat)) as [H1 Hn1].
      apply Hidle; [rewrite H1; simpl; tauto|exact Hn1].
  - (* planning, the tool's state, idle *)
    assert (Hwiden : forall s,
              In s [PLANNING; MINING; CRAFTING; NAVIGATING] ->
              In s [IDLE; PLANNING; MINING; CRAFTING; NAVIGATING] /\
              In s [IDLE; ERROR; PLANNING; MINING; CRAFTING; NAVIGATING])
      by (simpl; tauto).
    destruct thrown as [[|[|[|k]]]|];
      cbn [firstn app timed length seq map combine fold_left].
    + now apply Herror.
    + destruct (Hplan (clk 0%nat)) as [H1 Hn1].
      apply Herror; [rewrite H1; simpl; tauto|exact Hn1].
    + destruct (Hplan (clk 0%nat)) as [H1 Hn1].
      destruct (Htool _ (clk 1%nat) dest why H1 Hn1 Hdest) as [H2 Hn2].
      apply Herror; [now apply Hwiden|exact Hn2].
    + destruct (Hplan (clk 0%nat)) as [H1 Hn1].
      destruct (Htool _ (clk 1%nat) dest why H1 Hn1 Hdest) as [H2 Hn2].
      destruct (Hidle _ (clk 2%nat) (Some "Actions completed"%string)
                  (proj1 (Hwiden _ H2)) Hn2) as [H3 Hn3].
      rewrite firstn_nil. cbn [app timed length seq map combine fold_left].
      apply Herror; [rewrite H3; simpl; tauto|exact Hn3].
    + destruct (Hplan (clk 0%nat)) as [H1 Hn1].
      destruct (Htool _ (clk 1%nat) dest why H1 Hn1 Hdest) as [H2 Hn2].
      apply Hidle; [now apply Hwiden|exact Hn2].
Qed.

(** X30. Whatever the decision cycles of [AxiomMind] meet, the state
    machine rests after each of them in IDLE when the cycle completed
    and in ERROR when something threw, and it is never brought into
    EATING: the transition the cycle asks for when the last tool is an
    eating tool is made from PLANNING, where it is refused. *)
Theorem AxiomMind_cycle_rests_idle_or_error
    (cycles : list Cycle) (c : Cycle) :
  currentState (run (cycles ++ [c])) = restsIn c /\
  never_entered EATING (run (cycles ++ [c])) /\
  (forall now why now' why',
     let planned := transition cfg now PLANNING why (run cycles) in
     fst planned = true /\
     currentState (snd planned) = PLANNING /\
     transition cfg now' EATING why' (snd planned) = (false, snd planned)).
Proof.
  assert (Hinv : forall cs,
            (currentState (run cs) = IDLE \/ currentState (run cs) = ERROR) /\
            never_entered EATING (run cs)).
  { intros cs. induction cs as [|c' cs IH] using rev_ind.
    - split; [now left|constructor].
    - unfold run in *. rewrite fold_left_app. cbn [fold_left].
      destruct IH as [Hs Hn].
      destruct (decisionCycle_rests _ c' Hs Hn) as [H1 H2].
      split; [|exact H2]. rewrite H1. unfold restsIn.
      destruct (thrownAfter c'); [now right|now left]. }
  destruct (Hinv cycles) as [Hs Hn].
  split; [|split].
  - unfold run. rewrite fold_left_app. cbn [fold_left].
    now apply decisionCycle_rests.
  - apply (Hinv (cycles ++ [c])).
  - intros now why now' why'. cbv zeta.
    assert (Hplan : currentState (snd (transition cfg now PLANNING why (run cycles)))
                    = PLANNING).
    { rewrite transition_state. unfold canTransition.
      destruct Hs as [-> | ->]; reflexivity. }
    split; [|split; [exact Hplan|]].
    + unfold transition, canTransition.
      destruct Hs as [-> | ->]; reflexivity.
    + unfold transition at 1. unfold canTransition. rewrite Hplan. reflexivity.
Qed.

End DecisionCycleFurther.

